(** * Instance extraction pipeline: a shallow embedding and its properties

  The Python scripts under [clustering_final/] turn classified LiDAR point
  clouds into centroids and polygons.  This development embeds the
  algorithmic core of four of them:

  - [python_instance_enhanced.py]        (buildings),
  - [python_instance_enhanced_fixed1.py] (buildings, relaxed parameters),
  - [python_wire_enhanced.py]            (wires),
  - [python_mast_enhanced.py]            (mast clean-up).

  Python floats are idealised as real numbers ([R]); integers read from
  JSON are [Z]; Python lists are [list]; a caught exception is an [option]
  whose [None] is handled exactly where the source has its [except].
  Calls into SciPy's Qhull wrapper ([ConvexHull]) are taken as a parameter
  of the sections that use them, and so are the numerical routines of the
  outlier stage (the k-d tree query, NumPy's [mean] and [std] and the float
  operations on their results), where rounding decides which points are
  kept; NumPy's [percentile] and [unique] are written out. *)

From Stdlib Require Import String.
From Stdlib Require Import Reals Lra Lia ZArith List Bool Arith.
From Stdlib Require Import Permutation Sorted ListSet Zfloor.
Import ListNotations.

(** ** Part I.  The embedding *)

(** *** Python and NumPy primitives *)

Module Py.

Local Open Scope R_scope.

(** Comparisons on floats, as booleans. *)
Definition Rltb (a b : R) : bool := if Rlt_dec a b then true else false.
Definition Rleb (a b : R) : bool := if Rle_dec a b then true else false.
Definition Reqb (a b : R) : bool := if Req_dec_T a b then true else false.

(** A call that may raise: [Raised] is the exception, handled at the
    enclosing [except] of the source. *)
Inductive outcome (A : Type) : Type :=
| Returned (a : A)
| Raised.
Arguments Returned {A} a.
Arguments Raised {A}.

Definition bind {A B} (c : outcome A) (k : A -> outcome B) : outcome B :=
  match c with
  | Returned a => k a
  | Raised => Raised
  end.

Notation "x <- c ;; k" := (bind c (fun x => k))
  (at level 61, c at next level, right associativity).

(** [sum(xs)]: left fold from [0]. *)
Definition sum (xs : list R) : R := fold_left Rplus xs 0.

(** [min(xs)] and [max(xs)]; both raise [ValueError] on an empty list. *)
Definition min (xs : list R) : outcome R :=
  match xs with
  | [] => Raised
  | x :: t => Returned (fold_left Rmin t x)
  end.

Definition max (xs : list R) : outcome R :=
  match xs with
  | [] => Raised
  | x :: t => Returned (fold_left Rmax t x)
  end.

(** [range(a, b)]. *)
Definition range (a b : Z) : list Z :=
  map (fun k => (a + Z.of_nat k)%Z) (seq 0 (Z.to_nat (b - a))).

(** [l[i]] with Python's negative indices; [d] stands for [IndexError]. *)
Definition index {A} (l : list A) (i : Z) (d : A) : A :=
  if (i <? 0)%Z then nth (Z.to_nat (Z.of_nat (length l) + i)) l d
  else nth (Z.to_nat i) l d.

(** [sorted] / [list.sort]: a stable sort, here by insertion.  [leb x y]
    says that [x] may stand before [y]. *)
Fixpoint insert {A} (leb : A -> A -> bool) (x : A) (l : list A) : list A :=
  match l with
  | [] => [x]
  | y :: t => if leb x y then x :: y :: t else y :: insert leb x t
  end.

Definition sorted {A} (leb : A -> A -> bool) (l : list A) : list A :=
  fold_right (insert leb) [] l.

(** [round(x, ndigits)]: to the nearest multiple of [10^-ndigits], ties to
    the even one. *)
Definition round_half_even (y : R) : Z :=
  let f := Zfloor y in
  let r := y - IZR f in
  if Rltb r (1 / 2) then f
  else if Rltb (1 / 2) r then (f + 1)%Z
  else if Z.even f then f else (f + 1)%Z.

Definition round (x : R) (ndigits : nat) : R :=
  IZR (round_half_even (x * 10 ^ ndigits)) / 10 ^ ndigits.

(** Boolean-mask indexing [a[mask]]. *)
Fixpoint select {A} (mask : list bool) (a : list A) : list A :=
  match mask, a with
  | b :: mask', x :: a' => if b then x :: select mask' a' else select mask' a'
  | _, _ => []
  end.

(** Integer-array indexing [a[idx]]; an index out of range raises
    [IndexError]. *)
Fixpoint take {A} (a : list A) (idx : list nat) : outcome (list A) :=
  match idx with
  | [] => Returned []
  | i :: idx' =>
      match nth_error a i with
      | Some x => rest <- take a idx' ;; Returned (x :: rest)
      | None => Raised
      end
  end.

(** [l.append(l[0])] guarded by [len(l) > 0]. *)
Definition close_ring {A} (l : list A) : list A :=
  match l with
  | [] => []
  | x :: _ => l ++ [x]
  end.

End Py.

(** *** Geometry metrics ([python_instance_enhanced_fixed1.py], l. 400-411 and
    588-638; area, perimeter and aspect ratio have the same text in
    [python_instance_enhanced.py]) *)

Module Geometry.

Import Py.
Local Open Scope R_scope.

Definition point : Type := R * R.
Definition polygon : Type := list point.

(** The Euclidean distance of the k-d tree queries. *)
Definition distance (p q : point) : R :=
  sqrt ((fst p - fst q) ^ 2 + (snd p - snd q) ^ 2).

(** The loop [for i in range(len(coords)-1)] over consecutive vertices. *)
Fixpoint edge_lengths (coords : polygon) : list R :=
  match coords with
  | p :: (q :: _) as rest =>
      let dx := fst q - fst p in
      let dy := snd q - snd p in
      sqrt (dx * dx + dy * dy) :: edge_lengths rest
  | _ => []
  end.

Definition calculate_polygon_area (coords : polygon) : R :=
  if (length coords <? 4)%nat then 0
  else
    let x := map fst (removelast coords) in
    let y := map snd (removelast coords) in
    0.5 * Rabs (sum (map (fun i => index x i 0 * index y (i + 1) 0
                                   - index x (i + 1) 0 * index y i 0)
                         (range (-1) (Z.of_nat (length x) - 1)))).

Definition calculate_polygon_perimeter (coords : polygon) : R :=
  fold_left Rplus (edge_lengths coords) 0.

Definition calculate_aspect_ratio (coords : polygon) : R :=
  if (length coords <? 4)%nat then 1
  else
    let edges := sorted Rleb (edge_lengths coords) in
    if (4 <=? length edges)%nat then
      let width := nth 0 edges 0 in
      let height := nth 2 edges 0 in
      if Rltb 0 width then Rmax (height / width) (width / height) else 1
    else 1.

Definition calculate_compactness (area perimeter : R) : R :=
  if Rltb 0 perimeter then (4 * PI * area) / (perimeter ^ 2) else 0.

End Geometry.


(** *** Footprint builder ([python_instance_enhanced.py], l. 259-432; the
    fixed variant differs in [alpha] and in the neighbour threshold only) *)

Module Footprint.

Import Py Geometry.
Local Open Scope R_scope.

(** What the scripts read from a [scipy.spatial.ConvexHull] object. *)
Record hull : Type := { vertices : list nat; volume : R }.

Definition point_eqb (p q : point) : bool :=
  Reqb (fst p) (fst q) && Reqb (snd p) (snd q).

(** [tree.query_ball_point(x, r)]: the indices of the points at distance at
    most [r] from [x]. *)
Definition query_ball_point (points : list point) (x : point) (r : R)
  : list nat :=
  filter (fun i => Rleb (distance (nth i points (0, 0)) x) r)
         (seq 0 (length points)).

Definition point_to_line_distance (pt line_start line_end : point) : R :=
  let '(x0, y0) := pt in
  let '(x1, y1) := line_start in
  let '(x2, y2) := line_end in
  let num := Rabs ((y2 - y1) * x0 - (x2 - x1) * y0 + x2 * y1 - y2 * x1) in
  let den := sqrt ((y2 - y1) ^ 2 + (x2 - x1) ^ 2) in
  if Reqb den 0 then sqrt ((x0 - x1) ^ 2 + (y0 - y1) ^ 2)
  else num / den.

(** The call [point_to_line_distance(...)] made in a frame under which the
    interpreter allows [calls] more nested calls.  CPython 3.11 counts the
    call of a built-in such as [abs] like a Python call: with none left
    under the function's frame, [abs] raises [RecursionError] inside the
    [try] block and the bare [except] makes the function return 0. *)
Definition point_to_line_distance_within (calls : nat)
  (pt line_start line_end : point) : R :=
  match calls with
  | O => 0
  | S _ => point_to_line_distance pt line_start line_end
  end.

(** The scan [for i in range(1, len(points) - 1)] of [dp_simplify]: the
    largest distance to the chord and the first index that reaches it;
    [dist] is what the calls of [point_to_line_distance] return. *)
Definition farthest (dist : point -> point -> point -> R)
  (points : list point) : R * nat :=
  let first := nth 0 points (0, 0) in
  let last := List.last points (0, 0) in
  fold_left
    (fun (acc : R * nat) i =>
       let dist := dist (nth i points (0, 0)) first last in
       if Rltb (fst acc) dist then (dist, i) else acc)
    (seq 1 (length points - 2)) (0, 0%nat).

(** [dp_simplify], nested in [simplify_polygon].  [depth] is the number of
    nested calls the interpreter still allows where [dp_simplify] is
    called.  At [0] the call itself raises [RecursionError].  In the last
    frame ([calls = 0]) a list of more than two points makes the scan call
    [point_to_line_distance], which raises in [dp_simplify], where nothing
    catches it.  In the frame before the last, [point_to_line_distance]
    runs but returns 0 for every point. *)
Fixpoint dp_simplify (depth : nat) (points : list point) (epsilon : R)
  : outcome (list point) :=
  match depth with
  | O => Raised
  | S calls =>
      if (length points <=? 2)%nat then Returned points
      else
        match calls with
        | O => Raised
        | S inner =>
            let '(max_dist, index) :=
              farthest (point_to_line_distance_within inner) points in
            if Rltb epsilon max_dist then
              left <- dp_simplify calls (firstn (index + 1) points) epsilon ;;
              right <- dp_simplify calls (skipn index points) epsilon ;;
              Returned (removelast left ++ right)
            else Returned [nth 0 points (0, 0); List.last points (0, 0)]
        end
  end.

(** [if len(l) > 0 and l[0] != l[-1]: l.append(l[0])]. *)
Definition close_if_open (l : polygon) : polygon :=
  match l with
  | [] => l
  | p :: _ => if negb (point_eqb p (List.last l (0, 0))) then l ++ [p] else l
  end.

(** [simplify_polygon]; [depth] is the number of nested calls the
    interpreter allows inside it.  A [RecursionError] that leaves
    [dp_simplify] is caught by the bare [except], which returns [coords]. *)
Definition simplify_polygon (depth : nat) (coords : polygon) (tolerance : R)
  : polygon :=
  if (length coords <? 4)%nat then coords
  else
    match dp_simplify depth coords tolerance with
    | Returned simplified => close_if_open simplified
    | Raised => coords
    end.

Section WithQhull.

(** [ConvexHull(points)]; [Raised] is Qhull's [QhullError]. *)
Variable ConvexHull : list point -> outcome hull.

(** What is left of the interpreter's recursion limit inside
    [simplify_polygon]: the number of nested calls still allowed there. *)
Variable recursion_limit : nat.

(** [alpha] and the neighbour-count threshold of [create_concave_hull]:
    [3.0] and [8] in [python_instance_enhanced.py], [4.0] and [10] in the
    fixed variant. *)
Variable alpha : R.
Variable max_neighbors : nat.

Definition create_concave_hull (points : list point) : option polygon :=
  if (length points <? 4)%nat then None
  else
    let boundary_points :=
      filter (fun p =>
                (length (query_ball_point points p alpha) <=? max_neighbors)%nat)
             points in
    if (length boundary_points <? 4)%nat then None
    else
      match (h <- ConvexHull boundary_points ;;
             take boundary_points (vertices h)) with
      | Returned hull_coords => Some (close_ring hull_coords)
      | Raised => None
      end.

Definition create_oriented_bbox_with_cuts (points_2d : list point)
  : option polygon :=
  match (h <- ConvexHull points_2d ;; take points_2d (vertices h)) with
  | Returned hull_coords => Some (close_ring hull_coords)
  | Raised => None
  end.

(** Method 1 of [create_footprint_building]: [Returned None] when the
    [if]s fall through. *)
Definition method_concave (points_2d : list point) : outcome (option polygon) :=
  match create_concave_hull points_2d with
  | Some hull_coords =>
      if (4 <=? length hull_coords)%nat then
        let simplified := simplify_polygon recursion_limit hull_coords 0.5 in
        if (4 <=? length simplified)%nat then Returned (Some simplified)
        else Returned None
      else Returned None
  | None => Returned None
  end.

(** Method 2: the convex hull of all points. *)
Definition method_convex (points_2d : list point) : outcome polygon :=
  h <- ConvexHull points_2d ;;
  hull_coords <- take points_2d (vertices h) ;;
  Returned (close_if_open hull_coords).

(** Method 3: whatever the helper returns, [None] included. *)
Definition method_oriented (points_2d : list point)
  : outcome (option polygon) :=
  Returned (create_oriented_bbox_with_cuts points_2d).

(** Method 4: the axis-aligned bounding box. *)
Definition method_bbox (points_2d : list point) : outcome polygon :=
  x_min <- min (map fst points_2d) ;;
  y_min <- min (map snd points_2d) ;;
  x_max <- max (map fst points_2d) ;;
  y_max <- max (map snd points_2d) ;;
  Returned [(x_min, y_min); (x_max, y_min); (x_max, y_max); (x_min, y_max);
            (x_min, y_min)].

Definition create_footprint_building (points_2d : list point)
  : option polygon :=
  if (length points_2d <? 4)%nat then None
  else
    match method_concave points_2d with
    | Returned (Some simplified) => Some simplified
    | _ =>
        match method_convex points_2d with
        | Returned hull_coords => Some hull_coords
        | Raised =>
            match method_oriented points_2d with
            | Returned bbox => bbox
            | Raised =>
                match method_bbox points_2d with
                | Returned box => Some box
                | Raised => None
                end
            end
        end
    end.

(** [calculate_point_density] of the fixed variant (l. 384-398). *)
Definition calculate_point_density (points_2d : list point) : R :=
  if (length points_2d <? 4)%nat then 0
  else
    match ConvexHull points_2d with
    | Returned h =>
        if Rltb 0 (volume h) then INR (length points_2d) / volume h else 0
    | Raised => 0
    end.

End WithQhull.

(** All points on one line [a x + b y = c]: the input on which Qhull
    finds no initial simplex and raises [QhullError]. *)
Definition on_a_line (points : list point) : Prop :=
  exists a b c, (a <> 0 \/ b <> 0) /\
    Forall (fun p => a * fst p + b * snd p = c) points.

(** A closed ring: the first vertex is also the last. *)
Definition is_closed (l : polygon) : Prop :=
  match l with
  | [] => False
  | p :: _ => List.last l p = p
  end.

(** What Qhull guarantees of a hull it returns for a planar point set: at
    least three vertices, at pairwise different positions. *)
Definition hull_ok (ConvexHull : list point -> outcome hull) : Prop :=
  forall points h hull_coords,
    ConvexHull points = Returned h ->
    take points (vertices h) = Returned hull_coords ->
    (3 <= length hull_coords)%nat /\ NoDup hull_coords.

(** A right triangle with one point inside, and a hull oracle that knows
    this one cluster and fails on every other input. *)
Definition wedge : list point := [(0, 0); (4, 0); (4, 3); (3, 1)].

Fixpoint points_eqb (a b : list point) : bool :=
  match a, b with
  | [], [] => true
  | p :: a', q :: b' => point_eqb p q && points_eqb a' b'
  | _, _ => false
  end.

Definition wedge_hull (points : list point) : outcome hull :=
  if points_eqb points wedge
  then Returned {| vertices := [0; 1; 2]%nat; volume := 6 |}
  else Raised.

(** Qhull's vertex indices point into the array it was given. *)
Definition hull_in_range (ConvexHull : list point -> outcome hull) : Prop :=
  forall points h,
    ConvexHull points = Returned h ->
    Forall (fun i => (i < length points)%nat) (vertices h).

(** The closed ring of the axis-aligned rectangle with corner [(x0, y0)],
    width [w] and height [h]. *)
Definition rectangle (x0 y0 w h : R) : polygon :=
  [(x0, y0); (x0 + w, y0); (x0 + w, y0 + h); (x0, y0 + h); (x0, y0)].

(** The closed triangle around [wedge]. *)
Definition wedge_ring : polygon := [(0, 0); (4, 0); (4, 3); (0, 0)].

(** Four points of the x axis. *)
Definition row4 : list point := [(0, 0); (1, 0); (2, 0); (3, 0)].

End Footprint.


(** *** Instance filter of the fixed building variant
    ([python_instance_enhanced_fixed1.py], l. 193-294 and 640-680) *)

Module BuildingFixed.

Import Py Geometry Footprint.
Local Open Scope R_scope.

(** [(min_x, max_x, min_y, max_y)] of a vertex list, as
    [has_overlap_with_existing] computes it with [min] and [max]. *)
Definition bbox (coords : polygon) : outcome (R * R * R * R) :=
  min_x <- min (map fst coords) ;;
  max_x <- max (map fst coords) ;;
  min_y <- min (map snd coords) ;;
  max_y <- max (map snd coords) ;;
  Returned (min_x, max_x, min_y, max_y).

Definition boxes_apart (a b : R * R * R * R) : bool :=
  let '(new_min_x, new_max_x, new_min_y, new_max_y) := a in
  let '(existing_min_x, existing_max_x, existing_min_y, existing_max_y) := b in
  Rltb new_max_x existing_min_x || Rltb existing_max_x new_min_x
  || Rltb new_max_y existing_min_y || Rltb existing_max_y new_min_y.

Definition center_distance (a b : R * R * R * R) : R :=
  let '(new_min_x, new_max_x, new_min_y, new_max_y) := a in
  let '(existing_min_x, existing_max_x, existing_min_y, existing_max_y) := b in
  let new_center_x := (new_min_x + new_max_x) / 2 in
  let new_center_y := (new_min_y + new_max_y) / 2 in
  let existing_center_x := (existing_min_x + existing_max_x) / 2 in
  let existing_center_y := (existing_min_y + existing_max_y) / 2 in
  sqrt ((new_center_x - existing_center_x) ^ 2
        + (new_center_y - existing_center_y) ^ 2).

(** The [for existing_coords in existing_polygons] loop. *)
Fixpoint overlap_scan (new_coords : polygon) (existing_polygons : list polygon)
  (min_distance : R) : outcome bool :=
  match existing_polygons with
  | [] => Returned false
  | existing_coords :: rest =>
      new_box <- bbox new_coords ;;
      existing_box <- bbox existing_coords ;;
      if boxes_apart new_box existing_box
      then overlap_scan new_coords rest min_distance
      else if Rltb (center_distance new_box existing_box) min_distance
           then Returned true
           else overlap_scan new_coords rest min_distance
  end.

Definition has_overlap_with_existing (new_coords : polygon)
  (existing_polygons : list polygon) (min_distance : R) : bool :=
  match overlap_scan new_coords existing_polygons min_distance with
  | Returned b => b
  | Raised => false
  end.

Inductive rejection : Type :=
| too_few_points | too_sparse | invalid_polygon | too_small | too_large
| aspect_ratio | overlap.

Record building : Type := {
  polygon_id : nat;
  coordinates : polygon;
  area_m2 : R;
  perimeter_m : R;
  point_count : nat;
  point_density : R;
  building_aspect_ratio : R;
  compactness : R
}.

Inductive verdict : Type :=
| Reject (why : rejection)
| Accept (polygon_coords : polygon).

(** Filters 1 to 5 of one loop iteration, on the cluster's size, its
    density and the footprint built for it. *)
Definition assess (n_points : nat) (cluster_density : R)
  (polygon_coords : option polygon) (building_polygons : list polygon)
  : verdict :=
  if (n_points <? 80)%nat then Reject too_few_points
  else if Rltb cluster_density 0.3 then Reject too_sparse
  else
    match polygon_coords with
    | None => Reject invalid_polygon
    | Some coords =>
        let area := calculate_polygon_area coords in
        let aspect := calculate_aspect_ratio coords in
        if Rltb area 20 then Reject too_small
        else if Rltb 5000 area then Reject too_large
        else if Rltb 12 aspect then Reject aspect_ratio
        else if has_overlap_with_existing coords building_polygons 8
             then Reject overlap
             else Accept coords
    end.

Definition make_building (buildings : list building) (n_points : nat)
  (cluster_density : R) (coords : polygon) : building :=
  let area := calculate_polygon_area coords in
  let perimeter := calculate_polygon_perimeter coords in
  {| polygon_id := length buildings + 1;
     coordinates := close_if_open coords;
     area_m2 := round area 2;
     perimeter_m := round perimeter 2;
     point_count := n_points;
     point_density := round cluster_density 2;
     building_aspect_ratio := round (calculate_aspect_ratio coords) 2;
     compactness := round (calculate_compactness area perimeter) 3 |}.

(** The loop state: [buildings], [building_polygons], and the rejections in
    the order they were printed ([rejected_stats] counts them by reason). *)
Record state : Type := {
  buildings : list building;
  building_polygons : list polygon;
  rejected : list rejection
}.

Definition initial : state :=
  {| buildings := []; building_polygons := []; rejected := [] |}.

Definition record_verdict (st : state) (n_points : nat) (cluster_density : R)
  (v : verdict) : state :=
  match v with
  | Reject why =>
      {| buildings := buildings st;
         building_polygons := building_polygons st;
         rejected := rejected st ++ [why] |}
  | Accept coords =>
      {| buildings :=
           buildings st ++ [make_building (buildings st) n_points
                              cluster_density coords];
         building_polygons := building_polygons st ++ [coords];
         rejected := rejected st |}
  end.

Section WithQhull.

Variable ConvexHull : list point -> outcome hull.
Variable recursion_limit : nat.

(** One iteration of [for i, cluster_id in enumerate(sorted(unique_labels))]. *)
Definition step (st : state) (cluster_points : list point) : state :=
  let n_points := length cluster_points in
  let cluster_density := calculate_point_density ConvexHull cluster_points in
  record_verdict st n_points cluster_density
    (assess n_points cluster_density
       (create_footprint_building ConvexHull recursion_limit 4 10
          cluster_points)
       (building_polygons st)).

(** The whole loop, over the clusters in ascending label order. *)
Definition extract_polygons (clusters : list (list point)) : state :=
  fold_left step clusters initial.

End WithQhull.

(** The relation the overlap check enforces between an accepted polygon
    and a later one: both bounding boxes exist, and they are apart on one
    axis or their centres are at least [d] from each other. *)
Definition clear_of (d : R) (earlier later : polygon) : Prop :=
  exists be bl,
    bbox earlier = Returned be /\ bbox later = Returned bl /\
    (boxes_apart bl be = true \/ d <= center_distance bl be).

(** The loop invariant: accepted polygons are non-empty and pairwise
    clear of each other. *)
Definition separated (polys : list polygon) : Prop :=
  Forall (fun e => e <> []) polys /\ ForallOrdPairs (clear_of 8) polys.

(** What the five filters promise of a building that was accepted, read
    off the values stored in its feature. *)
Definition within_filters (b : building) : Prop :=
  (80 <= point_count b)%nat /\
  20 <= area_m2 b <= 5000 /\
  0.3 <= point_density b /\
  building_aspect_ratio b <= 12.

(** The bookkeeping the loop keeps after [k] clusters. *)
Definition accounted (st : state) (k : nat) : Prop :=
  Forall within_filters (buildings st) /\
  map polygon_id (buildings st) = seq 1 (length (buildings st)) /\
  length (buildings st) = length (building_polygons st) /\
  (length (buildings st) + length (rejected st) = k)%nat.

(** Two 5 m squares, one metre apart. *)
Definition sq1 : polygon := [(0, 0); (5, 0); (5, 5); (0, 5); (0, 0)].
Definition sq2 : polygon := [(6, 0); (11, 0); (11, 5); (6, 5); (6, 0)].

End BuildingFixed.


(** *** Instance filter of the first building script
    ([python_instance_enhanced.py], l. 149-216 and 486-524) *)

Module BuildingOriginal.

Import Py Geometry Footprint.
Local Open Scope R_scope.

(** [has_overlap_with_existing(new_coords, existing_polygons,
    overlap_threshold=0.1)]: the same scan as in the fixed variant with the
    distance [25] written into the loop; [overlap_threshold] is never
    read. *)
Definition has_overlap_with_existing (new_coords : polygon)
  (existing_polygons : list polygon) (overlap_threshold : R) : bool :=
  match BuildingFixed.overlap_scan new_coords existing_polygons 25 with
  | Returned b => b
  | Raised => false
  end.

Record building : Type := {
  polygon_id : nat;
  coordinates : polygon;
  area_m2 : R;
  perimeter_m : R;
  point_count : nat;
  building_aspect_ratio : R
}.

(** The loop state: [buildings] and [building_polygons]. *)
Record state : Type := {
  buildings : list building;
  building_polygons : list polygon
}.

Definition initial : state := {| buildings := []; building_polygons := [] |}.

(** One iteration on the footprint built for the cluster: [None] stands
    for each [continue]. *)
Definition accept (polygon_coords : option polygon)
  (building_polygons : list polygon) : option polygon :=
  match polygon_coords with
  | None => None
  | Some coords =>
      let area := calculate_polygon_area coords in
      if Rltb area 40 || Rltb 500 area then None
      else if Rltb 8 (calculate_aspect_ratio coords) then None
      else if has_overlap_with_existing coords building_polygons 0.1
           then None
           else Some coords
  end.

Definition keep (st : state) (n_points : nat) (coords : polygon) : state :=
  {| buildings :=
       buildings st ++
       [{| polygon_id := length (buildings st) + 1;
           coordinates := close_if_open coords;
           area_m2 := round (calculate_polygon_area coords) 2;
           perimeter_m := round (calculate_polygon_perimeter coords) 2;
           point_count := n_points;
           building_aspect_ratio := round (calculate_aspect_ratio coords) 2 |}];
     building_polygons := building_polygons st ++ [coords] |}.

Section WithQhull.

Variable ConvexHull : list point -> outcome hull.
Variable recursion_limit : nat.

Definition step (st : state) (cluster_points : list point) : state :=
  match accept (create_footprint_building ConvexHull recursion_limit 3.0 8
                  cluster_points) (building_polygons st) with
  | None => st
  | Some coords => keep st (length cluster_points) coords
  end.

Definition extract_polygons (clusters : list (list point)) : state :=
  fold_left step clusters initial.

End WithQhull.

(** What the size and aspect filters promise of an accepted polygon. *)
Definition passes (coords : polygon) : Prop :=
  40 <= calculate_polygon_area coords <= 500 /\
  calculate_aspect_ratio coords <= 8.

(** The invariant of the loop. *)
Definition kept_ok (st : state) : Prop :=
  Forall (fun e => e <> []) (building_polygons st) /\
  Forall passes (building_polygons st) /\
  ForallOrdPairs (BuildingFixed.clear_of 25) (building_polygons st) /\
  map polygon_id (buildings st) = seq 1 (length (buildings st)) /\
  length (buildings st) = length (building_polygons st).

End BuildingOriginal.

(** *** Mast clean-up ([python_mast_enhanced.py]) *)

Module Mast.

Import Py.
Local Open Scope R_scope.

(** [MAST_FILTERS]. *)
Definition min_points : Z := 100.
Definition max_points : Z := 3000.
Definition min_relative_height : R := 5.0.
Definition max_relative_height : R := 50.0.
Definition min_density : R := 10.0.
Definition max_density : R := 200.0.
Definition min_quality_score : R := 0.6.

(** The keys [process_mast_chunk] adds to a mast it keeps. *)
Record validation : Type := {
  relative_height_m : R;
  point_density : R;
  quality_score : R;
  validation_status : string
}.

(** One entry of [centroids]: the keys the script reads, and the added
    keys once the mast has been marked clean. *)
Record mast : Type := {
  object_id : Z;
  point_count : Z;
  centroid_x : R;
  centroid_y : R;
  centroid_z : R;
  checked : option validation
}.

(** [utm_bounds]; only [min_z] is read. *)
Record bounds : Type := { min_z : R }.

Definition centroid_distance (current_mast kept_mast : mast) : R :=
  sqrt ((centroid_x current_mast - centroid_x kept_mast) ^ 2
        + (centroid_y current_mast - centroid_y kept_mast) ^ 2).

(** The inner loop [for kept_mast in filtered_masts] with its [break]. *)
Definition is_duplicate (current_mast : mast) (filtered_masts : list mast)
  (proximity_radius : R) : bool :=
  existsb (fun kept_mast =>
             Rltb (centroid_distance current_mast kept_mast) proximity_radius)
          filtered_masts.

(** [sorted(masts, key=lambda m: m['point_count'], reverse=True)]. *)
Definition by_point_count_desc (a b : mast) : bool :=
  (point_count b <=? point_count a)%Z.

Definition dedup_step (proximity_radius : R) (acc : list mast * nat)
  (current_mast : mast) : list mast * nat :=
  let '(filtered_masts, removed_count) := acc in
  if is_duplicate current_mast filtered_masts proximity_radius
  then (filtered_masts, S removed_count)
  else (filtered_masts ++ [current_mast], removed_count).

Definition remove_duplicate_masts (masts : list mast) (proximity_radius : R)
  : list mast * nat :=
  if (length masts <=? 1)%nat then (masts, 0%nat)
  else
    let sorted_masts := sorted by_point_count_desc masts in
    fold_left (dedup_step proximity_radius) sorted_masts ([], 0%nat).

Record quality_factors : Type := {
  factor_point_count : R;
  factor_height : R;
  factor_density : R
}.

Record validation_details : Type := {
  details_point_count : Z;
  details_relative_height : R;
  details_density : R;
  details_quality_factors : quality_factors;
  details_quality_score : R
}.

Definition calculate_mast_quality (mast_data : mast) (chunk_bounds : bounds)
  : R * validation_details :=
  let point_count := point_count mast_data in
  let height := centroid_z mast_data in
  let ground_level := min_z chunk_bounds in
  let relative_height := height - ground_level in
  let density := IZR point_count / Rmax relative_height 1.0 in
  let f_point_count :=
    if (min_points <=? point_count)%Z && (point_count <=? max_points)%Z
    then 1.0
    else if (point_count <? min_points)%Z then 0.0 else 0.0 in
  let f_height :=
    if Rleb min_relative_height relative_height
       && Rleb relative_height max_relative_height
    then 1.0 else 0.5 in
  let f_density :=
    if Rleb min_density density && Rleb density max_density
    then 1.0 else 0.7 in
  let quality_score :=
    sum [f_point_count * 0.5; f_height * 0.3; f_density * 0.2] in
  (quality_score,
   {| details_point_count := point_count;
      details_relative_height := round relative_height 1;
      details_density := round density 1;
      details_quality_factors :=
        {| factor_point_count := f_point_count;
           factor_height := f_height;
           factor_density := f_density |};
      details_quality_score := round quality_score 3 |}).

Record filtered_stats : Type := {
  too_small : nat;
  too_large : nat;
  poor_quality : nat;
  duplicates_removed : nat;
  clean_masts : nat
}.

(** [clean_mast = mast.copy(); clean_mast.update({...})]. *)
Definition mark_clean (m : mast) (v : validation_details) : mast :=
  {| object_id := object_id m;
     point_count := point_count m;
     centroid_x := centroid_x m;
     centroid_y := centroid_y m;
     centroid_z := centroid_z m;
     checked :=
       Some {| relative_height_m := details_relative_height v;
               point_density := details_density v;
               quality_score := details_quality_score v;
               validation_status := "clean_mast" |} |}.

(** One iteration of [for mast in original_masts]. *)
Definition filter_step (chunk_bounds : bounds)
  (acc : list mast * filtered_stats) (m : mast) : list mast * filtered_stats :=
  let '(clean, stats) := acc in
  let '(quality_score, validation) := calculate_mast_quality m chunk_bounds in
  let point_count := point_count m in
  if (point_count <? min_points)%Z then
    (clean, {| too_small := S (too_small stats);
               too_large := too_large stats;
               poor_quality := poor_quality stats;
               duplicates_removed := duplicates_removed stats;
               clean_masts := clean_masts stats |})
  else if (max_points <? point_count)%Z then
    (clean, {| too_small := too_small stats;
               too_large := S (too_large stats);
               poor_quality := poor_quality stats;
               duplicates_removed := duplicates_removed stats;
               clean_masts := clean_masts stats |})
  else if Rltb quality_score min_quality_score then
    (clean, {| too_small := too_small stats;
               too_large := too_large stats;
               poor_quality := S (poor_quality stats);
               duplicates_removed := duplicates_removed stats;
               clean_masts := clean_masts stats |})
  else
    (clean ++ [mark_clean m validation],
     {| too_small := too_small stats;
        too_large := too_large stats;
        poor_quality := poor_quality stats;
        duplicates_removed := duplicates_removed stats;
        clean_masts := S (clean_masts stats) |}).

Definition no_stats : filtered_stats :=
  {| too_small := 0; too_large := 0; poor_quality := 0;
     duplicates_removed := 0; clean_masts := 0 |}.

(** What [process_mast_chunk] leaves in [data]: the [centroids] and, unless
    the early return on an empty list was taken, the [statistics]. *)
Record processed : Type := {
  centroids : list mast;
  statistics : option filtered_stats
}.

(** [process_mast_chunk] from the parsed [data] on: [original_masts] is
    [data['centroids']] and [chunk_bounds] is [data['utm_bounds']]. *)
Definition process_mast_chunk (original_masts : list mast)
  (chunk_bounds : bounds) : processed :=
  match original_masts with
  | [] => {| centroids := original_masts; statistics := None |}
  | _ =>
      let '(clean, stats) :=
        fold_left (filter_step chunk_bounds) original_masts ([], no_stats) in
      let '(clean, duplicate_count) := remove_duplicate_masts clean 1.5 in
      {| centroids := clean;
         statistics :=
           Some {| too_small := too_small stats;
                   too_large := too_large stats;
                   poor_quality := poor_quality stats;
                   duplicates_removed := duplicate_count;
                   clean_masts := length clean |} |}
  end.

(** What [process_mast_chunk] finds in the centroids file.  [unreadable]:
    [open] or [json.load] raises, and the function returns [None].
    [ill_formed]: the file is read, but the function then raises, as it
    does on a list of masts in a file without [results], without
    [utm_bounds.min_z], or with a mast that lacks a key the function reads;
    nothing catches that error.  [chunk]: the list under [centroids], empty
    when the key is absent, and the bounds. *)
Inductive centroids_file : Type :=
| unreadable
| ill_formed
| chunk (original_masts : list mast) (chunk_bounds : bounds).

(** What [main] meets outside the process: the command line [sys.argv],
    whether the glob finds a centroids file, what is in it, whether the data
    as read already holds all that the summary prints (a [filtering] section
    with [statistics] and [filters], and [results] with an
    [original_instances] other than 0), and whether the [_clean.json] file
    can be written. *)
Record surroundings : Type := {
  argv : list string;
  centroids_found : bool;
  loaded : centroids_file;
  summary_as_read : bool;
  clean_writable : bool
}.

(** How [main] ends: the exit status and what was written to the
    [_clean.json] file, if anything. *)
Record ending : Type := {
  exit_status : Z;
  written : option processed
}.

(** [main], l. 246-325.  [process_mast_chunk] is called outside the [try]:
    an error that leaves it ends the script with a traceback and status 1.
    The summary reads [clean_data['filtering']] and [clean_data['results']],
    which [process_mast_chunk] sets only when there were masts; without
    them the [KeyError] is caught by the [except] around the save. *)
Definition main (w : surroundings) : ending :=
  if negb (length (argv w) =? 2)%nat then
    {| exit_status := 1; written := None |}
  else if negb (centroids_found w) then
    {| exit_status := 1; written := None |}
  else
    match loaded w with
    | unreadable => {| exit_status := 1; written := None |}
    | ill_formed => {| exit_status := 1; written := None |}
    | chunk original_masts chunk_bounds =>
        let clean_data := process_mast_chunk original_masts chunk_bounds in
        if negb (clean_writable w) then
          {| exit_status := 1; written := None |}
        else
          match statistics clean_data with
          | None =>
              {| exit_status := if summary_as_read w then 0 else 1;
                 written := Some clean_data |}
          | Some _ => {| exit_status := 0; written := Some clean_data |}
          end
    end.

(** The masts the filter loop has rejected so far. *)
Definition total (s : filtered_stats) : nat :=
  too_small s + too_large s + poor_quality s.

(** A kept mast as [process_mast_chunk] leaves it. *)
Definition marked_clean (c : mast) : Prop :=
  (min_points <= point_count c <= max_points)%Z /\
  exists v, checked c = Some v /\
            validation_status v = "clean_mast"%string /\
            0.79 <= quality_score v.

(** Two kept masts are far apart when the later one is at least
    [proximity_radius] from the earlier one. *)
Definition far_apart (proximity_radius : R) (earlier later : mast) : Prop :=
  proximity_radius <= centroid_distance later earlier.

Definition at_least_as_large (a b : mast) : Prop :=
  (point_count b <= point_count a)%Z.

(** What the scan keeps: the invariant of the loop over [sorted_masts]. *)
Record scan_ok (r : R) (kept rest : list mast) : Prop := {
  kept_sorted : StronglySorted at_least_as_large kept;
  kept_apart : ForallOrdPairs (far_apart r) kept;
  kept_dominate :
    Forall (fun k => Forall (fun m => at_least_as_large k m) rest) kept
}.

(** The two results of [calculate_mast_quality] the statements speak of. *)
Definition score (m : mast) (b : bounds) : R :=
  fst (calculate_mast_quality m b).

Definition factors (m : mast) (b : bounds) : quality_factors :=
  details_quality_factors (snd (calculate_mast_quality m b)).

(** A mast with too few points. *)
Definition mast_small : mast :=
  {| object_id := 3; point_count := 50; centroid_x := 20; centroid_y := 0;
     centroid_z := 10; checked := None |}.

(** Two masts exactly 1.5 m from each other. *)
Definition mast_a : mast :=
  {| object_id := 1; point_count := 200; centroid_x := 0; centroid_y := 0;
     centroid_z := 10; checked := None |}.
Definition mast_b : mast :=
  {| object_id := 2; point_count := 150; centroid_x := 1.5; centroid_y := 0;
     centroid_z := 10; checked := None |}.

End Mast.


(** *** The filtering stages before clustering
    ([python_instance_enhanced.py], l. 84-117; [python_wire_enhanced.py],
    l. 130-165) *)

Module Stages.

Import Py Geometry.
Local Open Scope R_scope.

Definition point3 : Type := R * R * R.
Definition px (p : point3) : R := fst (fst p).
Definition py (p : point3) : R := snd (fst p).
Definition pz (p : point3) : R := snd p.

(** [points[:, :2]]. *)
Definition xy (p : point3) : point := (px p, py p).

(** A row of [voxel_indices]. *)
Definition row : Type := Z * Z * Z.

Definition row_eq_dec (a b : row) : {a = b} + {a <> b}.
Proof. repeat decide equality. Defined.

(** [np.floor(points_3d / voxel_size).astype(int)], one row. *)
Definition voxel_index (voxel_size : R) (p : point3) : row :=
  (Zfloor (px p / voxel_size), Zfloor (py p / voxel_size),
   Zfloor (pz p / voxel_size)).

(** The lexicographic order in which [np.unique(..., axis=0)] returns the
    rows. *)
Definition row_leb (a b : row) : bool :=
  let '(a1, a2, a3) := a in
  let '(b1, b2, b3) := b in
  match (a1 ?= b1)%Z with
  | Lt => true
  | Gt => false
  | Eq => match (a2 ?= b2)%Z with
          | Lt => true
          | Gt => false
          | Eq => (a3 <=? b3)%Z
          end
  end.

(** The index of the first occurrence of [r] ([length rows] if none). *)
Fixpoint first_index (r : row) (rows : list row) : nat :=
  match rows with
  | [] => 0
  | r' :: t => if row_eq_dec r r' then 0 else S (first_index r t)
  end.

(** [np.unique(rows, axis=0, return_index=True)]: the distinct rows in
    lexicographic order, and for each the index of its first occurrence. *)
Definition np_unique (rows : list row) : list row * list nat :=
  let unique_rows := sorted row_leb (nodup row_eq_dec rows) in
  (unique_rows, map (fun r => first_index r rows) unique_rows).

(** Step 1, the density reducer. *)
Definition voxel_filter (voxel_size : R) (points_3d : list point3)
  : outcome (list point3) :=
  let voxel_indices := map (voxel_index voxel_size) points_3d in
  let '(unique_voxels, unique_indices) := np_unique voxel_indices in
  take points_3d unique_indices.

(** [np.percentile(a, q)] with the default linear interpolation between
    the two order statistics around the position [(n - 1) * q / 100].  A [q]
    outside [0, 100] raises [ValueError]; an empty [a] has no order
    statistic to index. *)
Definition np_percentile (a : list R) (q : R) : outcome R :=
  match a with
  | [] => Raised
  | _ =>
      if Rltb q 0 || Rltb 100 q then Raised
      else
        let ordered := sorted Rleb a in
        let n := length a in
        let position := (INR n - 1) * (q / 100) in
        let below := Z.to_nat (Zfloor position) in
        let above := Nat.min (below + 1) (n - 1) in
        let gamma := position - IZR (Zfloor position) in
        let lower := nth below ordered 0 in
        let upper := nth above ordered 0 in
        Returned (lower + (upper - lower) * gamma)
  end.

(** Step 2, the ground/height filter. *)
Definition height_filter (percentile : R) (voxel_filtered : list point3)
  : outcome (list point3) :=
  let z_values := map pz voxel_filtered in
  height_threshold <- np_percentile z_values percentile ;;
  let height_mask := map (fun z => Rltb height_threshold z) z_values in
  Returned (select height_mask voxel_filtered).

(** The numerical routines of the outlier stage.  Each returns floats,
    rounded as the library rounds them, so the stage is written over any
    such routines rather than over exact arithmetic:
    [tree_query points k] is [cKDTree(points).query(points, k=k)[0]], one
    row per point with the distances to its [k] nearest points of the tree,
    itself included, in ascending order; [row_mean] is [.mean(axis=1)] on
    one row; [np_mean] and [np_std] are [np.mean] and [np.std];
    [float_add] and [float_mul] are [+] and [*] on floats. *)
Record numerics : Type := {
  tree_query : list point -> nat -> list (list R);
  row_mean : list R -> R;
  np_mean : list R -> R;
  np_std : list R -> R;
  float_add : R -> R -> R;
  float_mul : R -> R -> R
}.

Section OutlierStage.

Variable N : numerics.

(** [distances[:, 1:].mean(axis=1)] for [k = min(k_max, n - 1)]. *)
Definition mean_knn_distances (k_max : nat) (points_2d : list point) : list R :=
  let k_neighbors := Nat.min k_max (length points_2d - 1) in
  let distances := tree_query N points_2d (k_neighbors + 1) in
  map (fun d => row_mean N (skipn 1 d)) distances.

Definition outlier_threshold (factor : R) (mean_distances : list R) : R :=
  let mean_dist := np_mean N mean_distances in
  let std_dist := np_std N mean_distances in
  float_add N mean_dist (float_mul N factor std_dist).

Definition inlier_mask (k_max : nat) (factor : R) (points_2d : list point)
  : list bool :=
  let mean_distances := mean_knn_distances k_max points_2d in
  let threshold := outlier_threshold factor mean_distances in
  map (fun d => Rltb d threshold) mean_distances.

(** Step 3 for buildings: 10 neighbours, factor 1.2, the 2-D points kept. *)
Definition building_outlier_filter (height_filtered : list point3)
  : list point :=
  let points_2d := map xy height_filtered in
  select (inlier_mask 10 1.2 points_2d) points_2d.

(** Step 3 for wires: 8 neighbours, factor 2.5, the 3-D points kept. *)
Definition wire_outlier_filter (height_filtered : list point3)
  : list point3 :=
  let points_2d := map xy height_filtered in
  select (inlier_mask 8 2.5 points_2d) height_filtered.

End OutlierStage.

(** The routines in exact arithmetic.  Where no intermediate result needs
    rounding, as on distances that are all 0, they return what the
    libraries return. *)
Definition exact_query (points : list point) (k : nat) : list (list R) :=
  map (fun p => firstn k (sorted Rleb (map (distance p) points))) points.

Definition exact_mean (a : list R) : R := sum a / INR (length a).

Definition exact_std (a : list R) : R :=
  let m := exact_mean a in
  sqrt (exact_mean (map (fun x => Rabs (x - m) ^ 2) a)).

Definition exact : numerics :=
  {| tree_query := exact_query;
     row_mean := exact_mean;
     np_mean := exact_mean;
     np_std := exact_std;
     float_add := Rplus;
     float_mul := Rmult |}.

(** What links a unique voxel to the point kept for it. *)
Definition first_of (voxel_size : R) (points_3d : list point3)
  (r : row) (q : point3) : Prop :=
  voxel_index voxel_size q = r /\
  exists i, nth_error points_3d i = Some q /\
    forall j p, (j < i)%nat -> nth_error points_3d j = Some p ->
                voxel_index voxel_size p <> r.

(** The lexicographic order [row_leb] decides. *)
Definition row_le (a b : row) : Prop :=
  let '(a1, a2, a3) := a in
  let '(b1, b2, b3) := b in
  (a1 < b1 \/ (a1 = b1 /\ (a2 < b2 \/ (a2 = b2 /\ a3 <= b3))))%Z.

Definition all_zero (l : list R) : Prop := Forall (fun x => x = 0) l.

(** What the libraries guarantee whatever the rounding.  A query for
    [k] neighbours, [2 <= k <= n], returns one row of [k] distances per
    point, and points at one position are at distance 0.0 from each other.
    Mean and standard deviation of a non-empty array of zeros, and sum and
    product of zeros, are 0.0. *)
Record exact_on_zeros (N : numerics) : Prop := {
  query_rows :
    forall (points : list point) (k : nat),
      (2 <= k <= length points)%nat ->
      length (tree_query N points k) = length points /\
      Forall (fun d => length d = k) (tree_query N points k);
  query_coincident :
    forall (p0 : point) (points : list point) (k : nat),
      Forall (fun p => p = p0) points -> (2 <= k <= length points)%nat ->
      Forall all_zero (tree_query N points k);
  row_mean_zeros : forall l, l <> [] -> all_zero l -> row_mean N l = 0;
  np_mean_zeros : forall l, l <> [] -> all_zero l -> np_mean N l = 0;
  np_std_zeros : forall l, l <> [] -> all_zero l -> np_std N l = 0;
  float_add_zeros : float_add N 0 0 = 0;
  float_mul_zero : forall f, float_mul N f 0 = 0
}.

(** Five points at heights 1 to 5. *)
Definition ramp5 : list point3 :=
  [(0, 0, 1); (1, 0, 2); (2, 0, 3); (3, 0, 4); (4, 0, 5)].

(** Twenty returns of one vertical wall edge: distinct heights over one
    ground position. *)
Definition stack20 : list point3 :=
  map (fun k => (0, 0, INR k)) (seq 0 20).

End Stages.

(** *** Point loading and clean-up of the building script
    ([python_instance_enhanced.py], l. 36-80 and 218-257) *)

Module Loader.

Import Py Stages.
Local Open Scope string_scope.

(** The files that exist, by path. *)
Definition files : Type := string -> bool.

Definition write (fs : files) (path : string) : files :=
  fun q => if String.eqb q path then true else fs q.

(** [os.remove(path)]; a missing file raises [FileNotFoundError]. *)
Definition os_remove (fs : files) (path : string) : outcome files :=
  if fs path
  then Returned (fun q => if String.eqb q path then false else fs q)
  else Raised.

Definition temp_points (chunk_name : string) : string :=
  "/tmp/building_test/" ++ chunk_name ++ "_all_points.txt".

Definition pipeline_file (chunk_name : string) : string :=
  "/tmp/building_test/" ++ chunk_name ++ "_extract_pipeline.json".

Definition output_file (chunk_name : string) : string :=
  "/home/prodair/Desktop/clustering/datasetclasified/new_data/new_data/"
  ++ chunk_name
  ++ "/compressed/filtred_by_classes/6_Buildings/polygons/6_Buildings_polygons.geojson".

(** What the outside world does during one run: whether the temporary
    directory can be written, what [pdal pipeline] does ([Raised] is
    [TimeoutExpired]), and what [np.loadtxt] makes of the CSV. *)
Record pdal_result : Type := { returncode : Z; wrote_csv : bool }.

Record world : Type := {
  tmp_writable : bool;
  pdal : outcome pdal_result;
  loadtxt : outcome (list point3)
}.

(** The last line the run prints. *)
Inductive message : Type :=
| error_caught | pdal_extraction_failed | failed_to_load_points
| too_few_points | no_valid_instances | success.

Record result : Type := {
  returned : nat;
  printed : message;
  files_after : files
}.

Section Run.

(** Steps 1 to 5 on the loaded points: the number of building instances
    found ([0] when a stage gives up, [Raised] when one raises). *)
Variable stages : list point3 -> outcome nat.

(** The tail of the run, from the loaded points on. *)
Definition finish (chunk_name : string) (fs : files) (points_3d : list point3)
  : result :=
  if (length points_3d <? 100)%nat then
    {| returned := 0; printed := too_few_points; files_after := fs |}
  else
    match stages points_3d with
    | Raised => {| returned := 0; printed := error_caught; files_after := fs |}
    | Returned O =>
        {| returned := 0; printed := no_valid_instances; files_after := fs |}
    | Returned n =>
        let fs := write fs (output_file chunk_name) in
        match os_remove fs (temp_points chunk_name) with
        | Raised =>
            {| returned := 0; printed := error_caught; files_after := fs |}
        | Returned fs1 =>
            match os_remove fs1 (pipeline_file chunk_name) with
            | Raised =>
                {| returned := 0; printed := error_caught;
                   files_after := fs1 |}
            | Returned fs2 =>
                {| returned := n; printed := success; files_after := fs2 |}
            end
        end
    end.

(** [extract_instance_buildings_enhanced(chunk_name)], as far as files
    are concerned. *)
Definition extract_instance_buildings_enhanced (w : world)
  (chunk_name : string) (fs : files) : result :=
  if negb (tmp_writable w) then
    {| returned := 0; printed := error_caught; files_after := fs |}
  else
    let fs := write fs (pipeline_file chunk_name) in
    match pdal w with
    | Raised => {| returned := 0; printed := error_caught; files_after := fs |}
    | Returned r =>
        let fs := if wrote_csv r then write fs (temp_points chunk_name)
                  else fs in
        if negb (returncode r =? 0)%Z then
          {| returned := 0; printed := pdal_extraction_failed;
             files_after := fs |}
        else
          match (if fs (temp_points chunk_name) then loadtxt w else Raised) with
          | Raised =>
              {| returned := 0; printed := failed_to_load_points;
                 files_after := fs |}
          | Returned points_3d => finish chunk_name fs points_3d
          end
    end.

End Run.

(** A world in which [pdal] exits with status 1 and writes nothing. *)
Definition pdal_fails : world :=
  {| tmp_writable := true;
     pdal := Returned {| returncode := 1; wrote_csv := false |};
     loadtxt := Raised |}.

Definition no_files : files := fun _ => false.

End Loader.

(** *** Point loading of the wire script
    ([python_wire_enhanced.py], l. 62-126) *)

Module WireLoader.

Import Py Stages Loader.
Local Open Scope string_scope.

Definition temp_points_file (chunk_name : string) : string :=
  "/tmp/wire_points_" ++ chunk_name ++ ".txt".

Definition temp_pipeline_file (chunk_name : string) : string :=
  "/tmp/wire_pipeline_" ++ chunk_name ++ ".json".

(** What the outside world does: whether [/tmp] can be written, what
    [pdal] does ([Raised]: it cannot be started), and the lines of the CSV
    it wrote, each either three floats or a line the parser skips. *)
Record world : Type := {
  tmp_writable : bool;
  pdal : outcome pdal_result;
  csv_lines : list (option point3)
}.

(** [if os.path.exists(f): os.remove(f)]. *)
Definition remove_if_exists (fs : files) (path : string) : files :=
  fun q => if String.eqb q path then false else fs q.

(** The lines that parse, in order. *)
Fixpoint parsed (lines : list (option point3)) : list point3 :=
  match lines with
  | [] => []
  | Some p :: rest => p :: parsed rest
  | None :: rest => parsed rest
  end.

(** The [try] block and the two checks after it: the points, or [None]
    for each [return 0], and the files left behind. *)
Definition load_points (w : world) (chunk_name : string) (fs : files)
  : option (list point3) * files :=
  if negb (tmp_writable w) then (None, fs)
  else
    let fs := write fs (temp_pipeline_file chunk_name) in
    match pdal w with
    | Raised => (None, fs)
    | Returned r =>
        let fs := if wrote_csv r then write fs (temp_points_file chunk_name)
                  else fs in
        if negb (returncode r =? 0)%Z then (None, fs)
        else
          let points_3d :=
            if fs (temp_points_file chunk_name) then parsed (csv_lines w)
            else [] in
          let fs := remove_if_exists
                      (remove_if_exists fs (temp_points_file chunk_name))
                      (temp_pipeline_file chunk_name) in
          match points_3d with
          | [] => (None, fs)
          | _ => (Some points_3d, fs)
          end
    end.

End WireLoader.

(* ===== end of the embedding ===== *)

(** ** Part II.  Properties *)

Module PyFacts.

Import Py.
Local Open Scope R_scope.

Lemma Rltb_true (a b : R) : Rltb a b = true <-> a < b.
Proof. unfold Rltb; destruct (Rlt_dec a b); split; intros; try easy; lra. Qed.

Lemma Rltb_false (a b : R) : Rltb a b = false <-> b <= a.
Proof. unfold Rltb; destruct (Rlt_dec a b); split; intros; try easy; lra. Qed.

Lemma Rleb_true (a b : R) : Rleb a b = true <-> a <= b.
Proof. unfold Rleb; destruct (Rle_dec a b); split; intros; try easy; lra. Qed.

Lemma Rleb_false (a b : R) : Rleb a b = false <-> b < a.
Proof. unfold Rleb; destruct (Rle_dec a b); split; intros; try easy; lra. Qed.

Lemma Reqb_true (a b : R) : Reqb a b = true <-> a = b.
Proof. unfold Reqb; destruct (Req_dec_T a b); split; intros; easy. Qed.

Lemma Reqb_false (a b : R) : Reqb a b = false <-> a <> b.
Proof. unfold Reqb; destruct (Req_dec_T a b); split; intros; easy. Qed.

(** The insertion sort behind [sorted]. *)
Section Sorting.

Context {A : Type} (leb : A -> A -> bool).
Hypothesis leb_total : forall x y, leb x y = false -> leb y x = true.

Lemma insert_perm (x : A) (l : list A) : Permutation (insert leb x l) (x :: l).
Proof.
  induction l as [|y t IH]; simpl; [reflexivity|].
  destruct (leb x y); [reflexivity|].
  rewrite IH. apply perm_swap.
Qed.

Lemma sorted_perm (l : list A) : Permutation (sorted leb l) l.
Proof.
  induction l as [|x t IH]; simpl; [reflexivity|].
  rewrite insert_perm. now constructor.
Qed.

Lemma insert_hdrel (a x : A) (l : list A) :
  leb a x = true -> HdRel (fun u v => leb u v = true) a l ->
  HdRel (fun u v => leb u v = true) a (insert leb x l).
Proof.
  intros Hax Hl. destruct l as [|y t]; simpl; [now constructor|].
  destruct (leb x y); constructor; auto. now inversion Hl.
Qed.

Lemma insert_Sorted (x : A) (l : list A) :
  Sorted (fun u v => leb u v = true) l ->
  Sorted (fun u v => leb u v = true) (insert leb x l).
Proof.
  induction 1 as [|y t Ht IH Hhd]; simpl; [repeat constructor|].
  destruct (leb x y) eqn:Hxy.
  - repeat constructor; auto.
  - constructor; [exact IH|]. apply insert_hdrel; auto.
Qed.

Lemma sorted_Sorted (l : list A) :
  Sorted (fun u v => leb u v = true) (sorted leb l).
Proof.
  induction l as [|x t IH]; simpl; [constructor|]. now apply insert_Sorted.
Qed.

End Sorting.

Lemma strongly_sorted_snoc {A} (P : A -> A -> Prop) (l : list A) (x : A) :
  StronglySorted P l -> Forall (fun y => P y x) l ->
  StronglySorted P (l ++ [x]).
Proof.
  induction 1 as [|a l Hl IH Ha]; intros Hx; simpl.
  - repeat constructor.
  - inversion Hx; subst. constructor; [now apply IH|].
    apply Forall_app; split; auto.
Qed.

Lemma pairs_snoc {A} (P : A -> A -> Prop) (l : list A) (x : A) :
  ForallOrdPairs P l -> Forall (fun y => P y x) l ->
  ForallOrdPairs P (l ++ [x]).
Proof.
  induction 1 as [|a l Ha Hl IH]; intros Hx; simpl.
  - repeat constructor.
  - inversion Hx; subst. constructor; [|now apply IH].
    apply Forall_app; split; auto.
Qed.

(** Deciding comparisons between closed real expressions. *)
Ltac rdecide :=
  repeat match goal with
         | |- context [Rltb ?a ?b] =>
             first [ rewrite (proj2 (Rltb_true a b)) by lra
                   | rewrite (proj2 (Rltb_false a b)) by lra ]
         | |- context [Rleb ?a ?b] =>
             first [ rewrite (proj2 (Rleb_true a b)) by lra
                   | rewrite (proj2 (Rleb_false a b)) by lra ]
         | |- context [Reqb ?a ?b] =>
             first [ rewrite (proj2 (Reqb_true a b)) by lra
                   | rewrite (proj2 (Reqb_false a b)) by lra ]
         end.

Ltac rminmax :=
  repeat match goal with
         | |- context [Rmin ?a ?b] =>
             first [ rewrite (Rmin_left a b) by lra
                   | rewrite (Rmin_right a b) by lra ]
         | |- context [Rmax ?a ?b] =>
             first [ rewrite (Rmax_left a b) by lra
                   | rewrite (Rmax_right a b) by lra ]
         end.

(** [sqrt e = c] for a closed radicand [e] and its closed root [c]. *)
Ltac sqrt_is c :=
  match goal with
  | |- context [sqrt ?e] =>
      replace (sqrt e) with c by (symmetry; apply sqrt_lem_1; lra)
  end.

(** Sorting a list of closed real expressions. *)
Ltac rsort :=
  unfold sorted; cbn [fold_right]; repeat (progress (cbn [insert]; rdecide)).

(** Unfolding everything but the operations on [R]. *)
Ltac rcompute :=
  cbv -[Rplus Rmult Rminus Ropp Rdiv Rinv Rabs IZR sqrt Rlt_dec Rle_dec
        Req_dec_T Rmax Rmin PI pow INR Rltb Rleb Reqb Zfloor].

End PyFacts.

Module GeometryFacts.

Import Py PyFacts Geometry.
Local Open Scope R_scope.

Lemma area_short (coords : polygon) :
  (length coords < 4)%nat -> calculate_polygon_area coords = 0.
Proof.
  intros H; unfold calculate_polygon_area.
  apply Nat.ltb_lt in H; now rewrite H.
Qed.

Lemma aspect_short (coords : polygon) :
  (length coords < 4)%nat -> calculate_aspect_ratio coords = 1.
Proof.
  intros H; unfold calculate_aspect_ratio.
  apply Nat.ltb_lt in H; now rewrite H.
Qed.

Lemma perimeter_short (coords : polygon) :
  (length coords < 2)%nat -> calculate_polygon_perimeter coords = 0.
Proof.
  intros H; unfold calculate_polygon_perimeter.
  destruct coords as [|p [|q t]]; simpl in *; try reflexivity; lia.
Qed.

Lemma compactness_degenerate (area perimeter : R) :
  perimeter <= 0 -> calculate_compactness area perimeter = 0.
Proof.
  intros H; unfold calculate_compactness.
  apply Rltb_false in H; now rewrite H.
Qed.

Lemma compactness_zero_area (perimeter : R) :
  calculate_compactness 0 perimeter = 0.
Proof.
  unfold calculate_compactness. destruct (Rltb 0 perimeter); [|reflexivity].
  unfold Rdiv; rewrite Rmult_0_r, Rmult_0_l; reflexivity.
Qed.

(** C3 (amended).  On a vertex list with fewer than four entries the area
    is 0, the aspect ratio is 1 (not 0), and the compactness computed from
    its area and perimeter is 0; the perimeter is 0 when there are fewer
    than two vertices.  Nothing is raised: the functions are total. *)
Theorem metrics_on_degenerate_input (coords : polygon) :
  (length coords < 4)%nat ->
  calculate_polygon_area coords = 0 /\
  calculate_aspect_ratio coords = 1 /\
  calculate_compactness (calculate_polygon_area coords)
    (calculate_polygon_perimeter coords) = 0 /\
  ((length coords < 2)%nat -> calculate_polygon_perimeter coords = 0).
Proof.
  intros H. rewrite (area_short coords H).
  repeat split.
  - now apply aspect_short.
  - apply compactness_zero_area.
  - apply perimeter_short.
Qed.

Lemma metrics_on_degenerate_input_witness :
  calculate_polygon_area [(1, 2); (3, 4)] = 0 /\
  calculate_aspect_ratio [(1, 2); (3, 4)] = 1 /\
  calculate_compactness (calculate_polygon_area [(1, 2); (3, 4)])
    (calculate_polygon_perimeter [(1, 2); (3, 4)]) = 0 /\
  ((length [(1, 2); (3, 4)] < 2)%nat ->
   calculate_polygon_perimeter [(1, 2); (3, 4)] = 0).
Proof.
  apply (metrics_on_degenerate_input [(1, 2); (3, 4)]). simpl; lia.
Defined.

(** C3 fails as stated: the aspect ratio of a vertex list with fewer than
    four entries is 1, and the perimeter of a two-vertex list is the length
    of its one edge. *)
Lemma aspect_ratio_of_short_list_is_not_zero :
  (length (@nil point) < 4)%nat /\
  calculate_aspect_ratio [] <> 0 /\
  (length [(0, 0); (3, 4)] < 3)%nat /\
  calculate_polygon_perimeter [(0, 0); (3, 4)] = 5.
Proof.
  split; [simpl; lia|]. split.
  - rewrite aspect_short by (simpl; lia). lra.
  - split; [simpl; lia|].
    rcompute. sqrt_is 5. lra.
Qed.

End GeometryFacts.

Module BuildingFixedFacts.

Import Py PyFacts Geometry Footprint BuildingFixed.
Local Open Scope R_scope.

Lemma bbox_defined (coords : polygon) :
  coords <> [] -> exists b, bbox coords = Returned b.
Proof.
  destruct coords as [|p t]; [easy|]; intros _.
  unfold bbox; simpl; eauto.
Qed.

Lemma overlap_scan_defined (new_coords : polygon) (existing : list polygon) d :
  new_coords <> [] -> Forall (fun e => e <> []) existing ->
  exists b, overlap_scan new_coords existing d = Returned b.
Proof.
  intros Hn; induction 1 as [|e rest He _ IH]; simpl; [eauto|].
  destruct (bbox_defined _ Hn) as [bn ->], (bbox_defined _ He) as [be ->].
  simpl. destruct (boxes_apart bn be); [exact IH|].
  destruct (Rltb _ _); [eauto | exact IH].
Qed.

Lemma no_overlap_clear (new_coords : polygon) (existing : list polygon) d :
  new_coords <> [] -> Forall (fun e => e <> []) existing ->
  has_overlap_with_existing new_coords existing d = false ->
  Forall (fun e => clear_of d e new_coords) existing.
Proof.
  intros Hn Hex; unfold has_overlap_with_existing.
  induction Hex as [|e rest He Hrest IH]; simpl; [constructor|].
  destruct (bbox_defined _ Hn) as [bn Hbn], (bbox_defined _ He) as [be Hbe].
  rewrite Hbn, Hbe; simpl.
  destruct (boxes_apart bn be) eqn:Hap.
  - intros H; constructor; [|now apply IH].
    exists be, bn; auto.
  - destruct (Rltb (center_distance bn be) d) eqn:Hd; [discriminate|].
    intros H; constructor; [|now apply IH].
    exists be, bn; repeat split; auto. right; now apply Rltb_false.
Qed.

Lemma overlap_found (new_coords : polygon) (existing : list polygon) d :
  has_overlap_with_existing new_coords existing d = true ->
  exists e bn be, In e existing /\ bbox new_coords = Returned bn /\
    bbox e = Returned be /\ boxes_apart bn be = false /\
    center_distance bn be < d.
Proof.
  unfold has_overlap_with_existing.
  induction existing as [|e rest IH]; simpl; [discriminate|].
  destruct (bbox new_coords) as [bn|] eqn:Hbn; simpl; [|discriminate].
  destruct (bbox e) as [be|] eqn:Hbe; simpl; [|discriminate].
  destruct (boxes_apart bn be) eqn:Hap.
  - intros H; destruct (IH H) as (e' & bn' & be' & Hin & H1 & H2 & H3 & H4).
    exists e', bn', be'; auto.
  - destruct (Rltb (center_distance bn be) d) eqn:Hd.
    + intros _; exists e, bn, be; repeat split; auto. now apply Rltb_true.
    + intros H; destruct (IH H) as (e' & bn' & be' & Hin & H1 & H2 & H3 & H4).
      exists e', bn', be'; auto.
Qed.

Lemma accepted_has_area (n : nat) dens pc polys coords :
  assess n dens pc polys = Accept coords ->
  pc = Some coords /\ 20 <= calculate_polygon_area coords /\
  has_overlap_with_existing coords polys 8 = false.
Proof.
  unfold assess.
  destruct (n <? 80)%nat; [discriminate|].
  destruct (Rltb dens 0.3); [discriminate|].
  destruct pc as [c|]; [|discriminate].
  destruct (Rltb (calculate_polygon_area c) 20) eqn:Ha; [discriminate|].
  destruct (Rltb 5000 _); [discriminate|].
  destruct (Rltb 12 _); [discriminate|].
  destruct (has_overlap_with_existing c polys 8) eqn:Ho; [discriminate|].
  intros [= <-]. apply Rltb_false in Ha. auto.
Qed.

Lemma area_pos_nonempty (coords : polygon) :
  20 <= calculate_polygon_area coords -> coords <> [].
Proof.
  intros H ->. rewrite GeometryFacts.area_short in H by (simpl; lia). lra.
Qed.

Lemma record_verdict_separated st n dens pc :
  separated (building_polygons st) ->
  separated (building_polygons
               (record_verdict st n dens
                  (assess n dens pc (building_polygons st)))).
Proof.
  intros [Hne Hp].
  destruct (assess n dens pc (building_polygons st)) as [why|coords] eqn:Hv;
    simpl; [now split|].
  apply accepted_has_area in Hv as (_ & Harea & Hov).
  pose proof (area_pos_nonempty _ Harea) as Hc.
  split.
  - apply Forall_app; split; auto.
  - apply pairs_snoc; auto. now apply no_overlap_clear.
Qed.

Lemma extract_polygons_separated ConvexHull recursion_limit clusters st :
  separated (building_polygons st) ->
  separated (building_polygons
               (fold_left (step ConvexHull recursion_limit) clusters st)).
Proof.
  revert st; induction clusters as [|c rest IH]; intros st Hst; simpl; auto.
  apply IH. unfold step. now apply record_verdict_separated.
Qed.

(** C1 (amended).  After the instance filter of the fixed building variant,
    every pair of accepted polygons is clear of each other: their
    axis-aligned bounding boxes are apart on some axis, or the distance
    between the centres of the boxes is at least 8 m.  A candidate is
    rejected for overlap only when an accepted polygon's box meets its own
    and the two centres are less than 8 m apart. *)
Theorem accepted_pairs_clear
  (ConvexHull : list point -> outcome hull) (recursion_limit : nat)
  (clusters : list (list point)) :
  ForallOrdPairs (clear_of 8)
    (building_polygons (extract_polygons ConvexHull recursion_limit clusters))
  /\
  (forall n dens coords polys,
      assess n dens (Some coords) polys = Reject overlap ->
      exists e bn be,
        In e polys /\ bbox coords = Returned bn /\ bbox e = Returned be /\
        boxes_apart bn be = false /\ center_distance bn be < 8).
Proof.
  split.
  - apply extract_polygons_separated. split; constructor.
  - intros n dens coords polys. unfold assess.
    destruct (n <? 80)%nat; [discriminate|].
    destruct (Rltb dens 0.3); [discriminate|].
    destruct (Rltb _ 20); [discriminate|].
    destruct (Rltb 5000 _); [discriminate|].
    destruct (Rltb 12 _); [discriminate|].
    destruct (has_overlap_with_existing coords polys 8) eqn:Ho; [|discriminate].
    intros _. now apply overlap_found.
Qed.

Lemma sq1_area : calculate_polygon_area sq1 = 25.
Proof. rcompute. rewrite Rabs_pos_eq; lra. Qed.

Lemma sq2_area : calculate_polygon_area sq2 = 25.
Proof. rcompute. rewrite Rabs_pos_eq; lra. Qed.

Lemma sq1_edges : edge_lengths sq1 = [5; 5; 5; 5].
Proof. rcompute. repeat (sqrt_is 5). reflexivity. Qed.

Lemma sq2_edges : edge_lengths sq2 = [5; 5; 5; 5].
Proof. rcompute. repeat (sqrt_is 5). reflexivity. Qed.

Lemma square_aspect (coords : polygon) :
  (4 <= length coords)%nat -> edge_lengths coords = [5; 5; 5; 5] ->
  calculate_aspect_ratio coords = 1.
Proof.
  intros Hl He. unfold calculate_aspect_ratio.
  apply Nat.ltb_ge in Hl; rewrite Hl, He.
  rsort. simpl. rdecide.
  unfold Rdiv; rewrite Rinv_r by lra. now rminmax.
Qed.

Lemma sq1_box : bbox sq1 = Returned (0, 5, 0, 5).
Proof. unfold bbox, sq1; simpl. now rminmax. Qed.

Lemma sq2_box : bbox sq2 = Returned (6, 11, 0, 5).
Proof. unfold bbox, sq2; simpl. now rminmax. Qed.

Lemma sq_centers : center_distance (6, 11, 0, 5) (0, 5, 0, 5) = 6.
Proof. unfold center_distance. apply sqrt_lem_1; lra. Qed.

Lemma sq1_accepted : assess 100 1 (Some sq1) [] = Accept sq1.
Proof.
  unfold assess. rewrite sq1_area, (square_aspect sq1);
    [|simpl; lia|apply sq1_edges].
  simpl. now rdecide.
Qed.

Lemma sq2_accepted : assess 100 1 (Some sq2) [sq1] = Accept sq2.
Proof.
  unfold assess. rewrite sq2_area, (square_aspect sq2);
    [|simpl; lia|apply sq2_edges].
  unfold has_overlap_with_existing; cbn [overlap_scan].
  rewrite sq1_box, sq2_box. cbn [bind]. rewrite sq_centers.
  unfold boxes_apart. rdecide. reflexivity.
Qed.

(** C1 fails as stated: two 5 m squares one metre apart pass every filter
    (100 points each, density 1), although the centres of their bounding
    boxes are 6 m from each other. *)
Lemma close_squares_both_accepted :
  let st1 := record_verdict initial 100 1
               (assess 100 1 (Some sq1) (building_polygons initial)) in
  let st2 := record_verdict st1 100 1
               (assess 100 1 (Some sq2) (building_polygons st1)) in
  building_polygons st2 = [sq1; sq2] /\
  bbox sq1 = Returned (0, 5, 0, 5) /\
  bbox sq2 = Returned (6, 11, 0, 5) /\
  center_distance (6, 11, 0, 5) (0, 5, 0, 5) < 8.
Proof.
  cbv zeta. cbn [initial building_polygons].
  rewrite sq1_accepted. cbn [record_verdict building_polygons app initial].
  rewrite sq2_accepted. cbn [record_verdict building_polygons app initial].
  repeat split; auto using sq1_box, sq2_box.
  rewrite sq_centers; lra.
Qed.

End BuildingFixedFacts.

Module MastFacts.

Import Py PyFacts Mast.
Local Open Scope R_scope.

Lemma by_point_count_desc_total (x y : mast) :
  by_point_count_desc x y = false -> by_point_count_desc y x = true.
Proof. unfold by_point_count_desc; intros H. apply Z.leb_gt in H. apply Z.leb_le. lia. Qed.

Lemma sorted_masts_descending (masts : list mast) :
  StronglySorted at_least_as_large (sorted by_point_count_desc masts).
Proof.
  apply Sorted_StronglySorted.
  - intros a b c; unfold at_least_as_large; lia.
  - pose proof (sorted_Sorted by_point_count_desc by_point_count_desc_total masts) as H.
    induction H as [|a l Hl IH Hhd]; constructor; auto.
    destruct Hhd as [|b l Hab]; constructor.
    unfold at_least_as_large. now apply Z.leb_le.
Qed.

Lemma is_duplicate_true (m : mast) (kept : list mast) (r : R) :
  is_duplicate m kept r = true ->
  exists k, In k kept /\ centroid_distance m k < r.
Proof.
  unfold is_duplicate; intros H. apply existsb_exists in H as (k & Hin & Hk).
  exists k; split; auto. now apply Rltb_true.
Qed.

Lemma is_duplicate_false (m : mast) (kept : list mast) (r : R) :
  is_duplicate m kept r = false ->
  Forall (fun k => far_apart r k m) kept.
Proof.
  unfold is_duplicate; intros H. apply Forall_forall; intros k Hin.
  unfold far_apart. apply Rltb_false.
  destruct (Rltb (centroid_distance m k) r) eqn:E; auto.
  assert (existsb (fun kept_mast => Rltb (centroid_distance m kept_mast) r) kept = true)
    by (apply existsb_exists; eauto).
  congruence.
Qed.

Lemma scan_extends (r : R) (l : list mast) :
  forall kept n,
  exists added,
    fst (fold_left (dedup_step r) l (kept, n)) = kept ++ added /\
    incl added l.
Proof.
  induction l as [|m t IH]; intros kept n; simpl.
  - exists []; split; [now rewrite app_nil_r | easy].
  - destruct (is_duplicate m kept r).
    + destruct (IH kept (S n)) as (added & -> & Hincl).
      exists added; split; auto. now apply incl_tl.
    + destruct (IH (kept ++ [m]) n) as (added & -> & Hincl).
      exists (m :: added); split; [now rewrite <- app_assoc|].
      apply incl_cons; [now left | now apply incl_tl].
Qed.

Lemma scan_count (r : R) (l : list mast) :
  forall kept n,
    (length (fst (fold_left (dedup_step r) l (kept, n)))
     + snd (fold_left (dedup_step r) l (kept, n))
     = length kept + n + length l)%nat.
Proof.
  induction l as [|m t IH]; intros kept n; simpl; [lia|].
  destruct (is_duplicate m kept r); rewrite IH; [lia|].
  rewrite length_app; simpl; lia.
Qed.

Lemma scan_step_ok (r : R) (kept : list mast) (m : mast) (t : list mast) :
  StronglySorted at_least_as_large (m :: t) ->
  scan_ok r kept (m :: t) ->
  scan_ok r (fst (dedup_step r (kept, 0%nat) m)) t.
Proof.
  intros Hs [Hk Ha Hd]. inversion Hs as [|? ? Ht Hm]; subst.
  assert (Hd' : Forall (fun k => Forall (fun x => at_least_as_large k x) t) kept).
  { eapply Forall_impl; [|exact Hd]. intros k Hkm. now inversion Hkm. }
  simpl. destruct (is_duplicate m kept r) eqn:E; simpl.
  - now constructor.
  - constructor.
    + apply strongly_sorted_snoc; auto.
      eapply Forall_impl; [|exact Hd]. intros k Hkm. now inversion Hkm.
    + apply pairs_snoc; auto. now apply is_duplicate_false.
    + apply Forall_app; split; auto.
Qed.

Lemma dedup_step_fst (r : R) (kept : list mast) (n n' : nat) (m : mast) :
  fst (dedup_step r (kept, n) m) = fst (dedup_step r (kept, n') m).
Proof. simpl; now destruct (is_duplicate m kept r). Qed.

Lemma scan_fst (r : R) (l : list mast) :
  forall kept n n',
    fst (fold_left (dedup_step r) l (kept, n))
    = fst (fold_left (dedup_step r) l (kept, n')).
Proof.
  induction l as [|m t IH]; intros kept n n'; simpl; auto.
  destruct (is_duplicate m kept r); apply IH.
Qed.

Lemma scan_ok_final (r : R) (l : list mast) :
  forall kept n,
    StronglySorted at_least_as_large l -> scan_ok r kept l ->
    scan_ok r (fst (fold_left (dedup_step r) l (kept, n))) [].
Proof.
  induction l as [|m t IH]; intros kept n Hs Hok; [exact Hok|].
  pose proof (scan_step_ok r kept m t Hs Hok) as Hstep.
  inversion Hs; subst.
  simpl in *. destruct (is_duplicate m kept r); simpl in Hstep; now apply IH.
Qed.

Lemma scan_cover (r : R) (l : list mast) :
  forall kept n,
    StronglySorted at_least_as_large l -> scan_ok r kept l ->
    forall m, In m l ->
      In m (fst (fold_left (dedup_step r) l (kept, n))) \/
      exists k, In k (fst (fold_left (dedup_step r) l (kept, n))) /\
                at_least_as_large k m /\ centroid_distance m k < r.
Proof.
  induction l as [|x t IH]; intros kept n Hs Hok m Hin; [easy|].
  pose proof (scan_step_ok r kept x t Hs Hok) as Hstep.
  pose proof (kept_dominate _ _ _ Hok) as Hd.
  inversion Hs; subst.
  simpl in *. destruct (is_duplicate x kept r) eqn:E; simpl in Hstep.
  - destruct Hin as [<-|Hin]; [|now apply IH].
    right. apply is_duplicate_true in E as (k & Hk & Hdist).
    destruct (scan_extends r t kept (S n)) as (added & -> & _).
    exists k; repeat split; auto.
    + apply in_or_app; now left.
    + rewrite Forall_forall in Hd. specialize (Hd k Hk). now inversion Hd.
  - destruct Hin as [<-|Hin]; [|now apply IH].
    left. destruct (scan_extends r t (kept ++ [x]) n) as (added & -> & _).
    apply in_or_app; left. apply in_or_app; right. now left.
Qed.

Lemma dedup_incl (masts : list mast) (r : R) :
  incl (fst (remove_duplicate_masts masts r)) masts.
Proof.
  unfold remove_duplicate_masts.
  destruct (length masts <=? 1)%nat; [apply incl_refl|]. cbv zeta.
  destruct (scan_extends r (sorted by_point_count_desc masts) [] 0%nat)
    as (added & -> & Hincl).
  simpl. intros x Hx. eapply Permutation_in; [apply sorted_perm|]. auto.
Qed.

(** C7 (amended).  The deduplication pass scans the candidates in
    descending order of point count and keeps a candidate exactly when no
    mast kept before it is closer than the proximity radius.  Hence the kept
    masts come from the input, are in descending order of point count, any
    two of them are at least the radius apart (a distance equal to the
    radius is kept), every input mast is kept or lies closer than the radius
    to a kept mast with at least as many points, and the count of removed
    masts is the difference of the lengths. *)
Theorem dedup_keeps_far_apart_subset (masts : list mast) (r : R) :
  let kept := fst (remove_duplicate_masts masts r) in
  let removed := snd (remove_duplicate_masts masts r) in
  incl kept masts /\
  StronglySorted at_least_as_large kept /\
  ForallOrdPairs (far_apart r) kept /\
  (forall m, In m masts ->
     In m kept \/
     exists k, In k kept /\ at_least_as_large k m /\ centroid_distance m k < r)
  /\ (length kept + removed = length masts)%nat.
Proof.
  unfold remove_duplicate_masts.
  destruct (length masts <=? 1)%nat eqn:Hlen; cbv zeta.
  - apply Nat.leb_le in Hlen. simpl.
    destruct masts as [|m [|m' t]]; simpl in Hlen; try lia;
      repeat split; auto using incl_refl; repeat constructor.
  - set (l := sorted by_point_count_desc masts).
    assert (Hperm : Permutation l masts) by apply sorted_perm.
    assert (Hs : StronglySorted at_least_as_large l)
      by apply sorted_masts_descending.
    assert (Hok : scan_ok r [] l) by (repeat constructor).
    pose proof (scan_ok_final r l [] 0%nat Hs Hok) as [Hk Ha _].
    repeat split; auto.
    + pose proof (dedup_incl masts r) as Hi.
      unfold remove_duplicate_masts in Hi. now rewrite Hlen in Hi.
    + intros m Hm. apply scan_cover; auto.
      eapply Permutation_in; [symmetry; exact Hperm | exact Hm].
    + rewrite scan_count. simpl. now rewrite (Permutation_length Hperm).
Qed.

(** C7 fails as stated: two masts exactly 1.5 m from each other are both
    kept, so a kept candidate need not be farther than the radius from the
    masts kept before it. *)
Lemma masts_at_radius_both_kept :
  remove_duplicate_masts [mast_a; mast_b] 1.5 = ([mast_a; mast_b], 0%nat) /\
  centroid_distance mast_b mast_a = 1.5 /\
  ~ (1.5 < centroid_distance mast_b mast_a).
Proof.
  assert (Hd : centroid_distance mast_b mast_a = 1.5).
  { unfold centroid_distance; simpl. apply sqrt_lem_1; lra. }
  repeat split; [|exact Hd|rewrite Hd; lra].
  unfold remove_duplicate_masts; simpl.
  unfold dedup_step, is_duplicate; simpl.
  rewrite Hd. now rdecide.
Qed.

Lemma score_weighted (m : mast) (b : bounds) :
  score m b = 0.5 * factor_point_count (factors m b)
              + 0.3 * factor_height (factors m b)
              + 0.2 * factor_density (factors m b).
Proof.
  unfold score, factors, calculate_mast_quality; cbn [fst snd details_quality_factors
    factor_point_count factor_height factor_density].
  unfold sum; cbn [fold_left]. lra.
Qed.

Lemma factors_in_unit_interval (m : mast) (b : bounds) :
  0 <= factor_point_count (factors m b) <= 1 /\
  0 <= factor_height (factors m b) <= 1 /\
  0 <= factor_density (factors m b) <= 1.
Proof.
  unfold factors, calculate_mast_quality; cbn [fst snd details_quality_factors
    factor_point_count factor_height factor_density].
  repeat split;
    repeat match goal with |- context [if ?c then _ else _] => destruct c end;
    lra.
Qed.

Lemma score_mark_clean (m : mast) (v : validation_details) (b : bounds) :
  score (mark_clean m v) b = score m b.
Proof. reflexivity. Qed.

Lemma filter_step_clean (b : bounds) (m : mast) clean stats :
  Forall (fun c => min_quality_score <= score c b) clean ->
  Forall (fun c => min_quality_score <= score c b)
         (fst (filter_step b (clean, stats) m)).
Proof.
  intros H. unfold filter_step.
  destruct (calculate_mast_quality m b) as [q v] eqn:E.
  destruct (point_count m <? min_points)%Z; [exact H|].
  destruct (max_points <? point_count m)%Z; [exact H|].
  destruct (Rltb q min_quality_score) eqn:Hq; [exact H|].
  simpl. apply Forall_app; split; auto. constructor; [|constructor].
  rewrite score_mark_clean. unfold score; rewrite E; simpl.
  now apply Rltb_false.
Qed.

Lemma filter_loop_clean (b : bounds) (l : list mast) :
  forall acc,
    Forall (fun c => min_quality_score <= score c b) (fst acc) ->
    Forall (fun c => min_quality_score <= score c b)
           (fst (fold_left (filter_step b) l acc)).
Proof.
  induction l as [|m t IH]; intros [clean stats] H; simpl; auto.
  apply IH. now apply filter_step_clean.
Qed.

Lemma score_in_bounds (m : mast) (b : bounds) :
  (min_points <= point_count m <= max_points)%Z -> 0.79 <= score m b.
Proof.
  intros [Hlo Hhi]. rewrite score_weighted.
  unfold factors, calculate_mast_quality; cbn [fst snd details_quality_factors
    factor_point_count factor_height factor_density].
  apply Z.leb_le in Hlo, Hhi. rewrite Hlo, Hhi; cbn [andb].
  repeat match goal with |- context [if ?c then _ else _] => destruct c end;
    lra.
Qed.

Lemma filter_step_poor (b : bounds) (m : mast) clean stats :
  poor_quality (snd (filter_step b (clean, stats) m)) = poor_quality stats.
Proof.
  unfold filter_step.
  destruct (calculate_mast_quality m b) as [q v] eqn:E.
  destruct (point_count m <? min_points)%Z eqn:Hlo; [reflexivity|].
  destruct (max_points <? point_count m)%Z eqn:Hhi; [reflexivity|].
  apply Z.ltb_ge in Hlo, Hhi.
  pose proof (score_in_bounds m b (conj Hlo Hhi)) as Hs.
  unfold score in Hs; rewrite E in Hs; simpl in Hs.
  unfold min_quality_score.
  rewrite (proj2 (Rltb_false q 0.6)) by lra. reflexivity.
Qed.

Lemma filter_loop_poor (b : bounds) (l : list mast) :
  forall acc,
    poor_quality (snd (fold_left (filter_step b) l acc))
    = poor_quality (snd acc).
Proof.
  induction l as [|m t IH]; intros [clean stats]; simpl; auto.
  rewrite IH. apply filter_step_poor.
Qed.

(** C8.  The quality score is the weighted sum of the three validity
    factors, each between 0 and 1, and [process_mast_chunk] keeps no mast
    whose score is below the minimum of 0.6. *)
Theorem quality_score_weighted_and_enforced
  (original_masts : list mast) (b : bounds) (m : mast) :
  score m b = 0.5 * factor_point_count (factors m b)
              + 0.3 * factor_height (factors m b)
              + 0.2 * factor_density (factors m b) /\
  (0 <= factor_point_count (factors m b) <= 1 /\
   0 <= factor_height (factors m b) <= 1 /\
   0 <= factor_density (factors m b) <= 1) /\
  Forall (fun c => min_quality_score <= score c b)
         (centroids (process_mast_chunk original_masts b)) /\
  (score m b < min_quality_score ->
   ~ In (mark_clean m (snd (calculate_mast_quality m b)))
        (centroids (process_mast_chunk original_masts b))).
Proof.
  assert (Hall : Forall (fun c => min_quality_score <= score c b)
                   (centroids (process_mast_chunk original_masts b))).
  { unfold process_mast_chunk.
    destruct original_masts as [|m0 t]; [constructor|].
    set (l := m0 :: t).
    pose proof (filter_loop_clean b l ([], no_stats) (Forall_nil _)) as H.
    destruct (fold_left (filter_step b) l ([], no_stats)) as [clean stats].
    pose proof (dedup_incl clean 1.5) as Hi.
    destruct (remove_duplicate_masts clean 1.5) as [kept dup]; simpl in *.
    rewrite Forall_forall in *. auto. }
  split; [apply score_weighted|]. split; [apply factors_in_unit_interval|].
  split; [exact Hall|].
  intros Hlow Hin. rewrite Forall_forall in Hall.
  apply Hall in Hin. rewrite score_mark_clean in Hin. lra.
Qed.

Lemma quality_score_weighted_and_enforced_witness :
  ~ In (mark_clean mast_small
          (snd (calculate_mast_quality mast_small {| min_z := 0 |})))
       (centroids (process_mast_chunk [mast_small; mast_a] {| min_z := 0 |})).
Proof.
  apply (quality_score_weighted_and_enforced
           [mast_small; mast_a] {| min_z := 0 |} mast_small).
  rewrite score_weighted.
  unfold factors, calculate_mast_quality; cbn [fst snd details_quality_factors
    factor_point_count factor_height factor_density].
  replace ((min_points <=? point_count mast_small)%Z) with false by reflexivity.
  replace ((point_count mast_small <? min_points)%Z) with true by reflexivity.
  cbn [andb]. unfold min_quality_score.
  repeat match goal with |- context [if ?c then _ else _] => destruct c end;
    lra.
Defined.

(** C10.  A mast whose point count is within [min_points] and [max_points]
    scores at least 0.79, which is not below the 0.6 threshold; so no run of
    [process_mast_chunk] ever counts a mast as [poor_quality]. *)
Theorem in_bounds_score_at_least_079
  (m : mast) (b : bounds) (original_masts : list mast) :
  (min_points <= point_count m <= max_points)%Z ->
  0.79 <= score m b /\
  Rltb (score m b) min_quality_score = false /\
  match statistics (process_mast_chunk original_masts b) with
  | Some stats => poor_quality stats = 0%nat
  | None => True
  end.
Proof.
  intros H. pose proof (score_in_bounds m b H) as Hs.
  split; [exact Hs|]. split.
  - apply Rltb_false. unfold min_quality_score. lra.
  - unfold process_mast_chunk.
    destruct original_masts as [|m0 t]; [exact I|].
    set (l := m0 :: t).
    pose proof (filter_loop_poor b l ([], no_stats)) as Hp.
    destruct (fold_left (filter_step b) l ([], no_stats)) as [clean stats].
    destruct (remove_duplicate_masts clean 1.5) as [kept dup]; simpl in *.
    exact Hp.
Qed.

Lemma in_bounds_score_at_least_079_witness :
  0.79 <= score mast_a {| min_z := 0 |} /\
  Rltb (score mast_a {| min_z := 0 |}) min_quality_score = false /\
  match statistics (process_mast_chunk [mast_a; mast_b] {| min_z := 0 |}) with
  | Some stats => poor_quality stats = 0%nat
  | None => True
  end.
Proof.
  apply (in_bounds_score_at_least_079 mast_a {| min_z := 0 |} [mast_a; mast_b]).
  unfold min_points, max_points; simpl; lia.
Defined.

End MastFacts.

Module FootprintFacts.

Import Py PyFacts Geometry Footprint.
Local Open Scope R_scope.

Lemma on_a_line_filter (f : point -> bool) (points : list point) :
  on_a_line points -> on_a_line (filter f points).
Proof.
  intros (a & b & c & Hab & H). exists a, b, c; split; auto.
  rewrite Forall_forall in *. intros p Hp. apply filter_In in Hp as [Hp _]. auto.
Qed.

Lemma row4_on_a_line : on_a_line row4.
Proof.
  exists 0, 1, 0. split; [right; lra|].
  unfold row4; repeat constructor; simpl; lra.
Qed.

Lemma point_eqb_eq (p q : point) : point_eqb p q = true <-> p = q.
Proof.
  unfold point_eqb. rewrite andb_true_iff, !Reqb_true.
  destruct p, q; simpl; split; [intros [-> ->]; reflexivity | now intros [= -> ->]].
Qed.

Lemma last_indep (l : list point) (d d' : point) :
  l <> [] -> List.last l d = List.last l d'.
Proof.
  induction l as [|p [|q t] IH]; intros H; try easy.
  change (List.last (q :: t) d = List.last (q :: t) d'). now apply IH.
Qed.

Lemma close_if_open_closed (l : polygon) :
  l <> [] -> is_closed (close_if_open l).
Proof.
  destruct l as [|p t]; [easy|]; intros _. unfold close_if_open.
  destruct (point_eqb p (List.last (p :: t) (0, 0))) eqn:E; cbn [negb].
  - apply point_eqb_eq in E. unfold is_closed.
    rewrite (last_indep (p :: t) p (0, 0)) by easy. now symmetry.
  - unfold is_closed. change ((p :: t) ++ [p]) with (p :: (t ++ [p])).
    change (List.last ((p :: t) ++ [p]) p = p). apply last_last.
Qed.

Lemma close_if_open_length (l : polygon) :
  (length l <= length (close_if_open l))%nat.
Proof.
  destruct l as [|p t]; [reflexivity|]. unfold close_if_open.
  destruct (negb _); [rewrite length_app; simpl; lia | lia].
Qed.

Lemma close_ring_closed (l : polygon) : l <> [] -> is_closed (close_ring l).
Proof.
  destruct l as [|p t]; [easy|]; intros _. unfold close_ring, is_closed.
  change (List.last ((p :: t) ++ [p]) p = p). apply last_last.
Qed.

Lemma last_in (l : list point) (d : point) : l <> [] -> In (List.last l d) l.
Proof.
  induction l as [|p [|q t] IH]; intros H; try easy; [now left|].
  right. change (In (List.last (q :: t) d) (q :: t)). now apply IH.
Qed.

Lemma open_ring_closes (l : polygon) :
  (3 <= length l)%nat -> NoDup l ->
  (4 <= length (close_if_open l))%nat /\ is_closed (close_if_open l).
Proof.
  intros Hlen Hnd. split; [|apply close_if_open_closed; now destruct l].
  destruct l as [|p [|q t]]; simpl in Hlen; try lia.
  unfold close_if_open.
  destruct (point_eqb p (List.last (p :: q :: t) (0, 0))) eqn:E.
  - apply point_eqb_eq in E. inversion Hnd as [|? ? Hnot _]; subst.
    exfalso. apply Hnot. rewrite E at 1.
    change (In (List.last (q :: t) (0, 0)) (q :: t)). now apply last_in.
  - cbn [negb]. rewrite length_app. simpl in *. lia.
Qed.

Section Rings.

Variable ConvexHull : list point -> outcome hull.
Variable recursion_limit : nat.
Variable alpha : R.
Variable max_neighbors : nat.

Lemma concave_hull_ring (points : list point) (hull_coords : polygon) :
  create_concave_hull ConvexHull alpha max_neighbors points = Some hull_coords ->
  (4 <= length hull_coords)%nat -> is_closed hull_coords.
Proof.
  unfold create_concave_hull.
  destruct (length points <? 4)%nat; [discriminate|]. cbv zeta.
  destruct (length _ <? 4)%nat; [discriminate|].
  destruct (bind _ _) as [hc|]; [|discriminate].
  intros [= <-] Hlen. apply close_ring_closed. intros ->. simpl in Hlen. lia.
Qed.

Lemma simplify_polygon_ring (coords : polygon) (tolerance : R) :
  is_closed coords ->
  (4 <= length (simplify_polygon recursion_limit coords tolerance))%nat ->
  is_closed (simplify_polygon recursion_limit coords tolerance).
Proof.
  intros Hc. unfold simplify_polygon.
  destruct (length coords <? 4)%nat; [auto|].
  destruct (dp_simplify recursion_limit coords tolerance) as [s|]; [|auto].
  intros Hlen. apply close_if_open_closed. intros ->. simpl in Hlen. lia.
Qed.

Lemma method_concave_ring (points : list point) (simplified : polygon) :
  method_concave ConvexHull recursion_limit alpha max_neighbors points
  = Returned (Some simplified) ->
  (4 <= length simplified)%nat /\ is_closed simplified.
Proof.
  unfold method_concave.
  destruct (create_concave_hull ConvexHull alpha max_neighbors points)
    as [hc|] eqn:E; [|discriminate].
  destruct (4 <=? length hc)%nat eqn:Hlen; [|discriminate].
  destruct (4 <=? length (simplify_polygon recursion_limit hc 0.5))%nat eqn:Hs;
    [|discriminate].
  intros [= <-]. apply Nat.leb_le in Hlen, Hs. split; [exact Hs|].
  apply simplify_polygon_ring; auto. eapply concave_hull_ring; eauto.
Qed.

Lemma method_convex_ring (points : list point) (hull_coords : polygon) :
  hull_ok ConvexHull ->
  method_convex ConvexHull points = Returned hull_coords ->
  (4 <= length hull_coords)%nat /\ is_closed hull_coords.
Proof.
  intros Hok. unfold method_convex.
  destruct (ConvexHull points) as [h|] eqn:Eh; [|discriminate]. cbn [bind].
  destruct (take points (vertices h)) as [hc|] eqn:Et; [|discriminate].
  cbn [bind]. intros [= <-].
  destruct (Hok points h hc Eh Et) as [Hlen Hnd].
  now apply open_ring_closes.
Qed.

Lemma method_oriented_after_convex (points : list point) :
  method_convex ConvexHull points = Raised ->
  create_oriented_bbox_with_cuts ConvexHull points = None.
Proof.
  unfold method_convex, create_oriented_bbox_with_cuts.
  destruct (ConvexHull points) as [h|]; [|reflexivity]. cbn [bind].
  destruct (take points (vertices h)) as [hc|]; [discriminate | reflexivity].
Qed.

End Rings.

Section FlatInput.

Variable ConvexHull : list point -> outcome hull.
Variable recursion_limit : nat.
Variable alpha : R.
Variable max_neighbors : nat.

Hypothesis Qhull_flat :
  forall points, on_a_line points -> ConvexHull points = Raised.

Lemma concave_hull_flat (points : list point) :
  on_a_line points ->
  create_concave_hull ConvexHull alpha max_neighbors points = None.
Proof.
  intros H. unfold create_concave_hull.
  destruct (length points <? 4)%nat; [reflexivity|]. cbv zeta.
  match goal with |- context [filter ?f points] =>
    rewrite (Qhull_flat (filter f points)) by (now apply on_a_line_filter)
  end.
  now destruct (length _ <? 4)%nat.
Qed.

Lemma footprint_flat (points : list point) :
  on_a_line points ->
  create_footprint_building ConvexHull recursion_limit alpha max_neighbors
    points = None.
Proof.
  intros H. unfold create_footprint_building.
  destruct (length points <? 4)%nat; [reflexivity|].
  unfold method_concave. rewrite (concave_hull_flat points H).
  unfold method_convex, method_oriented, create_oriented_bbox_with_cuts.
  rewrite (Qhull_flat points H). reflexivity.
Qed.

End FlatInput.

(** C2 (the code departs from it).  When Qhull raises on collinear input,
    the footprint builder of [python_instance_enhanced.py] returns [None]
    for the four-point cluster [row4]: the convex hull fails in methods 1
    and 2, method 3 returns the [None] of its helper, and the bounding box
    of method 4 is never reached. *)
Theorem collinear_cluster_gets_no_footprint
  (ConvexHull : list point -> outcome hull) (recursion_limit : nat) :
  (forall points, on_a_line points -> ConvexHull points = Raised) ->
  (4 <= length row4)%nat /\
  create_footprint_building ConvexHull recursion_limit 3.0 8 row4 = None /\
  method_bbox row4 = Returned [(0, 0); (3, 0); (3, 0); (0, 0); (0, 0)].
Proof.
  intros Hq. split; [simpl; lia|]. split.
  - apply footprint_flat; [exact Hq | apply row4_on_a_line].
  - unfold method_bbox, row4; simpl. now rminmax.
Qed.

Lemma collinear_cluster_gets_no_footprint_witness :
  (4 <= length row4)%nat /\
  create_footprint_building (fun _ => Raised) 1000 3.0 8 row4 = None /\
  method_bbox row4 = Returned [(0, 0); (3, 0); (3, 0); (0, 0); (0, 0)].
Proof.
  apply (collinear_cluster_gets_no_footprint (fun _ => Raised) 1000).
  reflexivity.
Defined.

(** X1.  The closure invariant of the footprints that are returned: with a
    hull that has at least three distinct vertices, every polygon
    [create_footprint_building] returns has at least four vertices and its
    first vertex is its last; and [None] comes back only for fewer than four
    points or when the convex hull of the cluster cannot be built. *)
Theorem returned_footprint_is_closed_ring
  (ConvexHull : list point -> outcome hull) (recursion_limit : nat)
  (alpha : R) (max_neighbors : nat) (points : list point) :
  hull_ok ConvexHull ->
  match create_footprint_building ConvexHull recursion_limit alpha
          max_neighbors points with
  | Some polygon_coords =>
      (4 <= length polygon_coords)%nat /\ is_closed polygon_coords
  | None =>
      (length points < 4)%nat \/ method_convex ConvexHull points = Raised
  end.
Proof.
  intros Hok. unfold create_footprint_building.
  destruct (length points <? 4)%nat eqn:Hlen;
    [left; now apply Nat.ltb_lt|].
  destruct (method_concave ConvexHull recursion_limit alpha max_neighbors points)
    as [[s|]|] eqn:E1.
  - eapply method_concave_ring; eauto.
  - destruct (method_convex ConvexHull points) as [hc|] eqn:E2.
    + eapply method_convex_ring; eauto.
    + unfold method_oriented.
      rewrite (method_oriented_after_convex ConvexHull points E2). now right.
  - destruct (method_convex ConvexHull points) as [hc|] eqn:E2.
    + eapply method_convex_ring; eauto.
    + unfold method_oriented.
      rewrite (method_oriented_after_convex ConvexHull points E2). now right.
Qed.

(** The hull oracle [wedge_hull] and the cluster it knows. *)

Lemma points_eqb_eq (a b : list point) : points_eqb a b = true -> a = b.
Proof.
  revert b; induction a as [|p a IH]; intros [|q b]; simpl; try easy.
  intros H. apply andb_true_iff in H as [Hp Hab].
  apply point_eqb_eq in Hp. subst q. f_equal. now apply IH.
Qed.

Lemma wedge_hull_ok : hull_ok wedge_hull.
Proof.
  intros points h hc. unfold wedge_hull.
  destruct (points_eqb points wedge) eqn:E; [|discriminate].
  apply points_eqb_eq in E. subst points. intros [= <-]. simpl.
  intros [= <-]. split; [simpl; lia|].
  repeat constructor; simpl; intuition; match goal with
    | H : (_, _) = (_, _) |- _ => injection H; intros; lra end.
Qed.

Lemma wedge_hull_wedge :
  wedge_hull wedge = Returned {| vertices := [0; 1; 2]%nat; volume := 6 |}.
Proof.
  unfold wedge_hull, wedge; cbn [points_eqb]. unfold point_eqb; cbn [fst snd].
  rdecide. reflexivity.
Qed.

Lemma small_cluster_all_boundary (points : list point) (alpha : R) :
  (length points <= 8)%nat ->
  filter (fun p => (length (query_ball_point points p alpha) <=? 8)%nat) points
  = points.
Proof.
  intros Hlen.
  assert (H : forall p, (length (query_ball_point points p alpha) <=? 8)%nat = true).
  { intros p. apply Nat.leb_le. unfold query_ball_point.
    etransitivity; [apply filter_length_le|]. now rewrite length_seq. }
  induction points as [|q t IH]; simpl; [reflexivity|].
  rewrite H. f_equal.
  transitivity (filter (fun _ => true) t).
  - apply filter_ext. intros p. apply H.
  - clear. induction t as [|x t IH]; simpl; [reflexivity | now rewrite IH].
Qed.

Lemma wedge_concave_hull :
  create_concave_hull wedge_hull 3.0 8 wedge
  = Some [(0, 0); (4, 0); (4, 3); (0, 0)].
Proof.
  unfold create_concave_hull. cbv zeta.
  rewrite small_cluster_all_boundary by (simpl; lia).
  rewrite wedge_hull_wedge. reflexivity.
Qed.

Lemma dp_simplify_step (inner : nat) (points : list point) (epsilon : R) :
  dp_simplify (S (S inner)) points epsilon
  = if (length points <=? 2)%nat then Returned points
    else
      let '(max_dist, index) :=
        farthest (point_to_line_distance_within inner) points in
      if Rltb epsilon max_dist then
        left <- dp_simplify (S inner) (firstn (index + 1) points) epsilon ;;
        right <- dp_simplify (S inner) (skipn index points) epsilon ;;
        Returned (removelast left ++ right)
      else Returned [nth 0 points (0, 0); List.last points (0, 0)].
Proof. reflexivity. Qed.

Lemma within_S (inner : nat) :
  point_to_line_distance_within (S inner) = point_to_line_distance.
Proof. reflexivity. Qed.

Lemma dp_simplify_short (calls : nat) (points : list point) (epsilon : R) :
  (length points <= 2)%nat ->
  dp_simplify (S calls) points epsilon = Returned points.
Proof.
  intros H. apply Nat.leb_le in H. cbn [dp_simplify]. now rewrite H.
Qed.

Lemma farthest_wedge_ring :
  farthest point_to_line_distance [(0, 0); (4, 0); (4, 3); (0, 0)]
  = (5, 2%nat).
Proof.
  unfold farthest, point_to_line_distance.
  cbn [length Nat.sub seq fold_left nth List.last fst snd].
  replace (sqrt ((0 - 0) ^ 2 + (0 - 0) ^ 2)) with 0
    by (symmetry; apply sqrt_lem_1; lra).
  replace (sqrt ((4 - 0) ^ 2 + (0 - 0) ^ 2)) with 4
    by (symmetry; apply sqrt_lem_1; lra).
  replace (sqrt ((4 - 0) ^ 2 + (3 - 0) ^ 2)) with 5
    by (symmetry; apply sqrt_lem_1; lra).
  rdecide. cbn [fst]. rdecide. reflexivity.
Qed.

Lemma farthest_wedge_left :
  farthest point_to_line_distance [(0, 0); (4, 0); (4, 3)] = (12 / 5, 1%nat).
Proof.
  unfold farthest, point_to_line_distance.
  cbn [length Nat.sub seq fold_left nth List.last fst snd].
  replace (sqrt ((3 - 0) ^ 2 + (4 - 0) ^ 2)) with 5
    by (symmetry; apply sqrt_lem_1; lra).
  replace (Rabs ((3 - 0) * 4 - (4 - 0) * 0 + 4 * 0 - 3 * 0)) with 12
    by (rewrite Rabs_pos_eq; lra).
  rdecide. cbn [fst]. rdecide. reflexivity.
Qed.

Lemma dp_simplify_wedge (depth : nat) :
  dp_simplify (S (S (S (S depth)))) [(0, 0); (4, 0); (4, 3); (0, 0)] 0.5
  = Returned [(0, 0); (4, 0); (4, 3); (0, 0)].
Proof.
  rewrite dp_simplify_step. cbn [length Nat.leb].
  rewrite within_S, farthest_wedge_ring. rdecide.
  cbn [Nat.add firstn skipn].
  rewrite (dp_simplify_step (S depth) [(0, 0); (4, 0); (4, 3)]).
  cbn [length Nat.leb]. rewrite within_S, farthest_wedge_left. rdecide.
  cbn [Nat.add firstn skipn].
  rewrite !dp_simplify_short by (simpl; lia).
  cbn [bind removelast app]. reflexivity.
Qed.

(** On the wedge the first method succeeds: the footprint is the closed
    triangle of its hull. *)
Lemma wedge_footprint :
  create_footprint_building wedge_hull 1000 3.0 8 wedge
  = Some [(0, 0); (4, 0); (4, 3); (0, 0)].
Proof.
  unfold create_footprint_building, method_concave.
  rewrite wedge_concave_hull. cbn [length Nat.ltb Nat.leb wedge].
  unfold simplify_polygon. cbn [length Nat.ltb Nat.leb].
  change 1000%nat with (S (S (S (S 996)))). rewrite dp_simplify_wedge.
  unfold close_if_open, point_eqb. cbn [List.last fst snd]. rdecide.
  reflexivity.
Qed.

Lemma returned_footprint_is_closed_ring_witness :
  match create_footprint_building wedge_hull 1000 3.0 8 wedge with
  | Some polygon_coords =>
      (4 <= length polygon_coords)%nat /\ is_closed polygon_coords
  | None => (length wedge < 4)%nat \/ method_convex wedge_hull wedge = Raised
  end.
Proof.
  apply (returned_footprint_is_closed_ring wedge_hull 1000 3.0 8 wedge).
  exact wedge_hull_ok.
Defined.

End FootprintFacts.

Module LoaderFacts.

Import Py Loader.
Local Open Scope string_scope.

Lemma append_cancel (a x y : string) : a ++ x = a ++ y -> x = y.
Proof. induction a as [|c a IH]; simpl; intros H; [exact H|]. injection H; auto. Qed.

Lemma temp_files_differ (chunk_name : string) :
  String.eqb (temp_points chunk_name) (pipeline_file chunk_name) = false.
Proof.
  apply String.eqb_neq. unfold temp_points, pipeline_file. intros H.
  apply append_cancel, append_cancel in H. discriminate.
Qed.

Lemma pipeline_not_temp (chunk_name : string) :
  String.eqb (pipeline_file chunk_name) (temp_points chunk_name) = false.
Proof. rewrite String.eqb_sym. apply temp_files_differ. Qed.

Lemma pipeline_not_output (chunk_name : string) :
  String.eqb (pipeline_file chunk_name) (output_file chunk_name) = false.
Proof. apply String.eqb_neq. unfold pipeline_file, output_file. simpl. discriminate. Qed.

Lemma write_same (fs : files) (path : string) : write fs path path = true.
Proof. unfold write. now rewrite String.eqb_refl. Qed.

Lemma write_keeps (fs : files) (path q : string) :
  fs q = true -> write fs path q = true.
Proof. unfold write. intros ->. now destruct (String.eqb q path). Qed.

Section Run.

Variable stages : list Stages.point3 -> outcome nat.

Lemma finish_leaves_pipeline_file chunk_name fs points_3d :
  fs (pipeline_file chunk_name) = true ->
  printed (finish stages chunk_name fs points_3d) <> success ->
  files_after (finish stages chunk_name fs points_3d)
    (pipeline_file chunk_name) = true.
Proof.
  intros Hp. unfold finish.
  destruct (length points_3d <? 100)%nat; [auto|].
  destruct (stages points_3d) as [[|n]|]; auto.
  cbv zeta.
  destruct (os_remove (write fs (output_file chunk_name))
              (temp_points chunk_name)) as [fs1|] eqn:E1;
    [|intros _; now apply write_keeps].
  assert (H1 : fs1 (pipeline_file chunk_name) = true).
  { unfold os_remove in E1.
    destruct (write fs (output_file chunk_name) (temp_points chunk_name));
      [|discriminate].
    injection E1 as <-. rewrite pipeline_not_temp. now apply write_keeps. }
  unfold os_remove. rewrite H1. cbn [printed]. congruence.
Qed.

Lemma finish_success_cleans chunk_name fs points_3d :
  printed (finish stages chunk_name fs points_3d) = success ->
  files_after (finish stages chunk_name fs points_3d)
    (temp_points chunk_name) = false /\
  files_after (finish stages chunk_name fs points_3d)
    (pipeline_file chunk_name) = false.
Proof.
  unfold finish.
  destruct (length points_3d <? 100)%nat; [discriminate|].
  destruct (stages points_3d) as [[|n]|]; try discriminate.
  cbv zeta.
  destruct (os_remove (write fs (output_file chunk_name))
              (temp_points chunk_name)) as [fs1|] eqn:E1; [|discriminate].
  destruct (os_remove fs1 (pipeline_file chunk_name)) as [fs2|] eqn:E2;
    [|discriminate].
  cbn [printed files_after]. intros _.
  unfold os_remove in E1, E2.
  destruct (write fs (output_file chunk_name) (temp_points chunk_name));
    [|discriminate].
  destruct (fs1 (pipeline_file chunk_name)); [|discriminate].
  injection E2 as <-. injection E1 as <-.
  rewrite temp_files_differ, !String.eqb_refl. auto.
Qed.

End Run.

(** C9 (the code departs from it).  Whenever the building script ends on
    any path but the successful one after having written the pipeline JSON,
    that file is still there when the run returns; only the successful path
    removes the two temporary files. *)
Theorem failed_run_leaves_pipeline_file
  (stages : list Stages.point3 -> outcome nat) (w : world)
  (chunk_name : string) (fs : files) :
  tmp_writable w = true ->
  printed (extract_instance_buildings_enhanced stages w chunk_name fs)
    <> success ->
  files_after (extract_instance_buildings_enhanced stages w chunk_name fs)
    (pipeline_file chunk_name) = true.
Proof.
  intros Hw. unfold extract_instance_buildings_enhanced. rewrite Hw.
  cbn [negb]. cbv zeta.
  destruct (pdal w) as [r|]; [|intros _; apply write_same].
  assert (Hp : (if wrote_csv r
                then write (write fs (pipeline_file chunk_name))
                       (temp_points chunk_name)
                else write fs (pipeline_file chunk_name))
                 (pipeline_file chunk_name) = true).
  { destruct (wrote_csv r); [apply write_keeps|]; apply write_same. }
  destruct (negb (returncode r =? 0)%Z); [intros _; exact Hp|].
  match goal with |- context [if ?c then loadtxt w else Raised] =>
    destruct c end; [|intros _; exact Hp].
  destruct (loadtxt w) as [points_3d|]; [|intros _; exact Hp].
  now apply finish_leaves_pipeline_file.
Qed.

Lemma failed_run_leaves_pipeline_file_witness :
  files_after
    (extract_instance_buildings_enhanced (fun _ => Returned 0%nat) pdal_fails
       "chunk_1" no_files)
    (pipeline_file "chunk_1") = true.
Proof.
  apply (failed_run_leaves_pipeline_file
           (fun _ => Returned 0%nat) pdal_fails "chunk_1" no_files).
  - reflexivity.
  - discriminate.
Defined.

Lemma successful_run_removes_temp_files
  (stages : list Stages.point3 -> outcome nat) (w : world)
  (chunk_name : string) (fs : files) :
  printed (extract_instance_buildings_enhanced stages w chunk_name fs)
    = success ->
  files_after (extract_instance_buildings_enhanced stages w chunk_name fs)
    (temp_points chunk_name) = false /\
  files_after (extract_instance_buildings_enhanced stages w chunk_name fs)
    (pipeline_file chunk_name) = false.
Proof.
  unfold extract_instance_buildings_enhanced.
  destruct (negb (tmp_writable w)); [discriminate|]. cbv zeta.
  destruct (pdal w) as [r|]; [|discriminate].
  destruct (negb (returncode r =? 0)%Z); [discriminate|].
  match goal with |- context [if ?c then loadtxt w else Raised] =>
    destruct c end; [|discriminate].
  destruct (loadtxt w) as [points_3d|]; [|discriminate].
  apply finish_success_cleans.
Qed.

End LoaderFacts.

Module StagesFacts.

Import Py PyFacts Geometry Stages.
Local Open Scope R_scope.

(** **** Masks *)

Lemma select_map {A} (f : A -> bool) (l : list A) :
  select (map f l) l = filter f l.
Proof.
  induction l as [|x t IH]; simpl; [reflexivity|].
  rewrite IH. reflexivity.
Qed.

Lemma select_map_map {A B} (g : A -> B) (f : B -> bool) (l : list A) :
  select (map f (map g l)) l = filter (fun x => f (g x)) l.
Proof. rewrite map_map. apply (select_map (fun x => f (g x))). Qed.

Lemma select_all_false {A} (mask : list bool) (a : list A) :
  Forall (fun b => b = false) mask -> select mask a = [].
Proof.
  intros H. revert a. induction H as [|b t Hb _ IH]; intros a; [reflexivity|].
  destruct a as [|x a]; [reflexivity|]. subst b. simpl. apply IH.
Qed.

(** **** The ground/height filter *)

Lemma np_percentile_defined (a : list R) (q : R) :
  a <> [] -> 0 <= q <= 100 -> exists t, np_percentile a q = Returned t.
Proof.
  intros Ha [H0 H100]. destruct a as [|x t]; [easy|].
  unfold np_percentile.
  rewrite (proj2 (Rltb_false q 0)) by lra.
  rewrite (proj2 (Rltb_false 100 q)) by lra.
  simpl; eauto.
Qed.

Lemma np_percentile_value (a : list R) (q : R) :
  a <> [] -> 0 <= q <= 100 ->
  np_percentile a q
  = let ordered := sorted Rleb a in
    let n := length a in
    let position := (INR n - 1) * (q / 100) in
    let below := Z.to_nat (Zfloor position) in
    let above := Nat.min (below + 1) (n - 1) in
    let gamma := position - IZR (Zfloor position) in
    let lower := nth below ordered 0 in
    let upper := nth above ordered 0 in
    Returned (lower + (upper - lower) * gamma).
Proof.
  intros Ha [H0 H100]. destruct a as [|x t]; [easy|].
  unfold np_percentile.
  rewrite (proj2 (Rltb_false q 0)) by lra.
  rewrite (proj2 (Rltb_false 100 q)) by lra.
  reflexivity.
Qed.

Lemma Rleb_total (x y : R) : Rleb x y = false -> Rleb y x = true.
Proof. rewrite Rleb_false, Rleb_true. lra. Qed.

Lemma sorted_reals_ascending (a : list R) : StronglySorted Rle (sorted Rleb a).
Proof.
  apply Sorted_StronglySorted; [intros x y z; apply Rle_trans|].
  pose proof (sorted_Sorted Rleb Rleb_total a) as H.
  induction H as [|x l Hl IH Hhd]; constructor; auto.
  destruct Hhd as [|y l Hxy]; constructor. now apply Rleb_true.
Qed.

Lemma strongly_sorted_nth (l : list R) :
  StronglySorted Rle l ->
  forall i j, (i <= j < length l)%nat -> nth i l 0 <= nth j l 0.
Proof.
  induction 1 as [|x l Hl IH Hx]; intros i j [Hij Hj]; simpl in Hj; [lia|].
  destruct i as [|i], j as [|j]; simpl; try lia; try lra.
  - rewrite Forall_forall in Hx. apply Hx, nth_In. lia.
  - apply IH. lia.
Qed.

(** The threshold lies between two of the values: the percentile never
    leaves the range of the data. *)
Lemma np_percentile_between (a : list R) (q t : R) :
  np_percentile a q = Returned t ->
  exists lo hi, In lo a /\ In hi a /\ lo <= t <= hi.
Proof.
  unfold np_percentile. destruct a as [|x0 a0] eqn:Ea; [discriminate|].
  rewrite <- Ea. assert (Hn : (1 <= length a)%nat) by (subst a; simpl; lia).
  clear Ea x0 a0.
  destruct (Rltb q 0) eqn:H0; [discriminate|].
  destruct (Rltb 100 q) eqn:H100; [discriminate|].
  apply Rltb_false in H0, H100. cbn [orb]. cbv zeta.
  set (n := length a) in *.
  set (position := (INR n - 1) * (q / 100)).
  assert (Hn1 : 1 <= INR n) by (change 1 with (INR 1); now apply le_INR).
  assert (Hpos : 0 <= position <= INR n - 1) by (unfold position; nra).
  pose proof (Zfloor_bound position) as Hfl.
  assert (Hf0 : (0 <= Zfloor position)%Z) by (apply Zfloor_lub; simpl; lra).
  set (below := Z.to_nat (Zfloor position)).
  assert (Hbelow : INR below = IZR (Zfloor position)).
  { unfold below. rewrite INR_IZR_INZ, Z2Nat.id by lia. reflexivity. }
  assert (Hb : (below <= n - 1)%nat).
  { apply INR_le. rewrite minus_INR by lia. simpl. lra. }
  set (above := Nat.min (below + 1) (n - 1)).
  intros [= <-].
  assert (Hlen : length (sorted Rleb a) = n)
    by (apply Permutation_length, sorted_perm).
  assert (Hle : nth below (sorted Rleb a) 0 <= nth above (sorted Rleb a) 0).
  { apply strongly_sorted_nth; [apply sorted_reals_ascending|].
    unfold above. lia. }
  exists (nth below (sorted Rleb a) 0), (nth above (sorted Rleb a) 0).
  repeat split.
  - eapply Permutation_in; [apply sorted_perm|]. apply nth_In. lia.
  - eapply Permutation_in; [apply sorted_perm|]. apply nth_In.
    unfold above. lia.
  - nra.
  - nra.
Qed.

(** An ascending list is determined by its elements. *)
Lemma strongly_sorted_unique (l1 : list R) :
  forall l2,
    StronglySorted Rle l1 -> StronglySorted Rle l2 -> Permutation l1 l2 ->
    l1 = l2.
Proof.
  induction l1 as [|x t1 IH]; intros l2 H1 H2 HP.
  - apply Permutation_nil in HP. now subst.
  - destruct l2 as [|y t2];
      [apply Permutation_sym, Permutation_nil in HP; discriminate|].
    inversion H1 as [|? ? Ht1 Hx]; inversion H2 as [|? ? Ht2 Hy]; subst.
    rewrite Forall_forall in Hx, Hy.
    assert (Hxy : x <= y).
    { destruct (Permutation_in y (Permutation_sym HP) (in_eq y t2))
        as [->|Hin]; [lra | now apply Hx]. }
    assert (Hyx : y <= x).
    { destruct (Permutation_in x HP (in_eq x t1)) as [->|Hin];
        [lra | now apply Hy]. }
    assert (x = y) by lra. subst y. f_equal.
    apply IH; auto. now apply Permutation_cons_inv in HP.
Qed.

(** C6.  On a non-empty point cloud and a percentile [p] between 0 and 100,
    the height filter computes the [p]-th percentile of the Z values: with
    the [n] values in ascending order, the value at the position
    [(n - 1) * p / 100], interpolated linearly between the two values around
    that position.  It returns, in input order, exactly the points whose Z
    is strictly greater than this threshold; a point at or below it is
    discarded.  The threshold lies within the range of the Z values. *)
Theorem height_filter_keeps_strictly_above
  (percentile : R) (voxel_filtered : list point3) (ascending : list R) :
  voxel_filtered <> [] -> 0 <= percentile <= 100 ->
  Permutation ascending (map pz voxel_filtered) ->
  StronglySorted Rle ascending ->
  let n := length voxel_filtered in
  let position := (INR n - 1) * (percentile / 100) in
  let below := Z.to_nat (Zfloor position) in
  let above := Nat.min (below + 1) (n - 1) in
  let height_threshold :=
    nth below ascending 0
    + (nth above ascending 0 - nth below ascending 0)
      * (position - IZR (Zfloor position)) in
  np_percentile (map pz voxel_filtered) percentile
  = Returned height_threshold /\
  height_filter percentile voxel_filtered
  = Returned (filter (fun p => Rltb height_threshold (pz p)) voxel_filtered)
  /\
  (forall p,
      In p (filter (fun p => Rltb height_threshold (pz p)) voxel_filtered)
      <-> In p voxel_filtered /\ height_threshold < pz p) /\
  (exists low high,
      In low voxel_filtered /\ In high voxel_filtered /\
      pz low <= height_threshold <= pz high).
Proof.
  intros Hne Hq HP HS n position below above height_threshold.
  assert (Ha : ascending = sorted Rleb (map pz voxel_filtered)).
  { apply strongly_sorted_unique;
      [exact HS | apply sorted_reals_ascending |].
    rewrite HP. symmetry. apply sorted_perm. }
  assert (Ht : np_percentile (map pz voxel_filtered) percentile
               = Returned height_threshold).
  { rewrite np_percentile_value; auto;
      [|destruct voxel_filtered; [easy | discriminate]].
    cbv zeta. rewrite length_map, <- Ha. reflexivity. }
  split; [exact Ht|]. split; [|split].
  - unfold height_filter. rewrite Ht. cbn [bind].
    now rewrite (select_map_map pz (fun z => Rltb height_threshold z)).
  - intros p. rewrite filter_In, Rltb_true. tauto.
  - destruct (np_percentile_between _ _ _ Ht) as (lo & hi & Hlo & Hhi & Hb).
    apply in_map_iff in Hlo as (low & <- & Hlow).
    apply in_map_iff in Hhi as (high & <- & Hhigh).
    exists low, high. auto.
Qed.

Lemma ramp5_percentile : np_percentile (map pz ramp5) 25 = Returned 2.
Proof.
  unfold np_percentile, ramp5, pz; cbn [map snd length].
  rdecide. cbn [orb]. cbv zeta.
  replace (Zfloor ((INR 5 - 1) * (25 / 100))) with 1%Z
    by (symmetry; apply Zfloor_eq; simpl; lra).
  rsort. cbn [Z.to_nat Pos.to_nat Pos.iter_op Nat.add Nat.sub Nat.min nth].
  f_equal. simpl. lra.
Qed.

(** On five points at heights 1 to 5 the 25th percentile is 2: the points
    at heights 1 and 2 go, the three above stay. *)
Lemma height_filter_keeps_strictly_above_witness :
  np_percentile (map pz ramp5) 25 = Returned 2 /\
  height_filter 25 ramp5 = Returned [(2, 0, 3); (3, 0, 4); (4, 0, 5)] /\
  (forall p,
      In p (filter (fun p => Rltb 2 (pz p)) ramp5)
      <-> In p ramp5 /\ 2 < pz p).
Proof.
  assert (Hne : ramp5 <> []) by discriminate.
  assert (Hq : 0 <= 25 <= 100) by lra.
  assert (HP : Permutation [1; 2; 3; 4; 5] (map pz ramp5))
    by apply Permutation_refl.
  assert (HS : StronglySorted Rle [1; 2; 3; 4; 5])
    by (repeat constructor; lra).
  pose proof (height_filter_keeps_strictly_above
                25 ramp5 [1; 2; 3; 4; 5] Hne Hq HP HS) as H.
  cbv zeta in H.
  replace (Zfloor ((INR (length ramp5) - 1) * (25 / 100))) with 1%Z in H
    by (symmetry; apply Zfloor_eq; simpl; lra).
  change (Z.to_nat 1) with 1%nat in H.
  cbn [length ramp5 Nat.add Nat.sub Nat.min nth] in H.
  match type of H with
  | _ = Returned ?t /\ _ => replace t with 2 in H by (simpl; lra)
  end.
  destruct H as (Hp & Hf & Hin & _).
  split; [exact Hp|]. split; [|exact Hin].
  rewrite Hf. unfold ramp5, pz; cbn [filter snd]. rdecide. reflexivity.
Defined.

Lemma ramp5_filtered :
  height_filter 25 ramp5 = Returned [(2, 0, 3); (3, 0, 4); (4, 0, 5)].
Proof.
  unfold height_filter. rewrite ramp5_percentile. cbn [bind].
  unfold ramp5, pz; cbn [map snd select]. rdecide. reflexivity.
Qed.

(** **** The density reducer *)

Lemma first_index_spec (r : row) (rows : list row) :
  In r rows ->
  nth_error rows (first_index r rows) = Some r /\
  forall j, (j < first_index r rows)%nat -> nth_error rows j <> Some r.
Proof.
  induction rows as [|r' t IH]; [easy|]. intros Hin. simpl.
  destruct (row_eq_dec r r') as [->|Hne].
  - split; [reflexivity | intros j Hj; lia].
  - destruct Hin as [->|Hin]; [easy|].
    destruct (IH Hin) as [Hn Hfirst]. split; [exact Hn|].
    intros [|j] Hj; simpl; [congruence|]. apply Hfirst; lia.
Qed.

Lemma take_defined {A} (a : list A) (idx : list nat) :
  Forall (fun i => (i < length a)%nat) idx ->
  exists out, take a idx = Returned out /\
              Forall2 (fun i x => nth_error a i = Some x) idx out.
Proof.
  induction 1 as [|i idx Hi _ (out & Hout & Hrel)]; simpl.
  - exists []; split; [reflexivity | constructor].
  - destruct (nth_error a i) as [x|] eqn:E.
    + rewrite Hout; simpl. exists (x :: out); split; [reflexivity|].
      now constructor.
    + apply nth_error_Some in Hi. contradiction.
Qed.

Lemma unique_rows_In (rows : list row) (r : row) :
  In r (fst (np_unique rows)) <-> In r rows.
Proof.
  unfold np_unique; cbn [fst]. rewrite <- (nodup_In row_eq_dec rows r).
  split; apply Permutation_in; [|symmetry]; apply sorted_perm.
Qed.

Lemma unique_rows_NoDup (rows : list row) : NoDup (fst (np_unique rows)).
Proof.
  unfold np_unique; cbn [fst].
  eapply Permutation_NoDup; [symmetry; apply sorted_perm|].
  apply NoDup_nodup.
Qed.

Lemma unique_rows_length (rows : list row) :
  (length (fst (np_unique rows)) <= length rows)%nat.
Proof.
  apply NoDup_incl_length; [apply unique_rows_NoDup|].
  intros r Hr. now apply unique_rows_In.
Qed.

Lemma voxel_filter_spec (voxel_size : R) (points_3d : list point3) :
  exists out,
    voxel_filter voxel_size points_3d = Returned out /\
    Forall2 (first_of voxel_size points_3d)
      (fst (np_unique (map (voxel_index voxel_size) points_3d))) out.
Proof.
  set (rows := map (voxel_index voxel_size) points_3d).
  assert (Hidx : Forall (fun i => (i < length points_3d)%nat)
                   (snd (np_unique rows))).
  { unfold np_unique; cbn [snd]. apply Forall_map, Forall_forall.
    intros r Hr. apply (unique_rows_In rows) in Hr.
    destruct (first_index_spec r rows Hr) as [Hn _].
    assert (Hlt : (first_index r rows < length rows)%nat)
      by (apply nth_error_Some; congruence).
    unfold rows in Hlt at 2. now rewrite length_map in Hlt. }
  destruct (take_defined points_3d _ Hidx) as (out & Hout & Hrel).
  exists out. split.
  - unfold voxel_filter. fold rows. unfold np_unique in *. exact Hout.
  - assert (Hall : Forall (fun r => In r rows) (fst (np_unique rows)))
      by (apply Forall_forall; intros r; apply unique_rows_In).
    clear Hout Hidx. unfold np_unique in *; cbn [fst snd] in *.
    revert Hrel Hall. generalize (sorted row_leb (nodup row_eq_dec rows)).
    intros u. revert out. induction u as [|r u IH]; intros out Hrel Hall.
    + inversion Hrel; constructor.
    + simpl in Hrel. inversion Hrel as [|i q idx out' Hq Hrest]; subst.
      inversion Hall as [|? ? Hr Hall']; subst.
      constructor; [|now apply IH].
      destruct (first_index_spec r rows Hr) as [Hn Hfirst].
      unfold rows in Hn, Hq. rewrite nth_error_map, Hq in Hn.
      injection Hn as Hn. split; [exact Hn|].
      exists (first_index r rows). split; [exact Hq|].
      intros j p Hj Hp Hv. apply (Hfirst j Hj).
      unfold rows. rewrite nth_error_map, Hp. simpl. now rewrite Hv.
Qed.

Lemma first_of_rows voxel_size points_3d (u : list row) (out : list point3) :
  Forall2 (first_of voxel_size points_3d) u out ->
  map (voxel_index voxel_size) out = u.
Proof.
  induction 1 as [|r q u out [Hv _] _ IH]; simpl; [reflexivity|].
  now rewrite Hv, IH.
Qed.

(** C5.  For every input and voxel size the density reducer returns a point
    list that is no longer than its input and holds exactly one point of
    every occupied voxel, namely the first point of that voxel in input
    order; the result is determined by the input sequence. *)
Theorem voxel_filter_first_point_per_voxel
  (voxel_size : R) (points_3d : list point3) :
  exists out,
    voxel_filter voxel_size points_3d = Returned out /\
    (forall out', voxel_filter voxel_size points_3d = Returned out' ->
                  out' = out) /\
    (length out <= length points_3d)%nat /\
    NoDup (map (voxel_index voxel_size) out) /\
    (forall r, In r (map (voxel_index voxel_size) points_3d)
               <-> In r (map (voxel_index voxel_size) out)) /\
    Forall (fun q =>
              exists i, nth_error points_3d i = Some q /\
                forall j p, (j < i)%nat -> nth_error points_3d j = Some p ->
                  voxel_index voxel_size p <> voxel_index voxel_size q) out.
Proof.
  destruct (voxel_filter_spec voxel_size points_3d) as (out & Hout & Hrel).
  pose proof (first_of_rows _ _ _ _ Hrel) as Hrows.
  exists out. split; [exact Hout|]. split; [congruence|].
  repeat split.
  - rewrite <- (length_map (voxel_index voxel_size) out), Hrows.
    rewrite <- (length_map (voxel_index voxel_size) points_3d).
    apply unique_rows_length.
  - rewrite Hrows. apply unique_rows_NoDup.
  - rewrite Hrows. apply unique_rows_In.
  - rewrite Hrows. apply unique_rows_In.
  - clear Hrows Hout. induction Hrel as [|r q u out [Hv Hi] _ IH];
      constructor; auto.
    destruct Hi as (i & Hq & Hfirst). exists i; split; auto.
    intros j p Hj Hp. rewrite Hv. eauto.
Qed.

(** **** The outlier filter *)

Lemma select_map_combine {A B} (f : B -> bool) (ds : list B) (a : list A) :
  select (map f ds) a
  = map fst (filter (fun pd => f (snd pd)) (combine a ds)).
Proof.
  revert a. induction ds as [|d ds IH]; intros [|x a]; try reflexivity.
  cbn [map select combine filter snd]. rewrite IH.
  now destruct (f d).
Qed.

(** C4 (amended).  The outlier filter takes each point's mean distance to
    its k nearest neighbours (k = min(10, n - 1) for buildings, min(8, n - 1)
    for wires) and computes the threshold [mean_dist + f * std_dist] from
    NumPy's mean and standard deviation of these mean distances (f = 1.2
    for buildings, 2.5 for wires), all in floating point.  It keeps a point
    exactly when its mean distance is strictly less than the computed
    threshold: a point whose mean distance is equal to the computed
    threshold is discarded, like those above it. *)
Theorem outlier_filter_keeps_strictly_below
  (N : numerics) (height_filtered : list point3) :
  let points_2d := map xy height_filtered in
  let mean_distances k_max :=
    map (fun d => row_mean N (skipn 1 d))
        (tree_query N points_2d
           (Nat.min k_max (length points_2d - 1) + 1)) in
  let threshold f k_max :=
    float_add N (np_mean N (mean_distances k_max))
      (float_mul N f (np_std N (mean_distances k_max))) in
  building_outlier_filter N height_filtered
  = map fst (filter (fun pd => Rltb (snd pd) (threshold 1.2 10%nat))
               (combine points_2d (mean_distances 10%nat))) /\
  wire_outlier_filter N height_filtered
  = map fst (filter (fun qd => Rltb (snd qd) (threshold 2.5 8%nat))
               (combine height_filtered (mean_distances 8%nat))) /\
  (forall p d,
      In (p, d) (filter (fun pd => Rltb (snd pd) (threshold 1.2 10%nat))
                   (combine points_2d (mean_distances 10%nat))) <->
      In (p, d) (combine points_2d (mean_distances 10%nat)) /\
      d < threshold 1.2 10%nat) /\
  (forall q d,
      In (q, d) (filter (fun qd => Rltb (snd qd) (threshold 2.5 8%nat))
                   (combine height_filtered (mean_distances 8%nat))) <->
      In (q, d) (combine height_filtered (mean_distances 8%nat)) /\
      d < threshold 2.5 8%nat).
Proof.
  cbv zeta. split; [|split; [|split]].
  - unfold building_outlier_filter, inlier_mask, outlier_threshold,
      mean_knn_distances. cbv zeta.
    apply (select_map_combine (fun d => Rltb d _)).
  - unfold wire_outlier_filter, inlier_mask, outlier_threshold,
      mean_knn_distances. cbv zeta.
    apply (select_map_combine (fun d => Rltb d _)).
  - intros p d. rewrite filter_In, Rltb_true. tauto.
  - intros q d. rewrite filter_In, Rltb_true. tauto.
Qed.

Lemma sum_all_zero (l : list R) : all_zero l -> sum l = 0.
Proof.
  unfold sum. induction 1 as [|x t Hx _ IH]; simpl; [reflexivity|].
  subst x. now rewrite Rplus_0_l.
Qed.

Lemma exact_mean_all_zero (l : list R) : all_zero l -> exact_mean l = 0.
Proof.
  intros H. unfold exact_mean. rewrite (sum_all_zero l H).
  unfold Rdiv. apply Rmult_0_l.
Qed.

Lemma all_zero_firstn (n : nat) (l : list R) : all_zero l -> all_zero (firstn n l).
Proof.
  unfold all_zero. intros H. revert n.
  induction H as [|x t Hx _ IH]; intros [|n]; simpl; constructor; auto.
Qed.

Lemma all_zero_skipn (n : nat) (l : list R) : all_zero l -> all_zero (skipn n l).
Proof.
  unfold all_zero. intros H. revert n.
  induction H as [|x t Hx Ht IH]; intros [|n]; simpl; auto.
Qed.

Lemma all_zero_sorted (l : list R) : all_zero l -> all_zero (sorted Rleb l).
Proof.
  intros H. eapply Permutation_Forall; [symmetry; apply sorted_perm | exact H].
Qed.

Lemma distance_self (p : point) : distance p p = 0.
Proof.
  unfold distance. replace ((fst p - fst p) ^ 2 + (snd p - snd p) ^ 2) with 0
    by ring. apply sqrt_0.
Qed.

(** In exact arithmetic these guarantees hold. *)
Lemma exact_is_exact_on_zeros : exact_on_zeros exact.
Proof.
  constructor; cbn [tree_query row_mean np_mean np_std float_add float_mul
                    exact].
  - intros points k Hk. unfold exact_query. rewrite length_map.
    split; [reflexivity|]. apply Forall_map, Forall_forall. intros p _.
    rewrite length_firstn, (Permutation_length (sorted_perm Rleb _)),
      length_map.
    lia.
  - intros p0 points k Hsame _. unfold exact_query. apply Forall_map.
    eapply Forall_impl; [|exact Hsame]. intros p ->.
    apply all_zero_firstn, all_zero_sorted, Forall_map.
    eapply Forall_impl; [|exact Hsame]. intros q ->. apply distance_self.
  - intros l _. apply exact_mean_all_zero.
  - intros l _. apply exact_mean_all_zero.
  - intros l _ Hz. unfold exact_std. cbv zeta.
    rewrite (exact_mean_all_zero _ Hz), exact_mean_all_zero;
      [apply sqrt_0|].
    apply Forall_map. eapply Forall_impl; [|exact Hz].
    intros x ->. rewrite Rminus_diag, Rabs_R0. ring.
  - ring.
  - intros f. ring.
Qed.

Section Coincident.

Variable N : numerics.
Hypothesis zeros : exact_on_zeros N.

Variable p0 : point.
Variable points_2d : list point.
Hypothesis same : Forall (fun p => p = p0) points_2d.
Hypothesis some : (2 <= length points_2d)%nat.

Variable k_max : nat.
Hypothesis neighbours : (1 <= k_max)%nat.

Lemma coincident_mean_distances :
  mean_knn_distances N k_max points_2d <> [] /\
  all_zero (mean_knn_distances N k_max points_2d).
Proof.
  unfold mean_knn_distances. cbv zeta.
  set (k := (Nat.min k_max (length points_2d - 1) + 1)%nat).
  assert (Hk : (2 <= k <= length points_2d)%nat) by (unfold k; lia).
  destruct (query_rows N zeros points_2d k Hk) as [Hlen Hrows].
  pose proof (query_coincident N zeros p0 points_2d k same Hk) as Hzero.
  split.
  - intros E. apply (f_equal (@length R)) in E.
    rewrite length_map, Hlen in E. simpl in E. lia.
  - apply Forall_map. rewrite Forall_forall in *. intros d Hd.
    apply (row_mean_zeros N zeros).
    + intros E. apply (f_equal (@length R)) in E.
      rewrite length_skipn, (Hrows d Hd) in E. simpl in E. lia.
    + apply all_zero_skipn. now apply Hzero.
Qed.

Lemma coincident_threshold (factor : R) :
  outlier_threshold N factor (mean_knn_distances N k_max points_2d) = 0.
Proof.
  destruct coincident_mean_distances as [Hne Hz].
  unfold outlier_threshold. cbv zeta.
  rewrite (np_mean_zeros N zeros _ Hne Hz), (np_std_zeros N zeros _ Hne Hz).
  rewrite (float_mul_zero N zeros). apply (float_add_zeros N zeros).
Qed.

Lemma coincident_all_discarded {A} (factor : R) (a : list A) :
  select (inlier_mask N k_max factor points_2d) a = [].
Proof.
  apply select_all_false. unfold inlier_mask. cbv zeta.
  rewrite coincident_threshold. apply Forall_map.
  eapply Forall_impl; [|exact (proj2 coincident_mean_distances)].
  intros d ->. apply Rltb_false; lra.
Qed.

End Coincident.

Lemma stack20_coincident : Forall (fun p => p = (0, 0)) (map xy stack20).
Proof. unfold stack20. rewrite map_map. apply Forall_map, Forall_forall. reflexivity. Qed.

(** C4 fails as stated: for twenty points stacked over one ground position
    every distance is 0.0, so every mean neighbour distance is 0.0 and so
    is the computed threshold, without any rounding; no point exceeds the
    threshold, yet both filters discard all of them. *)
Lemma points_at_threshold_are_discarded :
  length stack20 = 20%nat /\
  Forall (fun d =>
            d = outlier_threshold exact 1.2
                  (mean_knn_distances exact 10 (map xy stack20)))
         (mean_knn_distances exact 10 (map xy stack20)) /\
  Forall (fun d =>
            d = outlier_threshold exact 2.5
                  (mean_knn_distances exact 8 (map xy stack20)))
         (mean_knn_distances exact 8 (map xy stack20)) /\
  length (mean_knn_distances exact 10 (map xy stack20)) = 20%nat /\
  building_outlier_filter exact stack20 = [] /\
  wire_outlier_filter exact stack20 = [].
Proof.
  pose proof stack20_coincident as Hs.
  pose proof exact_is_exact_on_zeros as Hz.
  assert (Hn : (2 <= length (map xy stack20))%nat) by (simpl; lia).
  split; [reflexivity|]. split; [|split; [|split; [|split]]].
  - rewrite (coincident_threshold exact Hz _ _ Hs Hn 10) by lia.
    apply (coincident_mean_distances exact Hz _ _ Hs Hn 10). lia.
  - rewrite (coincident_threshold exact Hz _ _ Hs Hn 8) by lia.
    apply (coincident_mean_distances exact Hz _ _ Hs Hn 8). lia.
  - unfold mean_knn_distances, exact, exact_query, stack20.
    cbn [tree_query]. now rewrite !length_map, length_seq.
  - unfold building_outlier_filter. cbv zeta.
    apply (coincident_all_discarded exact Hz _ _ Hs Hn 10). lia.
  - unfold wire_outlier_filter. cbv zeta.
    apply (coincident_all_discarded exact Hz _ _ Hs Hn 8). lia.
Qed.

End StagesFacts.

(** *** Douglas-Peucker simplification
    ([python_instance_enhanced.py], l. 357-415) *)

Module SimplifyFacts.

Import Py PyFacts Geometry Footprint FootprintFacts.
Local Open Scope R_scope.

(** The scan of [dp_simplify] either leaves its initial [(0, 0)] or ends on
    an interior index with a positive distance. *)
Lemma farthest_range (dist : point -> point -> point -> R)
  (points : list point) :
  farthest dist points = (0, 0%nat) \/
  (0 < fst (farthest dist points) /\
   (1 <= snd (farthest dist points) <= length points - 2)%nat).
Proof.
  unfold farthest.
  set (f := fun (acc : R * nat) (i : nat) =>
              if Rltb (fst acc)
                   (dist (nth i points (0, 0))
                      (nth 0 points (0, 0)) (List.last points (0, 0)))
              then (dist (nth i points (0, 0))
                      (nth 0 points (0, 0)) (List.last points (0, 0)), i)
              else acc).
  assert (H : forall l acc,
             (forall i, In i l -> (1 <= i <= length points - 2)%nat) ->
             (acc = (0, 0%nat) \/
              (0 < fst acc /\ (1 <= snd acc <= length points - 2)%nat)) ->
             (fold_left f l acc = (0, 0%nat) \/
              (0 < fst (fold_left f l acc) /\
               (1 <= snd (fold_left f l acc) <= length points - 2)%nat))).
  { induction l as [|i l IH]; intros acc Hl Hacc; [exact Hacc|].
    simpl. apply IH; [intros j Hj; apply Hl; now right|].
    unfold f.
    destruct (Rltb (fst acc) _) eqn:E; [|exact Hacc].
    apply Rltb_true in E. right. simpl. split; [|apply Hl; now left].
    destruct Hacc as [-> | [Hpos _]]; simpl in E; lra. }
  apply H; [|now left].
  intros i Hi. apply in_seq in Hi. lia.
Qed.

Lemma in_firstn (l : polygon) (n : nat) (x : point) :
  In x (firstn n l) -> In x l.
Proof.
  intros H. rewrite <- (firstn_skipn n l). apply in_or_app. now left.
Qed.

Lemma in_skipn (l : polygon) (n : nat) (x : point) :
  In x (skipn n l) -> In x l.
Proof.
  intros H. rewrite <- (firstn_skipn n l). apply in_or_app. now right.
Qed.

Lemma nth_firstn_0 (l : polygon) (n : nat) (d : point) :
  (1 <= n)%nat -> nth 0 (firstn n l) d = nth 0 l d.
Proof. destruct n; [lia|]. now destruct l. Qed.

Lemma last_skipn (l : polygon) (n : nat) (d : point) :
  (n < length l)%nat -> List.last (skipn n l) d = List.last l d.
Proof.
  revert l; induction n as [|n IH]; intros l Hn; [reflexivity|].
  destruct l as [|p [|q t]]; simpl in Hn; try lia.
  change (List.last (skipn n (q :: t)) d = List.last (q :: t) d).
  apply IH. simpl; lia.
Qed.

Lemma nth_0_removelast_app (a b : polygon) (d : point) :
  (2 <= length a)%nat -> nth 0 (removelast a ++ b) d = nth 0 a d.
Proof. destruct a as [|p [|q t]]; simpl; intros; try lia; reflexivity. Qed.

Lemma last_app_nonempty (a b : polygon) (d : point) :
  b <> [] -> List.last (a ++ b) d = List.last b d.
Proof.
  intros Hb. induction a as [|p a IH]; [reflexivity|].
  simpl. destruct (a ++ b) eqn:E; [|exact IH].
  apply app_eq_nil in E as [_ ->]. contradiction.
Qed.

Lemma length_removelast_le (a : polygon) :
  (length (removelast a) + 1 <= Nat.max 1 (length a))%nat.
Proof.
  induction a as [|p [|q t] IH]; simpl in *; lia.
Qed.

Lemma incl_removelast (a : polygon) : incl (removelast a) a.
Proof.
  induction a as [|p [|q t] IH]; simpl; try easy.
  intros x [<-|Hx]; [now left | right; now apply IH].
Qed.

(** When [point_to_line_distance] returns 0 throughout, the scan leaves its
    initial values. *)
Lemma farthest_blind (points : list point) :
  farthest (point_to_line_distance_within 0) points = (0, 0%nat).
Proof.
  unfold farthest. cbn [point_to_line_distance_within].
  induction (seq 1 (length points - 2)) as [|i l IH]; [reflexivity|].
  cbn [fold_left fst]. rewrite (proj2 (Rltb_false 0 0)) by lra. exact IH.
Qed.

(** What [dp_simplify] returns: vertices of its input, no more of them than
    it was given, and for two or more points the same first and last one. *)
Lemma dp_simplify_spec (depth : nat) :
  forall (points : list point) (epsilon : R) (out : list point),
    dp_simplify depth points epsilon = Returned out ->
    incl out points /\
    (length out <= length points)%nat /\
    ((2 <= length points)%nat ->
     (2 <= length out)%nat /\
     forall d, nth 0 out d = nth 0 points d /\
               List.last out d = List.last points d).
Proof.
  induction depth as [|calls IH]; intros points epsilon out; [discriminate|].
  destruct (length points <=? 2)%nat eqn:Hlen.
  { rewrite dp_simplify_short by (now apply Nat.leb_le).
    intros [= <-]. repeat split; auto using incl_refl. }
  destruct calls as [|inner];
    [cbn [dp_simplify]; rewrite Hlen; discriminate|].
  rewrite dp_simplify_step, Hlen.
  apply Nat.leb_gt in Hlen.
  pose proof (farthest_range (point_to_line_distance_within inner) points)
    as Hrange.
  destruct (farthest (point_to_line_distance_within inner) points)
    as [max_dist index] eqn:Ef.
  destruct (Rltb epsilon max_dist) eqn:Eeps.
  - destruct (dp_simplify (S inner) (firstn (index + 1) points) epsilon)
      as [left|] eqn:El; [|discriminate]. cbn [bind].
    destruct (dp_simplify (S inner) (skipn index points) epsilon)
      as [right|] eqn:Er; [|discriminate]. cbn [bind].
    intros [= <-].
    destruct (IH _ _ _ El) as (Hli & Hll & Hle).
    destruct (IH _ _ _ Er) as (Hri & Hrl & Hre).
    rewrite length_firstn in Hll, Hle. rewrite length_skipn in Hrl, Hre.
    pose proof (length_removelast_le left) as Hrm.
    simpl in Hrange.
    split; [|split].
    + apply incl_app.
      * intros x Hx. apply incl_removelast in Hx. apply Hli in Hx.
        eapply in_firstn; eauto.
      * intros x Hx. apply Hri in Hx. eapply in_skipn; eauto.
    + rewrite length_app. lia.
    + intros _. destruct Hrange as [[= -> ->] | [_ Hidx]].
      * (* the scan found nothing above 0: [index] is 0 *)
        destruct points as [|p0 rest]; [simpl in Hlen; lia|].
        cbn [Nat.add firstn] in El.
        rewrite dp_simplify_short in El by (simpl; lia).
        injection El as <-.
        simpl in Hlen, Hre |- *. destruct Hre as [H2 Hd]; [lia|].
        split; [exact H2|]. exact Hd.
      * destruct Hle as [Hl2 Hld]; [lia|]. destruct Hre as [Hr2 Hrd]; [lia|].
        split; [rewrite length_app; lia|]. intros d. split.
        -- rewrite nth_0_removelast_app by lia.
           rewrite (proj1 (Hld d)). apply nth_firstn_0. lia.
        -- rewrite last_app_nonempty by (intros ->; simpl in Hr2; lia).
           rewrite (proj2 (Hrd d)). apply last_skipn. lia.
  - intros [= <-]. split; [|split].
    + intros x [<-|[<-|[]]]; [apply nth_In; lia|].
      apply last_in. now destruct points.
    + simpl; lia.
    + intros _. split; [simpl; lia|]. intros d. split.
      * simpl. apply nth_indep. lia.
      * simpl. apply last_indep. now destruct points.
Qed.

(** With a tolerance that is not negative, [dp_simplify] returns as soon as
    two nested calls are allowed: where the distances read 0 it does not
    recurse. *)
Lemma dp_simplify_returns (depth : nat) :
  forall (points : list point) (epsilon : R),
    0 <= epsilon -> (2 <= depth)%nat ->
    exists out, dp_simplify depth points epsilon = Returned out.
Proof.
  induction depth as [|calls IH]; intros points epsilon Heps Hd; [lia|].
  destruct calls as [|inner]; [lia|].
  rewrite dp_simplify_step.
  destruct (length points <=? 2)%nat; [eauto|].
  destruct inner as [|inner].
  { rewrite farthest_blind. rewrite (proj2 (Rltb_false epsilon 0)) by lra.
    eauto. }
  destruct (farthest _ points) as [max_dist index].
  destruct (Rltb epsilon max_dist); [|eauto].
  destruct (IH (firstn (index + 1) points) epsilon) as [left ->]; auto;
    [lia|].
  destruct (IH (skipn index points) epsilon) as [right ->]; auto; [lia|].
  cbn [bind]. eauto.
Qed.

(** With two calls allowed the result is the chord from the first to the
    last point. *)
Lemma dp_simplify_chord (points : list point) (epsilon : R) :
  0 <= epsilon -> (2 < length points)%nat ->
  dp_simplify 2 points epsilon
  = Returned [nth 0 points (0, 0); List.last points (0, 0)].
Proof.
  intros Heps Hlen. rewrite dp_simplify_step.
  apply Nat.leb_gt in Hlen. rewrite Hlen, farthest_blind.
  now rewrite (proj2 (Rltb_false epsilon 0)) by lra.
Qed.

(** Once as many calls are allowed as there are points, more make no
    difference. *)
Lemma dp_simplify_stable (d1 : nat) :
  forall (d2 : nat) (points : list point) (epsilon : R),
    0 <= epsilon -> (1 <= d1)%nat -> (1 <= d2)%nat ->
    ((length points <= 2)%nat \/
     (3 <= d1 /\ 3 <= d2 /\ length points <= d1 /\ length points <= d2)%nat) ->
    dp_simplify d1 points epsilon = dp_simplify d2 points epsilon.
Proof.
  induction d1 as [|c1 IH]; intros d2 points epsilon Heps H1 H2 Hroom; [lia|].
  destruct d2 as [|c2]; [lia|].
  destruct (Nat.le_gt_cases (length points) 2) as [Hshort|Hlong].
  { now rewrite !dp_simplify_short. }
  destruct Hroom as [Hs|(Hd1 & Hd2 & Hl1 & Hl2)]; [lia|].
  destruct c1 as [|[|i1]]; try lia. destruct c2 as [|[|i2]]; try lia.
  rewrite !dp_simplify_step, !within_S.
  pose proof (farthest_range point_to_line_distance points) as Hrange.
  destruct (farthest point_to_line_distance points) as [max_dist index].
  destruct (length points <=? 2)%nat; [reflexivity|].
  destruct (Rltb epsilon max_dist) eqn:Eeps; [|reflexivity].
  apply Rltb_true in Eeps. simpl in Hrange.
  destruct Hrange as [[= -> ->] | [_ Hidx]]; [lra|].
  rewrite (IH (S (S i2)) (firstn (index + 1) points) epsilon); auto;
    try lia; [|rewrite length_firstn; lia].
  rewrite (IH (S (S i2)) (skipn index points) epsilon); auto;
    try lia; rewrite length_skipn; lia.
Qed.

Lemma close_if_open_incl (l : polygon) : incl (close_if_open l) l.
Proof.
  destruct l as [|p t]; [easy|]. unfold close_if_open.
  destruct (negb _); [|apply incl_refl].
  apply incl_app; [apply incl_refl|]. intros x [<-|[]]. now left.
Qed.

Lemma close_if_open_first (l : polygon) (d : point) :
  nth 0 (close_if_open l) d = nth 0 l d.
Proof.
  destruct l as [|p t]; [reflexivity|]. unfold close_if_open.
  now destruct (negb _).
Qed.

Lemma close_if_open_fixed (l : polygon) :
  is_closed l -> close_if_open l = l.
Proof.
  destruct l as [|p t]; [easy|]. unfold is_closed, close_if_open. intros H.
  rewrite (last_indep (p :: t) (0, 0) p) by easy. rewrite H.
  now rewrite (proj2 (point_eqb_eq p p) eq_refl).
Qed.

(** X2.  Whatever the recursion limit and the tolerance, the polygon
    [simplify_polygon] returns uses only vertices of its input and starts
    with the same vertex; on a closed ring it is again a closed ring, with
    no more vertices than the input. *)
Theorem simplify_polygon_keeps_ring
  (recursion_limit : nat) (coords : polygon) (tolerance : R) :
  incl (simplify_polygon recursion_limit coords tolerance) coords /\
  (forall d, nth 0 (simplify_polygon recursion_limit coords tolerance) d
             = nth 0 coords d) /\
  (is_closed coords ->
   is_closed (simplify_polygon recursion_limit coords tolerance) /\
   (length (simplify_polygon recursion_limit coords tolerance)
    <= length coords)%nat).
Proof.
  unfold simplify_polygon.
  destruct (length coords <? 4)%nat eqn:Hlen;
    [repeat split; auto using incl_refl|].
  apply Nat.ltb_ge in Hlen.
  destruct (dp_simplify recursion_limit coords tolerance) as [s|] eqn:Edp;
    [|repeat split; auto using incl_refl].
  destruct (dp_simplify_spec _ _ _ _ Edp) as (Hincl & Hl & Hends).
  destruct Hends as [Hs2 Hd]; [lia|].
  split; [|split].
  - intros x Hx. apply Hincl. now apply close_if_open_incl.
  - intros d. rewrite close_if_open_first. apply Hd.
  - intros Hc.
    assert (Hsc : is_closed s).
    { destruct coords as [|p t]; [easy|]. destruct s as [|q u]; [simpl in Hs2; lia|].
      unfold is_closed in *. destruct (Hd q) as [H0 Hlast]. simpl in H0.
      subst q. rewrite Hlast. exact Hc. }
    rewrite (close_if_open_fixed s Hsc). auto.
Qed.

Lemma simplify_polygon_keeps_ring_witness :
  is_closed (simplify_polygon 1000 wedge_ring 0.5) /\
  (length (simplify_polygon 1000 wedge_ring 0.5)
   <= length wedge_ring)%nat.
Proof.
  apply (simplify_polygon_keeps_ring 1000 wedge_ring 0.5).
  reflexivity.
Defined.

(** X3.  How the recursion limit shows in [simplify_polygon], for a
    tolerance that is not negative and a polygon of four or more vertices.
    With at most one nested call left the [RecursionError] reaches the
    [except] clause and the input comes back unsimplified.  With exactly
    two, [point_to_line_distance] swallows the error, every distance reads
    0 and the result is the closed chord from the first to the last vertex.
    From two calls on the [except] clause is never taken.  Once as many
    calls are left as the polygon has vertices, the result no longer depends
    on the limit. *)
Theorem simplify_polygon_within_recursion_limit
  (recursion_limit : nat) (coords : polygon) (tolerance : R) :
  0 <= tolerance -> (4 <= length coords)%nat ->
  ((recursion_limit <= 1)%nat ->
   simplify_polygon recursion_limit coords tolerance = coords) /\
  (recursion_limit = 2%nat ->
   simplify_polygon recursion_limit coords tolerance
   = close_if_open [nth 0 coords (0, 0); List.last coords (0, 0)]) /\
  ((2 <= recursion_limit)%nat ->
   exists simplified,
     dp_simplify recursion_limit coords tolerance = Returned simplified /\
     simplify_polygon recursion_limit coords tolerance
     = close_if_open simplified) /\
  ((length coords <= recursion_limit)%nat ->
   forall larger, (recursion_limit <= larger)%nat ->
     simplify_polygon larger coords tolerance
     = simplify_polygon recursion_limit coords tolerance).
Proof.
  intros Ht Hlen. unfold simplify_polygon.
  assert (H4 : (length coords <? 4)%nat = false) by (apply Nat.ltb_ge; lia).
  assert (H2 : (length coords <=? 2)%nat = false) by (apply Nat.leb_gt; lia).
  rewrite H4. repeat split.
  - intros Hl. destruct recursion_limit as [|[|l]]; try lia; [reflexivity|].
    cbn [dp_simplify]. now rewrite H2.
  - intros ->. now rewrite dp_simplify_chord by (auto; lia).
  - intros Hl.
    destruct (dp_simplify_returns recursion_limit coords tolerance)
      as [s Hs]; auto.
    exists s. split; [exact Hs|]. now rewrite Hs.
  - intros Hl larger Hlarger.
    rewrite (dp_simplify_stable larger recursion_limit coords tolerance);
      auto; try lia.
Qed.

Lemma simplify_polygon_within_recursion_limit_witness :
  simplify_polygon 2 wedge_ring 0.5
  = close_if_open [nth 0 wedge_ring (0, 0); List.last wedge_ring (0, 0)] /\
  exists simplified,
    dp_simplify 1000 wedge_ring 0.5 = Returned simplified /\
    simplify_polygon 1000 wedge_ring 0.5 = close_if_open simplified.
Proof.
  split.
  - apply (simplify_polygon_within_recursion_limit 2 wedge_ring 0.5);
      [lra | simpl; lia | reflexivity].
  - apply (simplify_polygon_within_recursion_limit 1000 wedge_ring 0.5);
      [lra | simpl; lia | lia].
Defined.

Lemma sum_sq_pos (a b : R) : a <> 0 \/ b <> 0 -> 0 < a ^ 2 + b ^ 2.
Proof.
  intros H. simpl.
  destruct (Rtotal_order a 0) as [Ha|[Ha|Ha]];
    destruct (Rtotal_order b 0) as [Hb|[Hb|Hb]]; try nra;
    try (subst; destruct H; contradiction).
Qed.

(** X4.  [point_to_line_distance] measures the distance to the whole line
    through the two end points, not to the segment: every point
    [start + t * (end - start)] of that line, also one beyond the ends, is
    at distance 0.  When the two end points coincide the result is the
    distance to that point. *)
Theorem point_to_line_distance_is_to_the_line (x1 y1 x2 y2 t x0 y0 : R) :
  (x1, y1) <> (x2, y2) ->
  point_to_line_distance (x1 + t * (x2 - x1), y1 + t * (y2 - y1))
    (x1, y1) (x2, y2) = 0 /\
  point_to_line_distance (x0, y0) (x1, y1) (x1, y1)
  = distance (x0, y0) (x1, y1).
Proof.
  intros Hne. split.
  - unfold point_to_line_distance.
    assert (Hpos : 0 < (y2 - y1) ^ 2 + (x2 - x1) ^ 2).
    { apply sum_sq_pos. destruct (Req_dec_T x1 x2) as [->|Hx].
      - left. intros Hy. apply Hne. f_equal. lra.
      - right. lra. }
    apply sqrt_lt_R0 in Hpos.
    rewrite (proj2 (Reqb_false _ 0)) by lra.
    replace ((y2 - y1) * (x1 + t * (x2 - x1)) - (x2 - x1) * (y1 + t * (y2 - y1))
             + x2 * y1 - y2 * x1) with 0 by ring.
    rewrite Rabs_R0. unfold Rdiv. apply Rmult_0_l.
  - unfold point_to_line_distance, distance; cbn [fst snd].
    replace ((y1 - y1) ^ 2 + (x1 - x1) ^ 2) with 0 by ring.
    rewrite sqrt_0. now rewrite (proj2 (Reqb_true 0 0) eq_refl).
Qed.

Lemma point_to_line_distance_is_to_the_line_witness :
  point_to_line_distance (0 + 5 * (1 - 0), 0 + 5 * (0 - 0)) (0, 0) (1, 0) = 0 /\
  point_to_line_distance (3, 4) (0, 0) (0, 0) = distance (3, 4) (0, 0).
Proof.
  apply (point_to_line_distance_is_to_the_line 0 0 1 0 5 3 4).
  intros H. injection H. lra.
Defined.

End SimplifyFacts.

(** *** More on the geometry metrics
    ([python_instance_enhanced_fixed1.py], l. 400-411 and 588-638) *)

Module GeometryExtras.

Import Py PyFacts Geometry Footprint GeometryFacts StagesFacts.
Local Open Scope R_scope.

Lemma area_nonneg (coords : polygon) : 0 <= calculate_polygon_area coords.
Proof.
  unfold calculate_polygon_area. destruct (length coords <? 4)%nat; [lra|].
  cbv zeta. match goal with |- 0 <= 0.5 * Rabs ?e => pose proof (Rabs_pos e) end.
  lra.
Qed.

(** X5.  The area is never negative, and the shoelace sum drops the last
    entry of the vertex list without looking at it: replacing the last
    vertex by any other point leaves the area unchanged, so a ring that is
    not closed loses its last corner. *)
Theorem area_ignores_last_vertex (coords : polygon) (p q : point) :
  0 <= calculate_polygon_area (coords ++ [p]) /\
  calculate_polygon_area (coords ++ [p]) = calculate_polygon_area (coords ++ [q]).
Proof.
  split; [apply area_nonneg|].
  unfold calculate_polygon_area.
  rewrite !length_app, !removelast_last. reflexivity.
Qed.

Lemma edge_lengths_length (coords : polygon) :
  length (edge_lengths coords) = (length coords - 1)%nat.
Proof.
  induction coords as [|p [|q t] IH]; try reflexivity.
  change (S (length (edge_lengths (q :: t))) = S (length (q :: t)) - 1)%nat.
  rewrite IH. simpl. lia.
Qed.

(** X6.  The aspect ratio is at least 1 for every vertex list: it is 1 on
    each degenerate path and otherwise the larger of the two quotients of
    the shortest and the third-shortest edge. *)
Theorem aspect_ratio_at_least_one (coords : polygon) :
  1 <= calculate_aspect_ratio coords.
Proof.
  unfold calculate_aspect_ratio.
  destruct (length coords <? 4)%nat; [lra|]. cbv zeta.
  destruct (4 <=? length (sorted Rleb (edge_lengths coords)))%nat eqn:Hlen;
    [|lra].
  apply Nat.leb_le in Hlen.
  destruct (Rltb 0 (nth 0 (sorted Rleb (edge_lengths coords)) 0)) eqn:Hw;
    [|lra].
  apply Rltb_true in Hw.
  assert (Hle : nth 0 (sorted Rleb (edge_lengths coords)) 0
                <= nth 2 (sorted Rleb (edge_lengths coords)) 0).
  { apply strongly_sorted_nth; [apply sorted_reals_ascending | lia]. }
  set (width := nth 0 _ 0) in *. set (height := nth 2 _ 0) in *.
  apply Rle_trans with (height / width); [|apply Rmax_l].
  apply Rmult_le_reg_r with width; [exact Hw|].
  unfold Rdiv. rewrite Rmult_assoc, Rinv_l by lra. lra.
Qed.

Lemma rectangle_edges (x0 y0 w h : R) :
  0 <= w -> 0 <= h -> edge_lengths (rectangle x0 y0 w h) = [w; h; w; h].
Proof.
  intros Hw Hh. unfold rectangle; cbn [edge_lengths fst snd].
  replace ((x0 + w - x0) * (x0 + w - x0) + (y0 - y0) * (y0 - y0))
    with (w * w) by ring.
  replace ((x0 + w - (x0 + w)) * (x0 + w - (x0 + w))
           + (y0 + h - y0) * (y0 + h - y0)) with (h * h) by ring.
  replace ((x0 - (x0 + w)) * (x0 - (x0 + w))
           + (y0 + h - (y0 + h)) * (y0 + h - (y0 + h)))
    with (w * w) by ring.
  replace ((x0 - x0) * (x0 - x0) + (y0 - (y0 + h)) * (y0 - (y0 + h)))
    with (h * h) by ring.
  rewrite !sqrt_square by lra. reflexivity.
Qed.

Lemma rectangle_area (x0 y0 w h : R) :
  0 <= w -> 0 <= h -> calculate_polygon_area (rectangle x0 y0 w h) = w * h.
Proof.
  intros Hw Hh. rcompute.
  match goal with |- _ * _ * Rabs ?e = _ =>
    replace e with (2 * (w * h)) by ring end.
  rewrite Rabs_pos_eq by nra. lra.
Qed.

Lemma rectangle_perimeter (x0 y0 w h : R) :
  0 <= w -> 0 <= h ->
  calculate_polygon_perimeter (rectangle x0 y0 w h) = 2 * (w + h).
Proof.
  intros Hw Hh. unfold calculate_polygon_perimeter.
  rewrite rectangle_edges by assumption. simpl. ring.
Qed.

Lemma rectangle_aspect (x0 y0 w h : R) :
  0 < w -> 0 < h ->
  calculate_aspect_ratio (rectangle x0 y0 w h) = Rmax (h / w) (w / h).
Proof.
  intros Hw Hh. unfold calculate_aspect_ratio.
  rewrite rectangle_edges by lra.
  change (length (rectangle x0 y0 w h) <? 4)%nat with false. cbv zeta.
  destruct (Rtotal_order w h) as [Hlt|[->|Hgt]].
  - rsort. cbn [length Nat.leb nth]. rdecide. reflexivity.
  - rsort. cbn [length Nat.leb nth]. rdecide. reflexivity.
  - rsort. cbn [length Nat.leb nth]. rdecide. apply Rmax_comm.
Qed.

(** X7.  On the closed ring of an axis-aligned rectangle of positive width
    [w] and height [h] the metrics are the textbook ones: area [w * h],
    perimeter [2 (w + h)], aspect ratio [max (h / w) (w / h)], and
    compactness [pi w h / (w + h)^2], which is [pi / 4] for a square. *)
Theorem rectangle_metrics (x0 y0 w h : R) :
  0 < w -> 0 < h ->
  calculate_polygon_area (rectangle x0 y0 w h) = w * h /\
  calculate_polygon_perimeter (rectangle x0 y0 w h) = 2 * (w + h) /\
  calculate_aspect_ratio (rectangle x0 y0 w h) = Rmax (h / w) (w / h) /\
  calculate_compactness (calculate_polygon_area (rectangle x0 y0 w h))
    (calculate_polygon_perimeter (rectangle x0 y0 w h))
  = PI * w * h / (w + h) ^ 2 /\
  (w = h ->
   calculate_compactness (calculate_polygon_area (rectangle x0 y0 w h))
     (calculate_polygon_perimeter (rectangle x0 y0 w h)) = PI / 4).
Proof.
  intros Hw Hh.
  rewrite rectangle_area, rectangle_perimeter by lra.
  split; [reflexivity|]. split; [reflexivity|].
  split; [now apply rectangle_aspect|].
  assert (Hc : calculate_compactness (w * h) (2 * (w + h))
               = PI * w * h / (w + h) ^ 2).
  { unfold calculate_compactness.
    rewrite (proj2 (Rltb_true 0 (2 * (w + h)))) by lra.
    field. lra. }
  split; [exact Hc|].
  intros <-. rewrite Hc. field. lra.
Qed.

Lemma rectangle_metrics_witness :
  calculate_polygon_area (rectangle 0 0 10 20) = 10 * 20 /\
  calculate_polygon_perimeter (rectangle 0 0 10 20) = 2 * (10 + 20) /\
  calculate_aspect_ratio (rectangle 0 0 10 20) = Rmax (20 / 10) (10 / 20) /\
  calculate_compactness (calculate_polygon_area (rectangle 0 0 10 20))
    (calculate_polygon_perimeter (rectangle 0 0 10 20))
  = PI * 10 * 20 / (10 + 20) ^ 2 /\
  (10 = 20 ->
   calculate_compactness (calculate_polygon_area (rectangle 0 0 10 20))
     (calculate_polygon_perimeter (rectangle 0 0 10 20)) = PI / 4).
Proof.
  apply (rectangle_metrics 0 0 10 20); lra.
Defined.

End GeometryExtras.

(** *** More on the instance filters of the two building scripts *)

Module BuildingExtras.

Import Py PyFacts Geometry Footprint FootprintFacts GeometryFacts.
Import BuildingFixed BuildingFixedFacts.
Local Open Scope R_scope.

(** **** [round] keeps bounds that are themselves round numbers *)

Lemma round_half_even_lower (k : Z) (y : R) :
  IZR k <= y -> (k <= round_half_even y)%Z.
Proof.
  intros H. pose proof (Zfloor_lub k y H) as Hf. unfold round_half_even.
  cbv zeta. destruct (Rltb _ _); [exact Hf|].
  destruct (Rltb _ _); [lia|]. destruct (Z.even _); lia.
Qed.

Lemma round_half_even_upper (k : Z) (y : R) :
  y <= IZR k -> (round_half_even y <= k)%Z.
Proof.
  intros H. pose proof (Zfloor_bound y) as [Hlo Hhi].
  assert (Hf : (Zfloor y <= k)%Z) by (apply le_IZR; lra).
  unfold round_half_even. cbv zeta.
  destruct (Rltb (y - IZR (Zfloor y)) (1 / 2)) eqn:E; [exact Hf|].
  apply Rltb_false in E.
  assert (Zfloor y <> k) by (intros Heq; rewrite Heq in E; lra).
  destruct (Rltb _ _); [lia|]. destruct (Z.even _); lia.
Qed.

Lemma pow10_pos (n : nat) : 0 < 10 ^ n.
Proof. apply pow_lt. lra. Qed.

Lemma round_lower (k : Z) (n : nat) (x : R) :
  IZR k / 10 ^ n <= x -> IZR k / 10 ^ n <= round x n.
Proof.
  intros H. pose proof (pow10_pos n) as Hp. unfold round.
  apply Rmult_le_compat_r with (r := / 10 ^ n);
    [left; now apply Rinv_0_lt_compat|].
  apply IZR_le, round_half_even_lower.
  apply Rmult_le_reg_r with (/ 10 ^ n); [now apply Rinv_0_lt_compat|].
  rewrite Rmult_assoc, Rinv_r by lra. unfold Rdiv in H. lra.
Qed.

Lemma round_upper (k : Z) (n : nat) (x : R) :
  x <= IZR k / 10 ^ n -> round x n <= IZR k / 10 ^ n.
Proof.
  intros H. pose proof (pow10_pos n) as Hp. unfold round.
  apply Rmult_le_compat_r with (r := / 10 ^ n);
    [left; now apply Rinv_0_lt_compat|].
  apply IZR_le, round_half_even_upper.
  apply Rmult_le_reg_r with (/ 10 ^ n); [now apply Rinv_0_lt_compat|].
  rewrite Rmult_assoc, Rinv_r by lra. unfold Rdiv in H. lra.
Qed.

(** **** The fixed variant *)

Lemma accepted_passes (n : nat) dens pc polys coords :
  assess n dens pc polys = Accept coords ->
  (80 <= n)%nat /\ 0.3 <= dens /\
  20 <= calculate_polygon_area coords <= 5000 /\
  calculate_aspect_ratio coords <= 12.
Proof.
  unfold assess.
  destruct (n <? 80)%nat eqn:Hn; [discriminate|].
  destruct (Rltb dens 0.3) eqn:Hd; [discriminate|].
  destruct pc as [c|]; [|discriminate].
  destruct (Rltb (calculate_polygon_area c) 20) eqn:Ha; [discriminate|].
  destruct (Rltb 5000 _) eqn:Hb; [discriminate|].
  destruct (Rltb 12 _) eqn:Hr; [discriminate|].
  destruct (has_overlap_with_existing c polys 8); [discriminate|].
  intros [= <-]. apply Nat.ltb_ge in Hn.
  apply Rltb_false in Hd, Ha, Hb, Hr. auto.
Qed.

Lemma make_building_within (bs : list building) (n : nat) dens coords :
  (80 <= n)%nat -> 0.3 <= dens ->
  20 <= calculate_polygon_area coords <= 5000 ->
  calculate_aspect_ratio coords <= 12 ->
  within_filters (make_building bs n dens coords).
Proof.
  intros Hn Hd [Ha Hb] Hr. unfold within_filters, make_building; simpl.
  repeat split; auto.
  - replace 20 with (IZR 2000 / 10 ^ 2) by (simpl; lra).
    apply round_lower. simpl; lra.
  - replace 5000 with (IZR 500000 / 10 ^ 2) by (simpl; lra).
    apply round_upper. simpl; lra.
  - replace 0.3 with (IZR 30 / 10 ^ 2) by (simpl; lra).
    apply round_lower. simpl; lra.
  - replace 12 with (IZR 1200 / 10 ^ 2) by (simpl; lra).
    apply round_upper. simpl; lra.
Qed.

Lemma record_verdict_accounted st n dens pc k :
  accounted st k ->
  accounted (record_verdict st n dens
               (assess n dens pc (building_polygons st))) (S k).
Proof.
  intros (Hw & Hid & Hlen & Hk).
  destruct (assess n dens pc (building_polygons st)) as [why|coords] eqn:Hv;
    unfold accounted; simpl.
  - repeat split; auto. rewrite length_app; simpl; lia.
  - apply accepted_passes in Hv as (Hn & Hd & Ha & Hr).
    rewrite !length_app, map_app, Hid; simpl.
    repeat split; try lia.
    + apply Forall_app; split; auto. constructor; [|constructor].
      now apply make_building_within.
    + replace (length (buildings st) + 1)%nat with (S (length (buildings st)))
        by lia.
      rewrite seq_S. simpl. repeat f_equal; lia.
Qed.

Lemma fold_step_accounted ConvexHull recursion_limit clusters :
  forall st k, accounted st k ->
    accounted (fold_left (step ConvexHull recursion_limit) clusters st)
      (k + length clusters).
Proof.
  induction clusters as [|c rest IH]; intros st k H; simpl.
  - now rewrite Nat.add_0_r.
  - replace (k + S (length rest))%nat with (S k + length rest)%nat by lia.
    apply IH. unfold step. now apply record_verdict_accounted.
Qed.

(** X8.  In the fixed building variant every accepted building was built
    from at least 80 points and its stored, rounded values respect the
    filters: area between 20 and 5000 m2, density at least 0.3, aspect ratio
    at most 12.  The polygon ids are 1, 2, ... in order of
    acceptance, and every cluster is either accepted or counted as
    rejected. *)
Theorem accepted_buildings_respect_filters
  (ConvexHull : list point -> outcome hull) (recursion_limit : nat)
  (clusters : list (list point)) :
  let st := extract_polygons ConvexHull recursion_limit clusters in
  Forall within_filters (buildings st) /\
  map polygon_id (buildings st) = seq 1 (length (buildings st)) /\
  length (buildings st) = length (building_polygons st) /\
  (length (buildings st) + length (rejected st) = length clusters)%nat.
Proof.
  cbv zeta. unfold extract_polygons.
  apply (fold_step_accounted ConvexHull recursion_limit clusters initial 0).
  unfold accounted, initial; simpl. repeat split; auto.
Qed.

Lemma fold_min_le (t : list R) : forall a, fold_left Rmin t a <= a.
Proof.
  induction t as [|y t IH]; intros a; simpl; [lra|].
  eapply Rle_trans; [apply IH | apply Rmin_l].
Qed.

Lemma fold_max_ge (t : list R) : forall a, a <= fold_left Rmax t a.
Proof.
  induction t as [|y t IH]; intros a; simpl; [lra|].
  eapply Rle_trans; [apply Rmax_l | apply IH].
Qed.

Lemma clear_of_irreflexive (d : R) (coords : polygon) :
  0 < d -> ~ clear_of d coords coords.
Proof.
  intros Hd (be & bl & Hbe & Hbl & H). rewrite Hbe in Hbl.
  injection Hbl as <-. unfold bbox in Hbe.
  destruct coords as [|p t]; [discriminate|]. simpl in Hbe.
  injection Hbe as <-.
  pose proof (fold_min_le (map fst t) (fst p)).
  pose proof (fold_max_ge (map fst t) (fst p)).
  pose proof (fold_min_le (map snd t) (snd p)).
  pose proof (fold_max_ge (map snd t) (snd p)).
  destruct H as [H|H].
  - unfold boxes_apart in H.
    rewrite !(proj2 (Rltb_false _ _)) in H by lra. discriminate.
  - unfold center_distance in H.
    match type of H with d <= sqrt ?e =>
      replace e with 0 in H by ring end.
    rewrite sqrt_0 in H. lra.
Qed.

(** X9.  In the fixed building variant no footprint is accepted twice: the
    accepted polygons are pairwise different vertex lists, because a
    candidate equal to an accepted polygon has the same bounding box and is
    rejected as an overlap. *)
Theorem accepted_polygons_are_distinct
  (ConvexHull : list point -> outcome hull) (recursion_limit : nat)
  (clusters : list (list point)) :
  NoDup (building_polygons
           (extract_polygons ConvexHull recursion_limit clusters)).
Proof.
  destruct (extract_polygons_separated ConvexHull recursion_limit clusters
              initial) as [_ Hp]; [split; constructor|].
  apply NoDup_iff_ForallOrdPairs.
  fold (extract_polygons ConvexHull recursion_limit clusters) in Hp.
  induction Hp as [|p l Hpl _ IH]; constructor; auto.
  eapply Forall_impl; [|exact Hpl].
  intros q Hc <-. apply (clear_of_irreflexive 8 p); [lra | exact Hc].
Qed.

Lemma footprint_none_cases ConvexHull recursion_limit alpha max_neighbors points :
  create_footprint_building ConvexHull recursion_limit alpha max_neighbors
    points = None ->
  (length points < 4)%nat \/ method_convex ConvexHull points = Raised.
Proof.
  unfold create_footprint_building.
  destruct (length points <? 4)%nat eqn:Hlen;
    [left; now apply Nat.ltb_lt|].
  destruct (method_concave _ _ _ _ points) as [[s|]|]; [discriminate| |];
    (destruct (method_convex ConvexHull points); [discriminate | now right]).
Qed.

Lemma take_in_range {A} (a : list A) (idx : list nat) :
  Forall (fun i => (i < length a)%nat) idx ->
  exists out, take a idx = Returned out.
Proof.
  intros H. destruct (StagesFacts.take_defined a idx H) as (out & Hout & _).
  eauto.
Qed.

Lemma never_invalid ConvexHull recursion_limit (points : list point) polys :
  hull_in_range ConvexHull ->
  assess (length points) (calculate_point_density ConvexHull points)
    (create_footprint_building ConvexHull recursion_limit 4 10 points) polys
  <> Reject invalid_polygon.
Proof.
  intros Hr. unfold assess.
  destruct (length points <? 80)%nat eqn:Hn; [discriminate|].
  destruct (Rltb _ 0.3) eqn:Hd; [discriminate|].
  destruct (create_footprint_building _ _ _ _ points) as [c|] eqn:Hf.
  - destruct (Rltb _ 20); [discriminate|].
    destruct (Rltb 5000 _); [discriminate|].
    destruct (Rltb 12 _); [discriminate|].
    destruct (has_overlap_with_existing _ _ _); discriminate.
  - exfalso. apply Nat.ltb_ge in Hn. apply Rltb_false in Hd.
    apply footprint_none_cases in Hf as [Hlen|Hm]; [lia|].
    unfold calculate_point_density in Hd.
    destruct (length points <? 4)%nat; [lra|].
    unfold method_convex in Hm.
    destruct (ConvexHull points) as [h|] eqn:Eh; [|lra].
    cbn [bind] in Hm.
    destruct (take_in_range points (vertices h) (Hr points h Eh)) as [hc Hhc].
    rewrite Hhc in Hm. discriminate.
Qed.

(** X10.  When the hull's vertex indices point into the cluster, the fixed
    variant never rejects a cluster as [invalid_polygon]: a cluster on which
    the convex hull fails has density 0 and is rejected as [too_sparse]
    before a footprint is asked for. *)
Theorem invalid_polygon_is_never_counted
  (ConvexHull : list point -> outcome hull) (recursion_limit : nat)
  (clusters : list (list point)) :
  hull_in_range ConvexHull ->
  ~ In invalid_polygon
       (rejected (extract_polygons ConvexHull recursion_limit clusters)).
Proof.
  intros Hr. unfold extract_polygons.
  assert (H : forall st,
             ~ In invalid_polygon (rejected st) ->
             ~ In invalid_polygon
                  (rejected (fold_left (step ConvexHull recursion_limit)
                               clusters st))).
  { induction clusters as [|c rest IH]; intros st Hst; simpl; auto.
    apply IH. unfold step.
    pose proof (never_invalid ConvexHull recursion_limit c
                  (building_polygons st) Hr) as Hv.
    destruct (assess _ _ _ _) as [why|coords]; simpl; auto.
    intros Hin. apply in_app_or in Hin as [Hin|[->|[]]]; auto. }
  apply H. simpl. tauto.
Qed.

Lemma wedge_hull_in_range : hull_in_range wedge_hull.
Proof.
  intros points h. unfold wedge_hull.
  destruct (points_eqb points wedge) eqn:E; [|discriminate].
  apply points_eqb_eq in E. subst points. intros [= <-].
  simpl. repeat constructor.
Qed.

Lemma invalid_polygon_is_never_counted_witness :
  ~ In invalid_polygon (rejected (extract_polygons wedge_hull 1000 [wedge])).
Proof.
  apply (invalid_polygon_is_never_counted wedge_hull 1000 [wedge]).
  exact wedge_hull_in_range.
Defined.

End BuildingExtras.

Module BuildingOriginalFacts.

Import Py PyFacts Geometry Footprint BuildingOriginal.
Local Open Scope R_scope.

Lemma accept_passes (pc : option polygon) (polys : list polygon) coords :
  accept pc polys = Some coords ->
  pc = Some coords /\ passes coords /\
  BuildingFixed.has_overlap_with_existing coords polys 25 = false.
Proof.
  unfold accept. destruct pc as [c|]; [|discriminate]. cbv zeta.
  destruct (Rltb (calculate_polygon_area c) 40) eqn:Ha; [discriminate|].
  destruct (Rltb 500 (calculate_polygon_area c)) eqn:Hb; [discriminate|].
  cbn [orb].
  destruct (Rltb 8 _) eqn:Hr; [discriminate|].
  destruct (has_overlap_with_existing c polys 0.1) eqn:Ho; [discriminate|].
  intros [= <-]. apply Rltb_false in Ha, Hb, Hr.
  unfold passes. auto.
Qed.

Lemma step_kept_ok ConvexHull recursion_limit st cluster_points :
  kept_ok st -> kept_ok (step ConvexHull recursion_limit st cluster_points).
Proof.
  intros (Hne & Hp & Hc & Hid & Hlen). unfold step.
  destruct (accept _ (building_polygons st)) as [coords|] eqn:E;
    [|repeat split; auto].
  apply accept_passes in E as (_ & Hpass & Hov).
  assert (Hnon : coords <> []).
  { intros ->. destruct Hpass as [[Ha _] _].
    rewrite GeometryFacts.area_short in Ha by (simpl; lia). lra. }
  unfold kept_ok, keep; simpl.
  rewrite !length_app, map_app, Hid; simpl.
  repeat split.
  - apply Forall_app; split; auto.
  - apply Forall_app; split; auto.
  - apply pairs_snoc; auto.
    now apply BuildingFixedFacts.no_overlap_clear.
  - replace (length (buildings st) + 1)%nat with (S (length (buildings st)))
      by lia.
    rewrite seq_S. simpl. repeat f_equal; lia.
  - lia.
Qed.

(** X11.  In the first building script every accepted polygon has an area
    between 40 and 500 m2 and an aspect ratio of at most 8, any two accepted
    polygons have bounding boxes that are apart or centres at least 25 m
    from each other, and the polygon ids are 1, 2, ... in order of
    acceptance.  The [overlap_threshold] argument of
    [has_overlap_with_existing] has no effect on its result. *)
Theorem original_filter_guarantees
  (ConvexHull : list point -> outcome hull) (recursion_limit : nat)
  (clusters : list (list point)) :
  let st := extract_polygons ConvexHull recursion_limit clusters in
  Forall passes (building_polygons st) /\
  ForallOrdPairs (BuildingFixed.clear_of 25) (building_polygons st) /\
  map polygon_id (buildings st) = seq 1 (length (buildings st)) /\
  length (buildings st) = length (building_polygons st) /\
  (forall new_coords existing t1 t2,
      has_overlap_with_existing new_coords existing t1
      = has_overlap_with_existing new_coords existing t2).
Proof.
  cbv zeta.
  assert (H : forall st, kept_ok st ->
                kept_ok (fold_left (step ConvexHull recursion_limit)
                           clusters st)).
  { induction clusters as [|c rest IH]; intros st Hst; simpl; auto.
    apply IH. now apply step_kept_ok. }
  destruct (H initial) as (_ & Hp & Hc & Hid & Hlen).
  { unfold kept_ok, initial; simpl. repeat split; constructor. }
  repeat split; auto.
Qed.

End BuildingOriginalFacts.

(** *** More on the mast clean-up ([python_mast_enhanced.py], l. 51-244) *)

Module MastExtras.

Import Py PyFacts Mast MastFacts.
Local Open Scope R_scope.

Lemma dedup_count (masts : list mast) (r : R) :
  (length (fst (remove_duplicate_masts masts r))
   + snd (remove_duplicate_masts masts r) = length masts)%nat.
Proof.
  unfold remove_duplicate_masts.
  destruct (length masts <=? 1)%nat; [simpl; lia|]. cbv zeta.
  rewrite scan_count. simpl.
  apply Permutation_length, sorted_perm.
Qed.

Lemma filter_step_count (b : bounds) (m : mast) clean stats :
  (length (fst (filter_step b (clean, stats) m))
   + total (snd (filter_step b (clean, stats) m))
   = S (length clean + total stats))%nat.
Proof.
  unfold filter_step, total.
  destruct (calculate_mast_quality m b) as [q v].
  destruct (point_count m <? min_points)%Z; [simpl; lia|].
  destruct (max_points <? point_count m)%Z; [simpl; lia|].
  destruct (Rltb q min_quality_score); simpl; [lia|].
  rewrite length_app; simpl; lia.
Qed.

Lemma filter_loop_count (b : bounds) (l : list mast) :
  forall acc,
    (length (fst (fold_left (filter_step b) l acc))
     + total (snd (fold_left (filter_step b) l acc))
     = length l + (length (fst acc) + total (snd acc)))%nat.
Proof.
  induction l as [|m t IH]; intros [clean stats];
    cbn [fold_left length fst snd]; [lia|].
  rewrite IH.
  pose proof (filter_step_count b m clean stats) as H.
  destruct (filter_step b (clean, stats) m) as [c s].
  cbn [fst snd] in *. lia.
Qed.

(** X12.  For a non-empty list of masts the statistics account for every
    input mast exactly once: too small, too large, poor quality, removed as
    duplicate and clean add up to the number of original masts, and
    [clean_masts] is the number of centroids written back.  For an empty
    list nothing is filtered and no statistics are attached. *)
Theorem statistics_account_for_every_mast
  (original_masts : list mast) (b : bounds) :
  match statistics (process_mast_chunk original_masts b) with
  | Some stats =>
      (too_small stats + too_large stats + poor_quality stats
       + duplicates_removed stats + clean_masts stats
       = length original_masts)%nat /\
      clean_masts stats
      = length (centroids (process_mast_chunk original_masts b))
  | None =>
      original_masts = [] /\
      centroids (process_mast_chunk original_masts b) = []
  end.
Proof.
  unfold process_mast_chunk.
  destruct original_masts as [|m0 t]; [simpl; auto|].
  set (l := m0 :: t).
  pose proof (filter_loop_count b l ([], no_stats)) as Hc.
  destruct (fold_left (filter_step b) l ([], no_stats)) as [clean stats].
  pose proof (dedup_count clean 1.5) as Hd.
  destruct (remove_duplicate_masts clean 1.5) as [kept dup].
  unfold total in Hc. simpl in *. split; [lia | reflexivity].
Qed.

Lemma score_out_of_bounds (m : mast) (b : bounds) :
  ~ (min_points <= point_count m <= max_points)%Z -> score m b <= 0.5.
Proof.
  intros H. rewrite score_weighted.
  unfold factors, calculate_mast_quality; cbn [fst snd details_quality_factors
    factor_point_count factor_height factor_density].
  destruct ((min_points <=? point_count m)%Z && (point_count m <=? max_points)%Z)
    eqn:E.
  - apply andb_true_iff in E as [E1 E2]. apply Z.leb_le in E1, E2. lia.
  - repeat match goal with |- context [if ?c then _ else _] => destruct c end;
      lra.
Qed.

(** X13.  The quality threshold decides nothing that the point count has
    not decided: a mast's score is at least 0.6 exactly when its point
    count lies between [min_points] and [max_points]; outside it is at most
    0.5, inside at least 0.79. *)
Theorem score_passes_iff_point_count_in_bounds (m : mast) (b : bounds) :
  (Rltb (score m b) min_quality_score = false <->
   (min_points <= point_count m <= max_points)%Z) /\
  (score m b <= 0.5 \/ 0.79 <= score m b).
Proof.
  assert (Hdec : (min_points <= point_count m <= max_points)%Z \/
                 ~ (min_points <= point_count m <= max_points)%Z) by lia.
  unfold min_quality_score. rewrite Rltb_false. split.
  - split.
    + intros Hs. destruct Hdec as [H|H]; [exact H|].
      pose proof (score_out_of_bounds m b H). lra.
    + intros H. pose proof (score_in_bounds m b H). lra.
  - destruct Hdec as [H|H].
    + right. now apply score_in_bounds.
    + left. now apply score_out_of_bounds.
Qed.

(** **** Deduplicating twice *)

Lemma sorted_fixed {A} (leb : A -> A -> bool) (l : list A) :
  StronglySorted (fun a b => leb a b = true) l -> sorted leb l = l.
Proof.
  induction 1 as [|x t Ht IH Hx]; [reflexivity|].
  simpl. fold (sorted leb t). rewrite IH.
  destruct t as [|y t']; [reflexivity|]. simpl.
  inversion Hx as [|? ? Hxy _]; subst. now rewrite Hxy.
Qed.

Lemma strongly_sorted_impl {A} (P Q : A -> A -> Prop) (l : list A) :
  (forall a b, P a b -> Q a b) -> StronglySorted P l -> StronglySorted Q l.
Proof.
  intros HPQ. induction 1 as [|x t Ht IH Hx]; constructor; auto.
  eapply Forall_impl; [|exact Hx]. auto.
Qed.

Lemma pairs_app_inv {A} (P : A -> A -> Prop) (a b : list A) :
  ForallOrdPairs P (a ++ b) ->
  forall x y, In x a -> In y b -> P x y.
Proof.
  induction a as [|u a IH]; intros H x y Hx Hy; [easy|].
  simpl in H. inversion H as [|? ? Hu Hrest]; subst.
  destruct Hx as [<-|Hx].
  - rewrite Forall_forall in Hu. apply Hu. apply in_or_app. now right.
  - now apply IH.
Qed.

Lemma not_duplicate (m : mast) (kept : list mast) (r : R) :
  Forall (fun k => far_apart r k m) kept -> is_duplicate m kept r = false.
Proof.
  unfold is_duplicate. induction 1 as [|k t Hk _ IH]; [reflexivity|].
  simpl. rewrite IH. unfold far_apart in Hk.
  now rewrite (proj2 (Rltb_false _ _) Hk).
Qed.

Lemma scan_keeps_all (r : R) (l : list mast) :
  forall pre n,
    ForallOrdPairs (far_apart r) (pre ++ l) ->
    fold_left (dedup_step r) l (pre, n) = (pre ++ l, n).
Proof.
  induction l as [|m t IH]; intros pre n H; simpl.
  - now rewrite app_nil_r.
  - rewrite not_duplicate.
    + rewrite IH; rewrite <- app_assoc; [reflexivity | exact H].
    + apply Forall_forall. intros k Hk.
      apply (pairs_app_inv _ pre (m :: t) H k m Hk). now left.
Qed.

(** X14.  Deduplication is idempotent: run on its own result, for the same
    radius, [remove_duplicate_masts] keeps every mast, in the same order,
    and reports 0 removed. *)
Theorem remove_duplicate_masts_idempotent (masts : list mast) (r : R) :
  remove_duplicate_masts (fst (remove_duplicate_masts masts r)) r
  = (fst (remove_duplicate_masts masts r), 0%nat).
Proof.
  assert (H : forall kept,
             StronglySorted at_least_as_large kept ->
             ForallOrdPairs (far_apart r) kept ->
             remove_duplicate_masts kept r = (kept, 0%nat)).
  { intros kept Hs Hp. unfold remove_duplicate_masts.
    destruct (length kept <=? 1)%nat; [reflexivity|]. cbv zeta.
    rewrite sorted_fixed.
    - now apply (scan_keeps_all r kept [] 0%nat).
    - eapply strongly_sorted_impl; [|exact Hs].
      intros a b0 Hab. unfold by_point_count_desc. now apply Z.leb_le. }
  unfold remove_duplicate_masts at 2 3.
  destruct (length masts <=? 1)%nat eqn:Hlen; cbv zeta.
  - simpl. unfold remove_duplicate_masts. now rewrite Hlen.
  - pose proof (scan_ok_final r (sorted by_point_count_desc masts) [] 0%nat
                  (sorted_masts_descending masts)) as [Hk Ha _];
      [repeat constructor|].
    now apply H.
Qed.

End MastExtras.

(** *** More on the filtering stages
    ([python_instance_enhanced.py], l. 84-117) *)

Module StagesExtras.

Import Py PyFacts Geometry Stages StagesFacts.
Local Open Scope R_scope.

(** **** The density reducer returns its points in voxel order *)

Lemma row_leb_le (a b : row) : row_leb a b = true <-> row_le a b.
Proof.
  destruct a as [[a1 a2] a3], b as [[b1 b2] b3]. unfold row_leb, row_le.
  destruct (Z.compare_spec a1 b1); destruct (Z.compare_spec a2 b2);
    rewrite ?Z.leb_le; split; intros; try lia; try discriminate.
Qed.

Lemma row_leb_total (a b : row) : row_leb a b = false -> row_leb b a = true.
Proof.
  intros H. apply row_leb_le.
  assert (Hn : ~ row_le a b) by (rewrite <- row_leb_le; congruence).
  destruct a as [[a1 a2] a3], b as [[b1 b2] b3]. unfold row_le in *. lia.
Qed.

Lemma row_le_trans (a b c : row) : row_le a b -> row_le b c -> row_le a c.
Proof.
  destruct a as [[a1 a2] a3], b as [[b1 b2] b3], c as [[c1 c2] c3].
  unfold row_le. lia.
Qed.

Lemma sorted_fixed_rows (u : list row) :
  StronglySorted (fun a b => row_leb a b = true) u -> sorted row_leb u = u.
Proof. apply MastExtras.sorted_fixed. Qed.

Lemma unique_rows_sorted (rows : list row) :
  StronglySorted (fun a b => row_leb a b = true) (fst (np_unique rows)).
Proof.
  unfold np_unique; cbn [fst]. apply Sorted_StronglySorted.
  - intros a b c Hab Hbc. apply row_leb_le in Hab, Hbc. apply row_leb_le.
    eapply row_le_trans; eauto.
  - apply sorted_Sorted. exact row_leb_total.
Qed.

Lemma first_index_NoDup (u : list row) :
  NoDup u -> map (fun r => first_index r u) u = seq 0 (length u).
Proof.
  induction 1 as [|r t Hr Hnd IH]; [reflexivity|].
  simpl. destruct (row_eq_dec r r) as [_|Hne]; [|contradiction].
  f_equal. rewrite <- seq_shift, <- IH, map_map.
  apply map_ext_in. intros r' Hin.
  destruct (row_eq_dec r' r) as [->|_]; [contradiction | reflexivity].
Qed.

Lemma take_all_from {A} (a : list A) :
  forall pre, take (pre ++ a) (seq (length pre) (length a)) = Returned a.
Proof.
  induction a as [|x a IH]; intros pre; [reflexivity|].
  simpl. rewrite nth_error_app2, Nat.sub_diag by lia. simpl.
  replace (pre ++ x :: a) with ((pre ++ [x]) ++ a) by (now rewrite <- app_assoc).
  replace (S (length pre)) with (length (pre ++ [x]))
    by (rewrite length_app; simpl; lia).
  now rewrite IH.
Qed.

Lemma take_all {A} (a : list A) : take a (seq 0 (length a)) = Returned a.
Proof. exact (take_all_from a []). Qed.

(** X15.  The density reducer does not keep the input order: the points it
    returns are in strictly ascending lexicographic order of their voxel
    index.  It is idempotent: reducing its own output, with the same voxel
    size, returns that output unchanged. *)
Theorem voxel_filter_sorted_and_idempotent
  (voxel_size : R) (points_3d : list point3) :
  exists out,
    voxel_filter voxel_size points_3d = Returned out /\
    StronglySorted (fun p q => row_le (voxel_index voxel_size p)
                                 (voxel_index voxel_size q) /\
                               voxel_index voxel_size p
                               <> voxel_index voxel_size q) out /\
    voxel_filter voxel_size out = Returned out.
Proof.
  destruct (voxel_filter_spec voxel_size points_3d) as (out & Hout & Hrel).
  pose proof (first_of_rows _ _ _ _ Hrel) as Hrows.
  set (rows := map (voxel_index voxel_size) points_3d) in *.
  pose proof (unique_rows_sorted rows) as Hs.
  pose proof (unique_rows_NoDup rows) as Hnd.
  rewrite <- Hrows in Hs, Hnd.
  exists out. split; [exact Hout|]. split.
  - clear Hout Hrel Hrows. induction out as [|p t IH]; [constructor|].
    simpl in Hs, Hnd. inversion Hs as [|? ? Hst Hp]; subst.
    inversion Hnd as [|? ? Hnot Hndt]; subst.
    constructor; [now apply IH|].
    apply Forall_forall. intros q Hq. split.
    + rewrite Forall_forall in Hp. apply row_leb_le, Hp. now apply in_map.
    + intros Heq. apply Hnot. rewrite Heq. now apply in_map.
  - unfold voxel_filter, np_unique. cbv zeta.
    rewrite (nodup_fixed_point row_eq_dec Hnd).
    rewrite (sorted_fixed_rows _ Hs).
    rewrite (first_index_NoDup _ Hnd), length_map. apply take_all.
Qed.

(** **** The height filter always drops something *)

Lemma filter_drops {A} (f : A -> bool) (l : list A) (x : A) :
  In x l -> f x = false -> (length (filter f l) < length l)%nat.
Proof.
  induction l as [|y t IH]; [easy|]. intros [->|Hin] Hx; simpl.
  - rewrite Hx. pose proof (filter_length_le f t). lia.
  - specialize (IH Hin Hx). destruct (f y); simpl; lia.
Qed.

(** X16.  On a non-empty cloud and a percentile between 0 and 100 the
    height filter returns points of its input and always fewer than it was
    given: the lowest point is never above the threshold.  With percentile
    100 nothing is left. *)
Theorem height_filter_drops_lowest
  (percentile : R) (voxel_filtered : list point3) :
  voxel_filtered <> [] -> 0 <= percentile <= 100 ->
  exists out,
    height_filter percentile voxel_filtered = Returned out /\
    incl out voxel_filtered /\
    (length out < length voxel_filtered)%nat /\
    (percentile = 100 -> out = []).
Proof.
  intros Hne Hq.
  destruct (np_percentile_defined (map pz voxel_filtered) percentile)
    as [t Ht]; auto.
  { destruct voxel_filtered; [easy | discriminate]. }
  exists (filter (fun p => Rltb t (pz p)) voxel_filtered).
  split; [|split; [|split]].
  - unfold height_filter. rewrite Ht. cbn [bind].
    now rewrite (select_map_map pz (fun z => Rltb t z)).
  - intros p Hp. now apply filter_In in Hp.
  - destruct (np_percentile_between _ _ _ Ht) as (lo & _ & Hlo & _ & Hb & _).
    apply in_map_iff in Hlo as (low & <- & Hlow).
    apply (filter_drops _ _ low Hlow). apply Rltb_false. exact Hb.
  - intros ->.
    assert (Hmax : forall p, In p voxel_filtered -> pz p <= t).
    { intros p Hp. revert Ht. unfold np_percentile.
      destruct (map pz voxel_filtered) as [|z0 zs] eqn:Ez;
        [destruct voxel_filtered; [easy | discriminate]|].
      rewrite <- Ez. clear Ez z0 zs. rdecide. cbn [orb]. cbv zeta.
      set (a := map pz voxel_filtered). set (n := length a).
      assert (Hn : (1 <= n)%nat).
      { unfold n, a. rewrite length_map. destruct voxel_filtered; [easy|].
        simpl; lia. }
      replace ((INR n - 1) * (100 / 100)) with (IZR (Z.of_nat (n - 1))).
      2:{ rewrite <- INR_IZR_INZ, minus_INR by lia. simpl. field. }
      rewrite ZfloorZ, Nat2Z.id.
      replace (Nat.min (n - 1 + 1) (n - 1)) with (n - 1)%nat by lia.
      intros [= <-].
      assert (Hin : In (pz p) (sorted Rleb a)).
      { eapply Permutation_in; [symmetry; apply sorted_perm|].
        unfold a. now apply in_map. }
      destruct (In_nth _ _ 0 Hin) as (i & Hi & Hnth).
      assert (Hlen : length (sorted Rleb a) = n)
        by (apply Permutation_length, sorted_perm).
      rewrite <- Hnth.
      pose proof (strongly_sorted_nth _ (sorted_reals_ascending a) i (n - 1))
        as Hle.
      rewrite Rminus_diag, Rmult_0_l, Rplus_0_r. apply Hle. lia. }
    clear Ht. induction voxel_filtered as [|p l IH]; [reflexivity|].
    simpl. rewrite (proj2 (Rltb_false t (pz p))) by (apply Hmax; now left).
    destruct l as [|p' l']; [reflexivity|].
    apply IH; [discriminate|]. intros q Hq'. apply Hmax. now right.
Qed.

Lemma height_filter_drops_lowest_witness :
  exists out,
    height_filter 25 ramp5 = Returned out /\
    incl out ramp5 /\
    (length out < length ramp5)%nat /\
    (25 = 100 -> out = []).
Proof.
  apply (height_filter_drops_lowest 25 ramp5).
  - discriminate.
  - lra.
Defined.

(** **** When the outlier filter returns nothing *)

(** X17.  Points that all lie over one ground position do not survive the
    outlier stage.  Their distances are all 0.0, so are the mean distances,
    their mean and standard deviation and the threshold computed from them;
    floating point computes these zeros without rounding, and no mean
    distance is strictly below the threshold.  On the twenty or more points
    the building script requires its filter returns nothing, and on the ten
    or more points the wire script requires so does the wire filter. *)
Theorem outlier_filter_discards_coincident_points
  (N : numerics) (height_filtered : list point3) (p0 : point) :
  exact_on_zeros N ->
  Forall (fun q => xy q = p0) height_filtered ->
  ((20 <= length height_filtered)%nat ->
   all_zero (mean_knn_distances N 10 (map xy height_filtered)) /\
   outlier_threshold N 1.2 (mean_knn_distances N 10 (map xy height_filtered))
   = 0 /\
   building_outlier_filter N height_filtered = []) /\
  ((10 <= length height_filtered)%nat ->
   all_zero (mean_knn_distances N 8 (map xy height_filtered)) /\
   outlier_threshold N 2.5 (mean_knn_distances N 8 (map xy height_filtered))
   = 0 /\
   wire_outlier_filter N height_filtered = []).
Proof.
  intros Hz Hsame.
  assert (Hs : Forall (fun p => p = p0) (map xy height_filtered))
    by now apply Forall_map.
  split; intros Hlen.
  - assert (Hn : (2 <= length (map xy height_filtered))%nat)
      by (rewrite length_map; lia).
    assert (Hk : (1 <= 10)%nat) by lia.
    split; [|split].
    + exact (proj2 (coincident_mean_distances N Hz _ _ Hs Hn 10 Hk)).
    + exact (coincident_threshold N Hz _ _ Hs Hn 10 Hk 1.2).
    + unfold building_outlier_filter. cbv zeta.
      apply (coincident_all_discarded N Hz _ _ Hs Hn 10 Hk).
  - assert (Hn : (2 <= length (map xy height_filtered))%nat)
      by (rewrite length_map; lia).
    assert (Hk : (1 <= 8)%nat) by lia.
    split; [|split].
    + exact (proj2 (coincident_mean_distances N Hz _ _ Hs Hn 8 Hk)).
    + exact (coincident_threshold N Hz _ _ Hs Hn 8 Hk 2.5).
    + unfold wire_outlier_filter. cbv zeta.
      apply (coincident_all_discarded N Hz _ _ Hs Hn 8 Hk).
Qed.

Lemma outlier_filter_discards_coincident_points_witness :
  building_outlier_filter exact stack20 = [] /\
  wire_outlier_filter exact stack20 = [].
Proof.
  assert (Hsame : Forall (fun q => xy q = (0, 0)) stack20)
    by (apply Forall_map, Forall_forall; reflexivity).
  destruct (outlier_filter_discards_coincident_points
              exact stack20 (0, 0) exact_is_exact_on_zeros Hsame)
    as [Hb Hw].
  split.
  - apply Hb. simpl; lia.
  - apply Hw. simpl; lia.
Defined.

End StagesExtras.

(** *** More on the mast script: what is written back, and how [main] ends *)

Module MastMainFacts.

Import Py PyFacts Mast MastFacts.
Local Open Scope R_scope.

Lemma details_score_rounded (m : mast) (b : bounds) :
  details_quality_score (snd (calculate_mast_quality m b))
  = round (score m b) 3.
Proof. reflexivity. Qed.

Lemma filter_step_marked (b : bounds) (m : mast) clean stats :
  Forall marked_clean clean ->
  Forall marked_clean (fst (filter_step b (clean, stats) m)).
Proof.
  intros H. unfold filter_step.
  pose proof (details_score_rounded m b) as Hr.
  pose proof (score_in_bounds m b) as Hs.
  destruct (calculate_mast_quality m b) as [q v] eqn:E.
  destruct (point_count m <? min_points)%Z eqn:Hlo; [exact H|].
  destruct (max_points <? point_count m)%Z eqn:Hhi; [exact H|].
  destruct (Rltb q min_quality_score); [exact H|].
  apply Z.ltb_ge in Hlo, Hhi.
  simpl. apply Forall_app; split; auto. constructor; [|constructor].
  split; [simpl; lia|].
  eexists; split; [reflexivity|]. split; [reflexivity|].
  simpl in Hr |- *. rewrite Hr.
  replace 0.79 with (IZR 790 / 10 ^ 3) by (simpl; lra).
  apply BuildingExtras.round_lower.
  replace (IZR 790 / 10 ^ 3) with 0.79 by (simpl; lra).
  apply Hs. lia.
Qed.

Lemma filter_loop_marked (b : bounds) (l : list mast) :
  forall acc,
    Forall marked_clean (fst acc) ->
    Forall marked_clean (fst (fold_left (filter_step b) l acc)).
Proof.
  induction l as [|m t IH]; intros [clean stats] H; simpl; auto.
  apply IH. now apply filter_step_marked.
Qed.

(** X18.  Every mast [process_mast_chunk] writes back has a point count
    within [min_points] and [max_points] and carries the added keys: the
    status [clean_mast] and a stored quality score of at least 0.79. *)
Theorem centroids_are_marked_clean (original_masts : list mast) (b : bounds) :
  Forall marked_clean (centroids (process_mast_chunk original_masts b)).
Proof.
  unfold process_mast_chunk.
  destruct original_masts as [|m0 t]; [constructor|].
  set (l := m0 :: t).
  pose proof (filter_loop_marked b l ([], no_stats) (Forall_nil _)) as H.
  destruct (fold_left (filter_step b) l ([], no_stats)) as [clean stats].
  pose proof (dedup_incl clean 1.5) as Hi.
  destruct (remove_duplicate_masts clean 1.5) as [kept dup]; simpl in *.
  rewrite Forall_forall in *. auto.
Qed.

Lemma statistics_attached (m0 : mast) (t : list mast) (b : bounds) :
  statistics (process_mast_chunk (m0 :: t) b) <> None.
Proof.
  unfold process_mast_chunk.
  destruct (fold_left (filter_step b) (m0 :: t) ([], no_stats)) as [clean stats].
  destruct (remove_duplicate_masts clean 1.5) as [kept dup]. discriminate.
Qed.

(** X19.  [main] ends with status 0 exactly when it is given one argument,
    a centroids file is found, [process_mast_chunk] reads and processes it
    without an error, the clean file can be written, and the file lists at
    least one mast or already holds all that the summary prints.  A file on
    which [process_mast_chunk] raises, such as a list of masts without the
    [results] section, ends [main] with status 1 and nothing written.  For a
    file with an empty list and no summary data the clean file is written
    with the data unchanged, and [main] still ends with status 1, because
    the summary reads the statistics that were never attached. *)
Theorem main_exit_status (w : surroundings) :
  (exit_status (main w) = 0%Z <->
   length (argv w) = 2%nat /\
   centroids_found w = true /\ clean_writable w = true /\
   exists masts b,
     loaded w = chunk masts b /\
     (masts <> [] \/ summary_as_read w = true)) /\
  (loaded w = ill_formed ->
   exit_status (main w) = 1%Z /\ written (main w) = None) /\
  (forall b,
      length (argv w) = 2%nat ->
      centroids_found w = true -> clean_writable w = true ->
      loaded w = chunk [] b -> summary_as_read w = false ->
      exit_status (main w) = 1%Z /\
      written (main w) = Some {| centroids := []; statistics := None |}).
Proof.
  unfold main. split; [|split].
  - destruct (length (argv w) =? 2)%nat eqn:Ha; cbn [negb];
      [apply Nat.eqb_eq in Ha
      |apply Nat.eqb_neq in Ha;
       split; [discriminate | intros [H _]; contradiction]].
    destruct (centroids_found w); cbn [negb];
      [|split; [discriminate | intros (_ & H & _); discriminate]].
    destruct (loaded w) as [| |masts b];
      try (split; [discriminate
                  | intros (_ & _ & _ & m & b' & H & _); discriminate]).
    cbv zeta.
    destruct (clean_writable w); cbn [negb];
      [|split; [discriminate | intros (_ & _ & H & _); discriminate]].
    destruct masts as [|m0 t].
    + simpl. destruct (summary_as_read w).
      * split; [intros _; repeat split; eauto | reflexivity].
      * split; [discriminate|].
        intros (_ & _ & _ & m & b' & [= <- <-] & [H|H]);
          [contradiction | discriminate].
    + pose proof (statistics_attached m0 t b) as Hs.
      destruct (statistics (process_mast_chunk (m0 :: t) b));
        [|contradiction].
      split; [|reflexivity].
      intros _. repeat split; auto. exists (m0 :: t), b.
      split; [reflexivity|]. left; discriminate.
  - intros ->. destruct (length (argv w) =? 2)%nat; cbn [negb]; auto.
    now destruct (centroids_found w).
  - intros b Ha -> -> -> ->. apply Nat.eqb_eq in Ha. rewrite Ha.
    simpl. auto.
Qed.

Lemma main_exit_status_witness :
  exit_status
    (main {| argv := ["python_mast_enhanced.py"; "chunk_1"]%string;
             centroids_found := true;
             loaded := chunk [] {| min_z := 0 |};
             summary_as_read := false;
             clean_writable := true |}) = 1%Z /\
  written
    (main {| argv := ["python_mast_enhanced.py"; "chunk_1"]%string;
             centroids_found := true;
             loaded := chunk [] {| min_z := 0 |};
             summary_as_read := false;
             clean_writable := true |})
  = Some {| centroids := []; statistics := None |}.
Proof.
  exact (proj2 (proj2 (main_exit_status
                  {| argv := ["python_mast_enhanced.py"; "chunk_1"]%string;
                     centroids_found := true;
                     loaded := chunk [] {| min_z := 0 |};
                     summary_as_read := false;
                     clean_writable := true |}))
           {| min_z := 0 |} eq_refl eq_refl eq_refl eq_refl eq_refl).
Defined.

End MastMainFacts.

(** *** More on the temporary files of the building and wire scripts *)

Module LoaderExtras.

Import Py Loader LoaderFacts.
Local Open Scope string_scope.

Lemma output_not_pipeline (chunk_name : string) :
  String.eqb (output_file chunk_name) (pipeline_file chunk_name) = false.
Proof. apply String.eqb_neq. unfold pipeline_file, output_file. simpl. discriminate. Qed.

Lemma output_not_temp (chunk_name : string) :
  String.eqb (output_file chunk_name) (temp_points chunk_name) = false.
Proof. apply String.eqb_neq. unfold temp_points, output_file. simpl. discriminate. Qed.

Section Run.

Variable stages : list Stages.point3 -> outcome nat.

Lemma finish_outcomes chunk_name fs points_3d :
  fs (temp_points chunk_name) = true ->
  fs (pipeline_file chunk_name) = true ->
  let r := finish stages chunk_name fs points_3d in
  (printed r = success <-> returned r <> 0%nat) /\
  (printed r = success -> files_after r (output_file chunk_name) = true) /\
  (printed r <> success ->
   files_after r (output_file chunk_name) = fs (output_file chunk_name)).
Proof.
  intros Ht Hp. cbv zeta. unfold finish.
  destruct (length points_3d <? 100)%nat;
    [cbn; repeat split; try congruence; try easy|].
  destruct (stages points_3d) as [[|n]|];
    try (cbn; repeat split; try congruence; easy).
  cbv zeta. unfold os_remove.
  rewrite (write_keeps fs _ _ Ht). rewrite pipeline_not_temp.
  rewrite (write_keeps fs _ _ Hp).
  cbn [printed returned files_after].
  rewrite output_not_pipeline, output_not_temp, write_same.
  repeat split; try congruence; try easy.
Qed.

End Run.

(** X20.  The building script returns a non-zero count exactly on its
    successful path; there the output GeoJSON exists and both temporary
    files are gone.  On every other path the output file is left exactly as
    it was before the run. *)
Theorem building_run_outcomes
  (stages : list Stages.point3 -> outcome nat) (w : world)
  (chunk_name : string) (fs : files) :
  let r := extract_instance_buildings_enhanced stages w chunk_name fs in
  (printed r = success <-> returned r <> 0%nat) /\
  (printed r = success ->
   files_after r (output_file chunk_name) = true /\
   files_after r (temp_points chunk_name) = false /\
   files_after r (pipeline_file chunk_name) = false) /\
  (printed r <> success ->
   files_after r (output_file chunk_name) = fs (output_file chunk_name)).
Proof.
  cbv zeta.
  pose proof (successful_run_removes_temp_files stages w chunk_name fs) as Hclean.
  revert Hclean.
  unfold extract_instance_buildings_enhanced.
  destruct (negb (tmp_writable w));
    [cbn; intros _; repeat split; try congruence; easy|].
  cbv zeta.
  destruct (pdal w) as [r|].
  2:{ cbn [printed returned files_after]. intros _.
      unfold write. rewrite output_not_pipeline.
      repeat split; try congruence; easy. }
  set (fs1 := if wrote_csv r
              then write (write fs (pipeline_file chunk_name))
                     (temp_points chunk_name)
              else write fs (pipeline_file chunk_name)).
  assert (Hp : fs1 (pipeline_file chunk_name) = true).
  { unfold fs1. destruct (wrote_csv r); [apply write_keeps|]; apply write_same. }
  assert (Ho : fs1 (output_file chunk_name) = fs (output_file chunk_name)).
  { unfold fs1, write. destruct (wrote_csv r);
      now rewrite ?output_not_pipeline, ?output_not_temp. }
  destruct (negb (returncode r =? 0)%Z);
    [cbn; intros _; repeat split; try congruence; easy|].
  destruct (fs1 (temp_points chunk_name)) eqn:Ht;
    [|cbn; intros _; repeat split; try congruence; easy].
  destruct (loadtxt w) as [points_3d|];
    [|cbn; intros _; repeat split; try congruence; easy].
  intros Hclean.
  destruct (finish_outcomes stages chunk_name fs1 points_3d Ht Hp)
    as (H1 & H2 & H3).
  split; [exact H1|]. split.
  - intros Hs. split; [now apply H2 | now apply Hclean].
  - intros Hs. rewrite <- Ho. now apply H3.
Qed.

End LoaderExtras.

Module WireLoaderFacts.

Import Py Loader LoaderFacts WireLoader.
Local Open Scope string_scope.

Lemma wire_temp_files_differ (chunk_name : string) :
  String.eqb (temp_points_file chunk_name) (temp_pipeline_file chunk_name)
  = false.
Proof.
  apply String.eqb_neq. unfold temp_points_file, temp_pipeline_file.
  simpl. discriminate.
Qed.

(** X21.  The wire script removes its two temporary files as soon as
    [pdal] has exited with status 0, whether or not any point could then be
    read; the points it returns are the parsable CSV lines in file order.
    When [pdal] exits with another status, the pipeline JSON it wrote is
    left behind. *)
Theorem wire_load_cleans_up_after_pdal
  (w : world) (chunk_name : string) (fs : files) (r : pdal_result) :
  tmp_writable w = true -> pdal w = Returned r ->
  let result := load_points w chunk_name fs in
  ((returncode r = 0)%Z ->
   snd result (temp_points_file chunk_name) = false /\
   snd result (temp_pipeline_file chunk_name) = false /\
   (wrote_csv r = true -> parsed (csv_lines w) <> [] ->
    fst result = Some (parsed (csv_lines w)))) /\
  ((returncode r <> 0)%Z ->
   fst result = None /\
   snd result (temp_pipeline_file chunk_name) = true).
Proof.
  intros Hw Hp. cbv zeta. unfold load_points. rewrite Hw, Hp. cbn [negb].
  cbv zeta. split.
  - intros ->. cbn [Z.eqb negb].
    match goal with |- context [match ?pts with [] => _ | _ :: _ => _ end] =>
      destruct pts eqn:Epts end; cbn [fst snd];
      unfold remove_if_exists;
      rewrite wire_temp_files_differ, !String.eqb_refl;
      (split; [reflexivity|]); (split; [reflexivity|]).
    + intros Hc Hne. rewrite Hc in Epts. rewrite write_same in Epts.
      contradiction.
    + intros Hc Hne. rewrite Hc in Epts. rewrite write_same in Epts.
      now rewrite Epts.
  - intros Hne. apply Z.eqb_neq in Hne. rewrite Hne. cbn [negb fst snd].
    split; [reflexivity|].
    destruct (wrote_csv r); [apply write_keeps|]; apply write_same.
Qed.

Lemma wire_load_cleans_up_after_pdal_witness :
  let w := {| tmp_writable := true;
              pdal := Returned {| returncode := 0; wrote_csv := true |};
              csv_lines := [Some (1, 2, 3)%R; None] |} in
  ((0 = 0)%Z ->
   snd (load_points w "chunk_1" no_files) (temp_points_file "chunk_1") = false /\
   snd (load_points w "chunk_1" no_files) (temp_pipeline_file "chunk_1")
   = false /\
   (true = true -> parsed [Some (1, 2, 3)%R; None] <> [] ->
    fst (load_points w "chunk_1" no_files)
    = Some (parsed [Some (1, 2, 3)%R; None]))) /\
  ((0 <> 0)%Z ->
   fst (load_points w "chunk_1" no_files) = None /\
   snd (load_points w "chunk_1" no_files) (temp_pipeline_file "chunk_1")
   = true).
Proof.
  apply (wire_load_cleans_up_after_pdal
           {| tmp_writable := true;
              pdal := Returned {| returncode := 0; wrote_csv := true |};
              csv_lines := [Some (1, 2, 3)%R; None] |} "chunk_1" no_files
           {| returncode := 0; wrote_csv := true |}); reflexivity.
Defined.

End WireLoaderFacts.

(** *** Where the vertices of a footprint come from
    ([python_instance_enhanced.py], l. 259-355) *)

Module FootprintVertices.

Import Py PyFacts Geometry Footprint FootprintFacts SimplifyFacts.
Local Open Scope R_scope.

Lemma take_incl {A} (a : list A) (idx : list nat) :
  forall out, take a idx = Returned out -> incl out a.
Proof.
  induction idx as [|i idx IH]; intros out; simpl.
  - intros [= <-]. easy.
  - destruct (nth_error a i) as [x|] eqn:E; [|discriminate].
    destruct (take a idx) as [rest|]; [|discriminate]. cbn [bind].
    intros [= <-]. apply incl_cons; [|now apply IH].
    eapply nth_error_In; eauto.
Qed.

Lemma close_ring_incl {A} (l : list A) : incl (close_ring l) l.
Proof.
  destruct l as [|x t]; [easy|]. unfold close_ring.
  apply incl_app; [apply incl_refl|]. intros y [<-|[]]. now left.
Qed.

Lemma simplify_polygon_incl (limit : nat) (coords : polygon) (tolerance : R) :
  incl (simplify_polygon limit coords tolerance) coords.
Proof.
  unfold simplify_polygon.
  destruct (length coords <? 4)%nat; [apply incl_refl|].
  destruct (dp_simplify limit coords tolerance) as [s|] eqn:E;
    [|apply incl_refl].
  destruct (dp_simplify_spec _ _ _ _ E) as (Hincl & _).
  intros x Hx. apply Hincl. now apply close_if_open_incl.
Qed.

Section Oracle.

Variable ConvexHull : list point -> outcome hull.
Variable recursion_limit : nat.
Variable alpha : R.
Variable max_neighbors : nat.

Lemma concave_hull_incl (points : list point) (hull_coords : polygon) :
  create_concave_hull ConvexHull alpha max_neighbors points = Some hull_coords ->
  incl hull_coords points.
Proof.
  unfold create_concave_hull.
  destruct (length points <? 4)%nat; [discriminate|]. cbv zeta.
  destruct (length _ <? 4)%nat; [discriminate|].
  destruct (ConvexHull _) as [h|]; [|discriminate]. cbn [bind].
  destruct (take _ (vertices h)) as [hc|] eqn:Et; [|discriminate].
  intros [= <-]. intros x Hx. apply close_ring_incl in Hx.
  apply (take_incl _ _ _ Et) in Hx. now apply filter_In in Hx.
Qed.

Lemma method_convex_incl (points : list point) (hull_coords : polygon) :
  method_convex ConvexHull points = Returned hull_coords ->
  incl hull_coords points.
Proof.
  unfold method_convex.
  destruct (ConvexHull points) as [h|]; [|discriminate]. cbn [bind].
  destruct (take points (vertices h)) as [hc|] eqn:Et; [|discriminate].
  cbn [bind]. intros [= <-]. intros x Hx.
  apply close_if_open_incl in Hx. now apply (take_incl _ _ _ Et).
Qed.

End Oracle.

(** X22.  Whatever the convex hull returns, every vertex of a footprint
    that [create_footprint_building] returns is one of the points of the
    cluster: the builder selects and repeats points, it never computes a
    new coordinate (the bounding-box corners of method 4 are never
    returned). *)
Theorem footprint_vertices_are_cluster_points
  (ConvexHull : list point -> outcome hull) (recursion_limit : nat)
  (alpha : R) (max_neighbors : nat)
  (points : list point) (polygon_coords : polygon) :
  create_footprint_building ConvexHull recursion_limit alpha max_neighbors
    points = Some polygon_coords ->
  incl polygon_coords points.
Proof.
  unfold create_footprint_building.
  destruct (length points <? 4)%nat; [discriminate|].
  assert (H2 : forall hc, method_convex ConvexHull points = Returned hc ->
                          incl hc points)
    by (intros hc; apply method_convex_incl).
  assert (H3 : method_convex ConvexHull points = Raised ->
               method_oriented ConvexHull points = Returned None).
  { intros E. unfold method_oriented.
    now rewrite (method_oriented_after_convex ConvexHull points E). }
  unfold method_concave.
  destruct (create_concave_hull ConvexHull alpha max_neighbors points)
    as [hc|] eqn:E1.
  - pose proof (concave_hull_incl ConvexHull alpha max_neighbors points hc E1)
      as Hhc.
    destruct (4 <=? length hc)%nat.
    + destruct (4 <=? length (simplify_polygon recursion_limit hc 0.5))%nat.
      * intros [= <-]. intros x Hx. apply Hhc.
        now apply simplify_polygon_incl in Hx.
      * destruct (method_convex ConvexHull points) as [c|] eqn:E2.
        -- intros [= <-]. now apply H2.
        -- rewrite (H3 eq_refl). discriminate.
    + destruct (method_convex ConvexHull points) as [c|] eqn:E2.
      * intros [= <-]. now apply H2.
      * rewrite (H3 eq_refl). discriminate.
  - destruct (method_convex ConvexHull points) as [c|] eqn:E2.
    + intros [= <-]. now apply H2.
    + rewrite (H3 eq_refl). discriminate.
Qed.

Lemma footprint_vertices_are_cluster_points_witness :
  incl wedge_ring wedge.
Proof.
  apply (footprint_vertices_are_cluster_points wedge_hull 1000 3.0 8
           wedge wedge_ring).
  exact wedge_footprint.
Defined.

End FootprintVertices.
